(** * cnsync/gateway: the proxy core, embedded and checked

    A shallow embedding of the parts of the gateway that the specification
    makes promises about: the router's path cleaner, the HTTP->gRPC
    transcoder, the retry-exclusion node filter, the discovery node applier
    and watcher loop, and the proxy orchestrator (error writer, retry
    bookkeeping, endpoint pipeline, hot reload).

    Go strings are byte sequences.  Where a function works byte by byte
    (path cleaning, prefix trimming) strings are [list ascii] or [string];
    byte slices are [list byte]; Go maps are [gmap]/[gset]; slices that are
    updated through a shared backing array are lists with stdpp's indexed
    insert. *)

From Stdlib Require Import ZArith Lia Strings.Ascii Strings.String Strings.Byte.
From stdpp Require Import base option list gmap strings pretty.

Local Open Scope nat_scope.

(* ===================================================================== *)
(** ** The pieces of Go and its standard library that the gateway uses   *)
(* ===================================================================== *)

Module Go.

(** Go [error] values.  The sentinels the gateway compares against are
    constructors; [New] is [errors.New]/[fmt.Errorf] without [%w], [Wrap]
    is an error that wraps another one ([Unwrap] returns [inner]) and
    prints as [msg]. *)
Inductive error : Type :=
| Canceled                 (* context.Canceled *)
| DeadlineExceeded         (* context.DeadlineExceeded *)
| ErrNotFound              (* middleware.ErrNotFound *)
| ErrCancelWatch           (* client.ErrCancelWatch *)
| New (msg : string)
| Wrap (msg : string) (inner : error).

#[global] Instance error_eq_dec : EqDecision error.
Proof. solve_decision. Defined.

(** [err.Error()] *)
Definition Error (e : error) : string :=
  match e with
  | Canceled => "context canceled"
  | DeadlineExceeded => "context deadline exceeded"
  | ErrNotFound => "middleware has not been registered"
  | ErrCancelWatch => "cancel watch"
  | New msg => msg
  | Wrap msg _ => msg
  end.

(** [errors.Is(err, target)] for a sentinel [target]: walks the [Unwrap]
    chain. *)
Fixpoint errors_Is (e target : error) : bool :=
  bool_decide (e = target) ||
  match e with
  | Wrap _ inner => errors_Is inner target
  | _ => false
  end.

(** A Go result pair [(v, err)]. *)
Inductive result (A : Type) : Type :=
| Ok (a : A)
| Err (e : error).
Arguments Ok {A} a.
Arguments Err {A} e.

(** Stateful code: a computation reads and updates a store [S]; a run-time
    panic ([None]) unwinds through every later step.  Errors are ordinary
    values, handled where the Go code handles them. *)
Definition M (S A : Type) : Type := S -> option A * S.

Definition ret {S A} (a : A) : M S A := fun st => (Some a, st).

Definition bind {S A B} (m : M S A) (k : A -> M S B) : M S B :=
  fun st => match m st with
            | (Some a, st') => k a st'
            | (None, st') => (None, st')
            end.

Definition panic {S A} : M S A := fun st => (None, st).
Definition get {S} : M S S := fun st => (Some st, st).
Definition modify {S} (f : S -> S) : M S unit := fun st => (Some tt, f st).

(** [strings.HasPrefix(s, prefix)] *)
Definition HasPrefix (s pre : string) : bool := String.prefix pre s.

(** [strings.ContainsRune(cutset, c)] for a byte [c]. *)
Fixpoint contains (cutset : string) (c : ascii) : bool :=
  match cutset with
  | EmptyString => false
  | String d cutset' => Ascii.eqb c d || contains cutset' c
  end.

(** [strings.TrimLeft(s, cutset)]: drops every leading byte of [s] that
    occurs in [cutset] (an ASCII cutset here). *)
Fixpoint TrimLeft (s cutset : string) : string :=
  match s with
  | EmptyString => EmptyString
  | String c s' => if contains cutset c then TrimLeft s' cutset else s
  end.

(** [strings.TrimRight(s, cutset)] *)
Fixpoint TrimRight (s cutset : string) : string :=
  match s with
  | EmptyString => EmptyString
  | String c s' =>
    match TrimRight s' cutset with
    | EmptyString => if contains cutset c then EmptyString else String c EmptyString
    | r => String c r
    end
  end.

(** [strings.HasSuffix(s, suffix)] *)
Definition HasSuffix (s suf : string) : bool :=
  (String.length suf <=? String.length s) &&
  String.eqb (substring (String.length s - String.length suf) (String.length suf) s) suf.

Definition lower (c : ascii) : ascii :=
  let n := nat_of_ascii c in
  if (65 <=? n) && (n <=? 90) then ascii_of_nat (n + 32) else c.

(** [strings.ToLower] on ASCII text: the bytes [A] to [Z] are lowered and
    every other byte is kept.  On other text Go lowers the letters of
    Unicode and rewrites bytes that are not UTF-8, which this function does
    not do; what is stated with it is stated of ASCII text ([is_ascii]). *)
Fixpoint ToLower (s : string) : string :=
  match s with
  | EmptyString => EmptyString
  | String c s' => String (lower c) (ToLower s')
  end.

(** Whether every byte of the string is below 128. *)
Fixpoint is_ascii (s : string) : bool :=
  match s with
  | EmptyString => true
  | String c s' => (nat_of_ascii c <? 128) && is_ascii s'
  end.

(** [http.Header]: canonical key -> values.  Every key the gateway passes
    to [Get]/[Set]/[Del] is a literal; [canon] is its canonical form
    ([Content-Type], [Grpc-Status], ...). *)
Definition upper (c : ascii) : ascii :=
  let n := nat_of_ascii c in
  if (97 <=? n) && (n <=? 122) then ascii_of_nat (n - 32) else c.

Fixpoint canon_from (up : bool) (key : string) : string :=
  match key with
  | EmptyString => EmptyString
  | String c key' =>
    String (if up then upper c else lower c)
           (canon_from (Ascii.eqb c "-"%char) key')
  end.

(** [textproto.CanonicalMIMEHeaderKey] on a header token. *)
Definition canon (key : string) : string := canon_from true key.

Abbreviation Header := (gmap string (list string)).

Definition Header_Get (h : Header) (key : string) : string :=
  match h !! canon key with
  | Some (v :: _) => v
  | _ => EmptyString
  end.

Definition Header_Set (h : Header) (key value : string) : Header :=
  <[canon key := [value]]> h.

Definition Header_Del (h : Header) (key : string) : Header :=
  delete (canon key) h.

(** Byte conversions: [byte(x)] keeps the low eight bits. *)
Definition byte_of_Z (z : Z) : byte :=
  match Byte.of_N (Z.to_N (z mod 256)) with
  | Some b => b
  | None => x00
  end.

Definition Z_of_byte (b : byte) : Z := Z.of_N (Byte.to_N b).

(** [uint32(n)] *)
Definition uint32 (n : Z) : Z := n mod 2 ^ 32.

(** [int32(n)]: the low 32 bits, read as a signed number. *)
Definition int32 (n : Z) : Z := (n + 2 ^ 31) mod 2 ^ 32 - 2 ^ 31.

(** [binary.BigEndian.PutUint32(b[off:], v)]; panics when the slice is
    shorter than four bytes. *)
Definition PutUint32 (off : nat) (v : Z) (b : list byte) : option (list byte) :=
  if length b <? off + 4 then None
  else Some (<[off + 3 := byte_of_Z v]>
            (<[off + 2 := byte_of_Z (Z.shiftr v 8)]>
            (<[off + 1 := byte_of_Z (Z.shiftr v 16)]>
            (<[off := byte_of_Z (Z.shiftr v 24)]> b)))).

(** [binary.BigEndian.Uint32] *)
Definition Uint32 (b : list byte) : Z :=
  match b with
  | b0 :: b1 :: b2 :: b3 :: _ =>
    Z.lor (Z.lor (Z.lor (Z_of_byte b3) (Z.shiftl (Z_of_byte b2) 8))
                 (Z.shiftl (Z_of_byte b1) 16))
          (Z.shiftl (Z_of_byte b0) 24)
  | _ => 0
  end%Z.

(** [copy(dst[off:], src)]: writes as many bytes as fit. *)
Fixpoint copy_at (off : nat) (src dst : list byte) : list byte :=
  match src with
  | [] => dst
  | x :: src' => copy_at (S off) src' (<[off := x]> dst)
  end.

(** [io.ReadAll(body)]: the bytes of the body, or the error reading it. *)
Record ReadCloser : Type := {
  body_data : list byte;
  body_err : option error;
}.

Definition ReadAll (b : ReadCloser) : result (list byte) :=
  match body_err b with
  | Some e => Err e
  | None => Ok (body_data b)
  end.

(** [io.NopCloser(bytes.NewReader(data))] *)
Definition NewReader (data : list byte) : ReadCloser :=
  {| body_data := data; body_err := None |}.

End Go.

Notation "'let*' x := m 'in' k" := (Go.bind m (fun x => k))
  (at level 10, x name, m at level 100, k at level 200).

(* ===================================================================== *)
(** ** Go's [path.Clean] and the router's [cleanPath]                    *)
(* ===================================================================== *)

Module Path.

Definition slash : ascii := "/"%char.
Definition dot : ascii := "."%char.

Definition is_slash (c : ascii) : bool := Ascii.eqb c slash.
Definition is_dot (c : ascii) : bool := Ascii.eqb c dot.

(** [path[i]] of the part of the path that is still to be read; only used
    where Go has already checked that the index is in range. *)
Definition peek (rest : list ascii) : ascii := hd slash rest.

(** [r == n || path[r] == '/'] on the unread part. *)
Definition at_elem_end (rest : list ascii) : bool :=
  match rest with
  | [] => true
  | c :: _ => is_slash c
  end.

(** The output buffer of [path.Clean] (Go's [lazybuf]) is kept as the bytes
    [buf[0..w)] with the most recently written byte first, so that
    [out.append(c)] is [c :: out], [out.w] is [length out] and [out.w--]
    drops the head.  [out.string()] is [rev out]. *)

(** The inner loop of the [..] case after the first [out.w--]:
    [for out.w > dotdot && out.index(out.w) != '/' { out.w-- }].
    [top] is [out.index(out.w)], the byte just above the write mark. *)
Fixpoint unwind (dotdot : nat) (top : ascii) (below : list ascii) {struct below}
  : list ascii :=
  if (dotdot <? length below) && negb (is_slash top) then
    match below with
    | c :: b' => unwind dotdot c b'
    | [] => []
    end
  else below.

Definition backtrack (dotdot : nat) (out : list ascii) : list ascii :=
  match out with
  | top :: below => unwind dotdot top below
  | [] => []
  end.

(** [for ; r < n && path[r] != '/'; r++ { out.append(path[r]) }] *)
Fixpoint copy_elem (rest out : list ascii) : list ascii * list ascii :=
  match rest with
  | c :: t => if is_slash c then (rest, out) else copy_elem t (c :: out)
  | [] => ([], out)
  end.

(** The main loop [for r < n { switch ... }].  Every turn reads at least one
    byte, so the length of the path bounds the number of turns; [fuel] is
    that bound. *)
Fixpoint clean_loop (rooted : bool) (fuel : nat) (rest out : list ascii)
    (dotdot : nat) : list ascii :=
  match fuel with
  | O => out
  | S fuel' =>
    match rest with
    | [] => out
    | c :: t =>
      if is_slash c then
        (* empty path element *)
        clean_loop rooted fuel' t out dotdot
      else if is_dot c && at_elem_end t then
        (* . element *)
        clean_loop rooted fuel' t out dotdot
      else if is_dot c && is_dot (peek t) && at_elem_end (tl t) then
        (* .. element: remove to last / *)
        if dotdot <? length out then
          clean_loop rooted fuel' (tl t) (backtrack dotdot out) dotdot
        else if negb rooted then
          let out1 := if 0 <? length out then slash :: out else out in
          let out2 := dot :: dot :: out1 in
          clean_loop rooted fuel' (tl t) out2 (length out2)
        else
          clean_loop rooted fuel' (tl t) out dotdot
      else
        (* real path element: add slash if needed, copy element *)
        let out1 :=
          if (rooted && negb (length out =? 1)) ||
             (negb rooted && negb (length out =? 0))
          then slash :: out else out in
        let '(rest', out2) := copy_elem rest out1 in
        clean_loop rooted fuel' rest' out2 dotdot
    end
  end.

(** Go standard library, [path.Clean]. *)
Definition Clean (path : list ascii) : list ascii :=
  match path with
  | [] => [dot]
  | c :: t =>
    let rooted := is_slash c in
    let out :=
      if rooted then clean_loop true (length path) t [slash] 1
      else clean_loop false (length path) path [] 0 in
    match out with
    | [] => [dot]
    | _ => rev out
    end
  end.

(** [p[len(p)-1] == '/'] *)
Definition ends_with_slash (p : list ascii) : bool :=
  match last p with
  | Some c => is_slash c
  | None => false
  end.

Definition bytes_eqb (a b : list ascii) : bool := bool_decide (a = b).

(** router/mux: [cleanPath] *)
Definition cleanPath (p : list ascii) : list ascii :=
  match p with
  | [] => [slash]
  | c :: _ =>
    let p := if negb (is_slash c) then slash :: p else p in
    let np := Clean p in
    if ends_with_slash p && negb (bytes_eqb np [slash])
    then np ++ [slash]
    else np
  end.

(** *** Canonical rooted paths

    The shapes that the rooted cleaner produces, used to state and prove
    its properties: a path element is [good] when it is non-empty, has no
    slash and is neither [.] nor [..]. *)

Definition no_slash (e : list ascii) : Prop := Forall (fun c => is_slash c = false) e.

Definition good (e : list ascii) : Prop :=
  e <> [] /\ no_slash e /\ e <> [dot] /\ e <> [dot; dot].

(** The buffer that holds the elements [st] (last element first) after the
    root slash. *)
Fixpoint body (st : list (list ascii)) : list ascii :=
  match st with
  | [] => []
  | e :: st' => rev e ++ slash :: body st'
  end.

Definition rbuf (st : list (list ascii)) : list ascii :=
  match st with
  | [] => [slash]
  | _ => body st
  end.

(** [/e1/e2/.../en] *)
Fixpoint joinS (segs : list (list ascii)) : list ascii :=
  match segs with
  | [] => []
  | e :: segs' => slash :: e ++ joinS segs'
  end.

(** [out.string()] of a canonical buffer *)
Definition fwd (st : list (list ascii)) : list ascii :=
  match st with
  | [] => [slash]
  | _ => joinS (rev st)
  end.

(** The main loop run to completion. *)
Definition run (rooted : bool) (rest out : list ascii) (dotdot : nat) : list ascii :=
  clean_loop rooted (length rest) rest out dotdot.

Definition s (x : string) : list ascii := list_ascii_of_string x.

End Path.

(* ===================================================================== *)
(** ** Configuration and HTTP messages                                   *)
(* ===================================================================== *)

Module Config.

(** Modelled from the spec: the generated configuration types of
    [api/gateway/config/v1] (section 6, "Configuration"), with the fields
    the code under verification reads. *)
Inductive Protocol : Type := UNSPECIFIED | HTTP | GRPC.

#[global] Instance Protocol_eq_dec : EqDecision Protocol.
Proof. solve_decision. Defined.

(** [Protocol.String()] *)
Definition Protocol_String (p : Protocol) : string :=
  match p with
  | UNSPECIFIED => "UNSPECIFIED"
  | HTTP => "HTTP"
  | GRPC => "GRPC"
  end.

Record Middleware : Type := {
  mw_Name : string;
  mw_Required : bool;
  mw_Options : string;
}.

Record Backend : Type := {
  Target : string;
  Weight : option Z;
  bk_Metadata : gmap string string;
  Tls : bool;
  TlsConfigName : string;
}.

Record Retry : Type := {
  Attempts : Z;                        (* uint32 *)
  PerTryTimeout : option Z;            (* nanoseconds *)
  Conditions : list string;
}.

Record Endpoint : Type := {
  ep_Path : string;
  ep_Method : string;
  ep_Host : string;
  ep_Protocol : Protocol;
  ep_Timeout : option Z;               (* nanoseconds *)
  ep_Retry : option Retry;
  ep_Backends : list Backend;
  ep_Middlewares : list Middleware;
  ep_Metadata : gmap string string;
}.

Record Gateway : Type := {
  gw_Name : string;
  gw_Middlewares : list Middleware;
  gw_Endpoints : list Endpoint;
}.

End Config.

Module Http.
Import Go.

(** [http.Request], with the fields the pipeline touches.  [req_Endpoint]
    is the endpoint found in the request context
    ([middleware.EndpointFromContext]). *)
Record Request : Type := {
  req_Method : string;
  req_Host : string;
  req_URL_Scheme : string;
  req_URL_Host : string;
  req_RequestURI : string;
  req_RemoteAddr : string;
  req_Header : Header;
  req_ContentLength : Z;
  req_Body : ReadCloser;
  req_Endpoint : Config.Endpoint;
}.

(** [http.Response]; a [nil] body is [None]. *)
Record Response : Type := {
  resp_StatusCode : Z;
  resp_Header : Header;
  resp_Trailer : Header;
  resp_ContentLength : Z;
  resp_Body : option ReadCloser;
}.

(** [http.RoundTripper] over a store [S]. *)
Definition RoundTripper (S : Type) : Type := Request -> M S (result Response).

End Http.

(* ===================================================================== *)
(** ** middleware/transcoder                                             *)
(* ===================================================================== *)

Module Transcoder.
Import Go Http.

Section Transcoder.
Context {S : Type}.

(** From outside the sources: [strconv.ParseInt] of the [grpc-status]
    header, the two base64 decoders, and the JSON form of the
    [google.rpc.Status] that has the given code and message and, when
    there are details, the fields that [proto.Unmarshal] merges in
    ([protojson.Marshal] of the result). *)
Variable ParseInt : string -> result Z.
Variable StdEncoding_DecodeString : string -> result (list byte).
Variable RawStdEncoding_DecodeString : string -> result (list byte).
Variable status_json : Z -> string -> option (list byte) -> result (list byte).

(** [decodeBinHeader] *)
Definition decodeBinHeader (v : string) : result (list byte) :=
  if String.length v mod 4 =? 0 then StdEncoding_DecodeString v
  else RawStdEncoding_DecodeString v.

(** [newResponse] *)
Definition newResponse (statusCode : Z) (header : Header) (data : list byte)
  : Response :=
  {| resp_StatusCode := statusCode;
     resp_Header := header;
     resp_Trailer := ∅;
     resp_ContentLength := Z.of_nat (length data);
     resp_Body := Some (NewReader data) |}.

(** The request direction of the middleware body: the length-prefixed
    frame and the rewritten request.  [b] is what [io.ReadAll(req.Body)]
    returned. *)
Definition frame (b : list byte) : option (list byte) :=
  let bb := repeat x00 (length b + 5) in
  match PutUint32 1 (uint32 (Z.of_nat (length b))) bb with
  | Some bb => Some (copy_at 5 b bb)
  | None => None
  end.

Definition outbound (req : Request) (contentType : string) (bb : list byte)
  : Request :=
  let h := Header_Set (req_Header req) "Content-Type"
             ("application/grpc+" +:+ TrimLeft contentType "application/") in
  let h := Header_Del h "Content-Length" in
  {| req_Method := req_Method req;
     req_Host := req_Host req;
     req_URL_Scheme := req_URL_Scheme req;
     req_URL_Host := req_URL_Host req;
     req_RequestURI := req_RequestURI req;
     req_RemoteAddr := req_RemoteAddr req;
     req_Header := h;
     req_ContentLength := Z.of_nat (length bb);
     req_Body := NewReader bb;
     req_Endpoint := req_Endpoint req |}.

(** The response direction: what the middleware makes of the reply of the
    next transport. *)
Definition inbound (contentType : string) (r : result Response)
  : M S (result Response) :=
  match r with
  | Err e => ret (Err e)
  | Ok resp =>
    match resp_Body resp with
    | None => panic                         (* resp.Body is nil *)
    | Some body =>
      match ReadAll body with
      | Err e => ret (Err e)
      | Ok data =>
        (* trailers are flattened into the headers *)
        let h := resp_Trailer resp ∪ resp_Header resp in
        let h := Header_Set h "Content-Type" contentType in
        let grpcStatus := Header_Get h "grpc-status" in
        if negb (String.eqb grpcStatus "0") then
          match ParseInt grpcStatus with
          | Err e => ret (Err e)
          | Ok code =>
            let message := Header_Get h "grpc-message" in
            let grpcDetails := Header_Get h "grpc-status-details-bin" in
            let marshalled :=
              if negb (String.eqb grpcDetails "") then
                match decodeBinHeader grpcDetails with
                | Err e => Err e
                | Ok details => status_json (int32 code) message (Some details)
                end
              else status_json (int32 code) message None in
            match marshalled with
            | Err e => ret (Err e)
            | Ok js => ret (Ok (newResponse 200 h js))
            end
          end
        else if length data <? 5 then panic   (* data[5:] out of range *)
        else
          ret (Ok {| resp_StatusCode := resp_StatusCode resp;
                     resp_Header := Header_Del h "Content-Length";
                     resp_Trailer := ∅;
                     resp_ContentLength := Z.of_nat (length data) - 5;
                     resp_Body := Some (NewReader (drop 5 data)) |})
      end
    end
  end.

(** [Middleware]: the transport it wraps around [next]. *)
Definition Middleware (next : RoundTripper S) : RoundTripper S :=
  fun req =>
    let contentType := Header_Get (req_Header req) "Content-Type" in
    let endpoint := req_Endpoint req in
    if negb (bool_decide (Config.ep_Protocol endpoint = Config.GRPC)) ||
       HasPrefix contentType "application/grpc"
    then next req
    else
      match ReadAll (req_Body req) with
      | Err e => ret (Err e)
      | Ok b =>
        match frame b with
        | None => panic
        | Some bb =>
          let* r := next (outbound req contentType bb) in
          inbound contentType r
        end
      end.

End Transcoder.

(** A JSON call to a gRPC endpoint, for the concrete checks below. *)
Definition grpc_endpoint : Config.Endpoint :=
  {| Config.ep_Path := "/helloworld.Greeter/SayHello";
     Config.ep_Method := "POST";
     Config.ep_Host := "";
     Config.ep_Protocol := Config.GRPC;
     Config.ep_Timeout := None;
     Config.ep_Retry := None;
     Config.ep_Backends := [];
     Config.ep_Middlewares := [];
     Config.ep_Metadata := ∅ |}.

Definition post (contentType : string) (body : list byte) : Request :=
  {| req_Method := "POST";
     req_Host := "gateway.local";
     req_URL_Scheme := "";
     req_URL_Host := "";
     req_RequestURI := "/helloworld.Greeter/SayHello";
     req_RemoteAddr := "192.0.2.7:50000";
     req_Header := {[ "Content-Type" := [contentType];
                      "Content-Length" := [pretty (length body)] ]};
     req_ContentLength := Z.of_nat (length body);
     req_Body := NewReader body;
     req_Endpoint := grpc_endpoint |}.

(** A next transport that only reports the request it was given. *)
Definition spy : RoundTripper (list Request) :=
  fun req seen => (Some (Err (New "no backend")), seen ++ [req]).

(** Stand-ins for the codecs; the request direction never calls them. *)
Definition demo_ParseInt (v : string) : result Z := Err (New "invalid syntax").
Definition demo_Decode (v : string) : result (list byte) := Ok [].
Definition demo_status_json (code : Z) (message : string)
    (details : option (list byte)) : result (list byte) := Ok [].

Definition demo_Middleware : RoundTripper (list Request) -> RoundTripper (list Request) :=
  Middleware demo_ParseInt demo_Decode demo_Decode demo_status_json.

End Transcoder.

(* ===================================================================== *)
(** ** selector nodes and middleware/request.go                           *)
(* ===================================================================== *)

Module Selector.
Import Go.

(** [selector.Node]: the interface of a backend instance, as far as the
    gateway calls it. *)
Class Node (N : Type) : Type := {
  Address : N -> string;
  Metadata : N -> gmap string string;
}.

(** [selector.DoneInfo] *)
Record DoneInfo : Type := {
  di_Err : option error;
  di_ReplyMD : option Header;
}.

(** A [selector.DoneFunc].  The selector hands out one callback per
    [Select]; it is identified by the number of that selection.  [None] is
    the empty function that [NewRequestOptions] installs. *)
Definition DoneFunc : Type := option nat.

End Selector.

Module Request.
Import Go Selector.

Section Request.
Context {N : Type} `{Node N}.

(** A [selector.NodeFilter] built by [NewRequestOptions] is a closure over
    the request options; the only field it reads is [o.Backends], passed
    here at each call. *)
Definition NodeFilter : Type := list string -> list N -> list N.

(** [RequestOptions]; the [Values] bag, which the core never reads, is
    left out. *)
Record RequestOptions : Type := {
  Endpoint : Config.Endpoint;
  Filters : list NodeFilter;
  Backends : list string;
  ro_Metadata : gmap string string;
  UpstreamStatusCode : list Z;
  UpstreamResponseTime : list Z;
  CurrentNode : option N;
  DoneFunc : Selector.DoneFunc;
  LastAttempt : bool;
}.

(** [for _, node := range nodes { if !selected[node.Address()] { newNodes =
    append(newNodes, node) } }] where [newNodes := nodes[:0]] shares the
    backing array [arr] of [nodes]: the loop reads [arr[i]] and appends by
    writing [arr[w]].  [k] counts the turns that are left. *)
Fixpoint range_nodes (selected : gset string) (k i w : nat) (arr : list N)
  : list N * nat :=
  match k with
  | O => (arr, w)
  | S k' =>
    match arr !! i with
    | Some node =>
      if bool_decide (Address node ∈ selected)
      then range_nodes selected k' (S i) w arr
      else range_nodes selected k' (S i) (S w) (<[w := node]> arr)
    | None => (arr, w)
    end
  end.

(** The retry filter of [NewRequestOptions]. *)
Definition retry_filter : NodeFilter :=
  fun Backends nodes =>
    if length Backends =? 0 then nodes
    else
      let selected : gset string :=
        fold_left (fun m b => {[ b ]} ∪ m) Backends ∅ in
      let '(arr, w) := range_nodes selected (length nodes) 0 0 nodes in
      (* [nodes] and [newNodes] are both views of [arr] *)
      if w =? 0 then take (length nodes) arr
      else take w arr.

Definition NewRequestOptions (c : Config.Endpoint) : RequestOptions :=
  {| Endpoint := c;
     Filters := [retry_filter];
     Backends := [];
     ro_Metadata := ∅;
     UpstreamStatusCode := [];
     UpstreamResponseTime := [];
     CurrentNode := None;
     DoneFunc := None;
     LastAttempt := false |}.

(** What the specification asks of the filter: the nodes whose address was
    not tried yet, in their order. *)
Definition untried (T : list string) (nodes : list N) : list N :=
  List.filter (fun n => negb (bool_decide (Address n ∈ T))) nodes.

End Request.

Arguments RequestOptions N : clear implicits.
Arguments NodeFilter N : clear implicits.

End Request.

(* ===================================================================== *)
(** ** client: targets, nodes, the node applier and the service watcher  *)
(* ===================================================================== *)

Module Client.
Import Go Selector.

(** [url.URL] as far as the client reads it; [Query] is [u.Query()]. *)
Record URL : Type := {
  Scheme : string;
  Host : string;
  Path : string;
  Query : gmap string (list string);
}.

(** [url.Values.Get] *)
Definition Values_Get (v : gmap string (list string)) (key : string) : string :=
  match v !! key with
  | Some (x :: _) => x
  | _ => EmptyString
  end.

(** [strconv.ParseBool] *)
Definition ParseBool (str : string) : result bool :=
  if bool_decide (str ∈ ["1"; "t"; "T"; "TRUE"; "true"; "True"]) then Ok true
  else if bool_decide (str ∈ ["0"; "f"; "F"; "FALSE"; "false"; "False"]) then Ok false
  else Err (New "invalid syntax").

(** [IsSecure] *)
Definition IsSecure (u : URL) : bool :=
  match ParseBool (Values_Get (Query u) "isSecure") with
  | Err _ => false
  | Ok ok => ok
  end.

(** [registry.ServiceInstance] *)
Record ServiceInstance : Type := {
  si_ID : string;
  si_Name : string;
  si_Version : string;
  si_Metadata : gmap string string;
  si_Endpoints : list string;
}.

(** [node], [NodeOptions], [WithTLS], [WithTLSConfigName] and [newNode] of
    the client package; their text is in the sources in
    [middleware/tracing/tracing.go], lines 405 to 519.  The HTTP clients
    are the shared ones of the package (lines 206 to 212): [plain_client]
    is [_globalClient], [h2c_client] is [_globalH2CClient],
    [https_default_client] is [_globalHTTPSClient], and
    [https_named_client name] is what [ctx.TLSClientStore.GetClient(name)]
    returns for a name that is not empty (lines 379 to 402). *)
Inductive HTTPClient : Type :=
| plain_client
| h2c_client
| https_default_client
| https_named_client (name : string).

Record node : Type := {
  address : string;
  name : string;
  weight : option Z;
  version : string;
  metadata : gmap string string;
  protocol : Config.Protocol;
  client : HTTPClient;
  tls : bool;
}.

#[global] Instance node_Node : Node node :=
  {| Address := address; Metadata := metadata |}.

Record NodeOptions : Type := {
  opt_TLS : bool;
  opt_TLSConfigName : string;
}.

Definition NewNodeOption : Type := NodeOptions -> NodeOptions.

(** [WithTLS] (line 416) *)
Definition WithTLS (in_ : bool) : NewNodeOption :=
  fun o => {| opt_TLS := in_; opt_TLSConfigName := opt_TLSConfigName o |}.

(** [WithTLSConfigName] (line 423) *)
Definition WithTLSConfigName (in_ : string) : NewNodeOption :=
  fun o => {| opt_TLS := opt_TLS o; opt_TLSConfigName := in_ |}.

(** [newNode] (lines 430 to 468) *)
Definition newNode (addr : string) (protocol : Config.Protocol)
    (weight : option Z) (md : gmap string string) (version name : string)
    (opts : list NewNodeOption) : node :=
  let opt := fold_left (fun o f => f o) opts
               {| opt_TLS := false; opt_TLSConfigName := "" |} in
  let base := if bool_decide (protocol = Config.GRPC)
              then h2c_client else plain_client in
  {| address := addr; name := name; weight := weight; version := version;
     metadata := md; protocol := protocol;
     client := if opt_TLS opt then
                 if String.eqb (opt_TLSConfigName opt) ""
                 then https_default_client
                 else https_named_client (opt_TLSConfigName opt)
               else base;
     tls := opt_TLS opt |}.

(** The selector behind an applier: the node set of the latest [Apply],
    and how many times [Apply] was called. *)
Record picker_state : Type := {
  applied : list node;
  apply_calls : nat;
}.

Definition picker_Apply (nodes : list node) (p : picker_state) : picker_state :=
  {| applied := nodes; apply_calls := S (apply_calls p) |}.

(** [nodeApplier] *)
Record nodeApplier : Type := {
  canceled : bool;
  endpoint : Config.Endpoint;
  picker : picker_state;
}.

Section Discovery.

(** [url.Parse] and [strconv.ParseInt(w, 10, 64)] of the Go library. *)
Variable url_Parse : string -> result URL.
Variable ParseInt : string -> Z * option error.

(** [parseEndpoint] *)
Fixpoint parseEndpoint (endpoints : list string) (scheme : string)
    (isSecure : bool) : result string :=
  match endpoints with
  | [] => Ok EmptyString
  | e :: rest =>
    match url_Parse e with
    | Err err => Err err
    | Ok u =>
      if String.eqb (Scheme u) scheme && Bool.eqb (IsSecure u) isSecure
      then Ok (Host u)
      else parseEndpoint rest scheme isSecure
    end
  end.

(** Every endpoint of the instance that parses and has the wanted scheme
    carries [isSecure=true]. *)
Definition secure_only (scheme : string) (ser : ServiceInstance) : bool :=
  forallb (fun e => match url_Parse e with
                    | Ok u => if String.eqb (Scheme u) scheme then IsSecure u else true
                    | Err _ => true
                    end) (si_Endpoints ser).

(** The scheme that [Callback] looks for. *)
Definition wanted_scheme (na : nodeApplier) : string :=
  ToLower (Config.Protocol_String (Config.ep_Protocol (endpoint na))).

Definition _defaultWeight : Z := 10.

(** [nodeWeight] *)
Definition nodeWeight (n : ServiceInstance) : option Z :=
  match si_Metadata n !! "weight" with
  | Some w =>
    let val := (ParseInt w).1 in
    if (val <=? 0)%Z then Some _defaultWeight else Some val
  | None => Some _defaultWeight
  end.

(** One turn of the loop of [Callback]: the node for one instance, or
    nothing when the instance is skipped. *)
Definition instance_node (na : nodeApplier) (scheme : string)
    (ser : ServiceInstance) : option node :=
  match parseEndpoint (si_Endpoints ser) scheme false with
  | Err _ => None
  | Ok addr =>
    if String.eqb addr "" then None
    else Some (newNode addr (Config.ep_Protocol (endpoint na)) (nodeWeight ser)
                 (si_Metadata ser) (si_Version ser) (si_Name ser)
                 [WithTLS false])
  end.

Fixpoint build_nodes (na : nodeApplier) (scheme : string)
    (services : list ServiceInstance) (nodes : list node) : list node :=
  match services with
  | [] => nodes
  | ser :: rest =>
    match instance_node na scheme ser with
    | None => build_nodes na scheme rest nodes
    | Some n => build_nodes na scheme rest (nodes ++ [n])
    end
  end.

(** [nodeApplier.Callback] *)
Definition Callback (na : nodeApplier) (services : list ServiceInstance)
  : option error * nodeApplier :=
  if canceled na then (Some ErrCancelWatch, na)
  else if length services =? 0 then (None, na)
  else
    let scheme := wanted_scheme na in
    let nodes := build_nodes na scheme services [] in
    (None, {| canceled := canceled na; endpoint := endpoint na;
              picker := picker_Apply nodes (picker na) |}).

(** [nodeApplier.Cancel] and [nodeApplier.Canceled] *)
Definition Cancel (na : nodeApplier) : nodeApplier :=
  {| canceled := true; endpoint := endpoint na; picker := picker na |}.

Definition Canceled (na : nodeApplier) : bool := canceled na.

(** [watcherStatus] and [serviceWatcher]: the cached instances per
    endpoint key and the subscribers per endpoint key and id.  A subscriber
    is kept as a copy of its applier for each subscription; the appliers
    as the pointers they are in Go, shared between subscriptions, are in
    [Watcher] below. *)
Record watcherStatus : Type := {
  selectedInstances : list ServiceInstance;
}.

Record serviceWatcher : Type := {
  ws_watcherStatus : gmap string watcherStatus;
  appliers : gmap string (gmap string nodeApplier);
}.

(** [setSelectedCache]; the status of the endpoint exists whenever the
    update loop runs. *)
Definition setSelectedCache (ep : string) (instances : list ServiceInstance)
    (s : serviceWatcher) : serviceWatcher :=
  {| ws_watcherStatus :=
       alter (fun _ => {| selectedInstances := instances |}) ep (ws_watcherStatus s);
     appliers := appliers s |}.

(** [doCallback]: every subscriber of the endpoint gets the list. *)
Definition doCallback (ep : string) (services : list ServiceInstance)
    (s : serviceWatcher) : serviceWatcher :=
  {| ws_watcherStatus := ws_watcherStatus s;
     appliers :=
       alter (fmap (fun na => (Callback na services).2)) ep (appliers s) |}.

(** What the update loop does after one turn. *)
Inductive loop_next : Type :=
| loop_return           (* the watch was cancelled *)
| loop_sleep_continue   (* error: retry after one second *)
| loop_continue.

(** One turn of the update loop started by [Add]; [next] is what
    [watcher.Next()] returned. *)
Definition watch_turn (ep : string) (next : result (list ServiceInstance))
    (s : serviceWatcher) : serviceWatcher * loop_next :=
  match next with
  | Err err =>
    if errors_Is err Go.Canceled then (s, loop_return)
    else (s, loop_sleep_continue)
  | Ok services =>
    if length services =? 0 then (s, loop_continue)
    else (doCallback ep services (setSelectedCache ep services s), loop_continue)
  end.

End Discovery.

(** A toy URL reader for the concrete checks: [scheme://host] with an
    optional [?isSecure=true]. *)
Definition demo_Parse (e : string) : result URL :=
  if String.eqb e "grpc://10.0.0.1:9000?isSecure=true" then
    Ok {| Scheme := "grpc"; Host := "10.0.0.1:9000"; Path := "";
          Query := {[ "isSecure" := ["true"] ]} |}
  else if String.eqb e "grpc://10.0.0.2:9000" then
    Ok {| Scheme := "grpc"; Host := "10.0.0.2:9000"; Path := ""; Query := ∅ |}
  else if String.eqb e "http://10.0.0.1:8000" then
    Ok {| Scheme := "http"; Host := "10.0.0.1:8000"; Path := ""; Query := ∅ |}
  else Err (New "parse error").

Definition demo_weight (w : string) : Z * option error :=
  if String.eqb w "20" then (20%Z, None) else (0%Z, Some (New "invalid syntax")).

Definition secure_instance : ServiceInstance :=
  {| si_ID := "a"; si_Name := "svc"; si_Version := "v1"; si_Metadata := ∅;
     si_Endpoints := ["http://10.0.0.1:8000"; "grpc://10.0.0.1:9000?isSecure=true"] |}.

Definition plain_instance : ServiceInstance :=
  {| si_ID := "b"; si_Name := "svc"; si_Version := "v1";
     si_Metadata := {[ "weight" := "20" ]};
     si_Endpoints := ["grpc://10.0.0.2:9000"] |}.

Definition demo_applier : nodeApplier :=
  {| canceled := false; endpoint := Transcoder.grpc_endpoint;
     picker := {| applied := []; apply_calls := 0 |} |}.

End Client.

(* ===================================================================== *)
(** ** proxy: telemetry, error writer, client round trip, the handler    *)
(* ===================================================================== *)

Module Proxy.
Import Go Http Selector Request.

(** The retry counters of an endpoint: the [requests_retry_state] metric
    by its [success] label, and the marks fed to the SRE breaker. *)
Record Telemetry : Type := {
  retry_success : nat;
  retry_failed : nat;
  breaker_success : nat;
  breaker_failed : nat;
}.

(** [retryStateIncr] *)
Definition retryStateIncr (success : bool) (t : Telemetry) : Telemetry :=
  if success then
    {| retry_success := S (retry_success t); retry_failed := retry_failed t;
       breaker_success := breaker_success t; breaker_failed := breaker_failed t |}
  else
    {| retry_success := retry_success t; retry_failed := S (retry_failed t);
       breaker_success := breaker_success t; breaker_failed := breaker_failed t |}.

(** [retryBreaker.MarkSuccess()] and [retryBreaker.MarkFailed()] *)
Definition MarkSuccess (t : Telemetry) : Telemetry :=
  {| retry_success := retry_success t; retry_failed := retry_failed t;
     breaker_success := S (breaker_success t); breaker_failed := breaker_failed t |}.

Definition MarkFailed (t : Telemetry) : Telemetry :=
  {| retry_success := retry_success t; retry_failed := retry_failed t;
     breaker_success := breaker_success t; breaker_failed := S (breaker_failed t) |}.

(** [splitRetryMetricsHandler]: the two closures it returns. *)
Definition markSuccessStat (i : Z) (t : Telemetry) : Telemetry :=
  if (i <=? 0)%Z then t else retryStateIncr true t.

Definition markFailedStat (i : Z) (err : error) (t : Telemetry) : Telemetry :=
  if (i <=? 0)%Z then t
  else if errors_Is err Canceled then t
  else retryStateIncr false t.

(** [markSuccess] and [markFailed] of [buildEndpoint]. *)
Definition markSuccess (i : Z) (t : Telemetry) : Telemetry :=
  let t := markSuccessStat i t in
  if (0 <? i)%Z then MarkSuccess t else t.

Definition markFailed (i : Z) (err : error) (t : Telemetry) : Telemetry :=
  let t := markFailedStat i err t in
  if (0 <? i)%Z then MarkFailed t else t.

(** [http.ResponseWriter] *)
Record ResponseWriter : Type := {
  w_Header : Header;
  w_Status : option Z;
  w_Body : list byte;
}.

(** [w.WriteHeader(code)] of net/http (Go 1.19 and later): a call after
    the status was written is ignored; a code outside 100..999 panics
    ([checkWriteHeaderCode]), which is [None] here; an informational code
    (1xx other than 101) goes out as an interim response, which is not kept
    here, and leaves the status unwritten. *)
Definition WriteHeader (code : Z) (w : ResponseWriter) : option ResponseWriter :=
  match w_Status w with
  | Some _ => Some w                  (* superfluous call: ignored *)
  | None =>
    if (code <? 100)%Z || (999 <? code)%Z then None
    else if (code <=? 199)%Z && negb (code =? 101)%Z then Some w
    else Some {| w_Header := w_Header w; w_Status := Some code;
                 w_Body := w_Body w |}
  end.

Definition SetHeader (key value : string) (w : ResponseWriter) : ResponseWriter :=
  {| w_Header := Header_Set (w_Header w) key value;
     w_Status := w_Status w; w_Body := w_Body w |}.

(** [w.Write]: the first write sends status 200 if none was written. *)
Definition Write (data : list byte) (w : ResponseWriter) : ResponseWriter :=
  {| w_Header := w_Header w;
     w_Status := Some (default 200%Z (w_Status w));
     w_Body := w_Body w ++ data |}.

(** The store a request runs in: its options, what it has done so far, and
    the environment (the node set of the selector and the answers that the
    balancer and the backends are going to give). *)
Record World : Type := {
  reqOpts : RequestOptions Client.node;
  telemetry : Telemetry;
  done_calls : list (nat * DoneInfo);
  select_log : list Client.node;
  writer : ResponseWriter;
  code_total : list Z;
  tx_bytes : Z;
  rx_bytes : Z;
  sel_nodes : list Client.node;
  balancer : list nat;
  backend : list (result Response);
}.

Definition on_reqOpts (f : RequestOptions Client.node -> RequestOptions Client.node)
    (w : World) : World :=
  {| reqOpts := f (reqOpts w); telemetry := telemetry w;
     done_calls := done_calls w; select_log := select_log w;
     writer := writer w; code_total := code_total w;
     tx_bytes := tx_bytes w; rx_bytes := rx_bytes w;
     sel_nodes := sel_nodes w; balancer := balancer w; backend := backend w |}.

Definition on_telemetry (f : Telemetry -> Telemetry) (w : World) : World :=
  {| reqOpts := reqOpts w; telemetry := f (telemetry w);
     done_calls := done_calls w; select_log := select_log w;
     writer := writer w; code_total := code_total w;
     tx_bytes := tx_bytes w; rx_bytes := rx_bytes w;
     sel_nodes := sel_nodes w; balancer := balancer w; backend := backend w |}.

Definition on_writer (f : ResponseWriter -> ResponseWriter) (w : World) : World :=
  {| reqOpts := reqOpts w; telemetry := telemetry w;
     done_calls := done_calls w; select_log := select_log w;
     writer := f (writer w); code_total := code_total w;
     tx_bytes := tx_bytes w; rx_bytes := rx_bytes w;
     sel_nodes := sel_nodes w; balancer := balancer w; backend := backend w |}.

(** A call of [w.WriteHeader] in a request. *)
Definition write_header (code : Z) : M World unit :=
  fun w =>
    match WriteHeader code (writer w) with
    | Some rw => (Some tt, on_writer (fun _ => rw) w)
    | None => (None, w)
    end.

Definition log_done (id : nat) (info : DoneInfo) (w : World) : World :=
  {| reqOpts := reqOpts w; telemetry := telemetry w;
     done_calls := done_calls w ++ [(id, info)]; select_log := select_log w;
     writer := writer w; code_total := code_total w;
     tx_bytes := tx_bytes w; rx_bytes := rx_bytes w;
     sel_nodes := sel_nodes w; balancer := balancer w; backend := backend w |}.

Definition log_select (n : Client.node) (w : World) : World :=
  {| reqOpts := reqOpts w; telemetry := telemetry w;
     done_calls := done_calls w; select_log := select_log w ++ [n];
     writer := writer w; code_total := code_total w;
     tx_bytes := tx_bytes w; rx_bytes := rx_bytes w;
     sel_nodes := sel_nodes w; balancer := tl (balancer w); backend := backend w |}.

Definition pop_backend (w : World) : World :=
  {| reqOpts := reqOpts w; telemetry := telemetry w;
     done_calls := done_calls w; select_log := select_log w;
     writer := writer w; code_total := code_total w;
     tx_bytes := tx_bytes w; rx_bytes := rx_bytes w;
     sel_nodes := sel_nodes w; balancer := balancer w; backend := tl (backend w) |}.

(** [requestsTotalIncr], [sentBytesAdd], [receivedBytesAdd] *)
Definition requestsTotalIncr (statusCode : Z) (w : World) : World :=
  {| reqOpts := reqOpts w; telemetry := telemetry w;
     done_calls := done_calls w; select_log := select_log w;
     writer := writer w; code_total := code_total w ++ [statusCode];
     tx_bytes := tx_bytes w; rx_bytes := rx_bytes w;
     sel_nodes := sel_nodes w; balancer := balancer w; backend := backend w |}.

Definition sentBytesAdd (sent : Z) (w : World) : World :=
  {| reqOpts := reqOpts w; telemetry := telemetry w;
     done_calls := done_calls w; select_log := select_log w;
     writer := writer w; code_total := code_total w;
     tx_bytes := (tx_bytes w + sent)%Z; rx_bytes := rx_bytes w;
     sel_nodes := sel_nodes w; balancer := balancer w; backend := backend w |}.

Definition receivedBytesAdd (received : Z) (w : World) : World :=
  {| reqOpts := reqOpts w; telemetry := telemetry w;
     done_calls := done_calls w; select_log := select_log w;
     writer := writer w; code_total := code_total w;
     tx_bytes := tx_bytes w; rx_bytes := (rx_bytes w + received)%Z;
     sel_nodes := sel_nodes w; balancer := balancer w; backend := backend w |}.

(** Updates of single fields of the request options. *)
Definition with_selected (n : Client.node) (o : RequestOptions Client.node)
  : RequestOptions Client.node :=
  {| Endpoint := Endpoint o; Filters := Filters o;
     Backends := Backends o ++ [Address n];
     ro_Metadata := ro_Metadata o;
     UpstreamStatusCode := UpstreamStatusCode o;
     UpstreamResponseTime := UpstreamResponseTime o;
     CurrentNode := Some n; DoneFunc := DoneFunc o;
     LastAttempt := LastAttempt o |}.

(** The upstream time and status code of an attempt, and the done
    callback to keep.  The clock is not part of the store: the time that
    [RoundTrip] records is passed as [0]. *)
Definition with_upstream (time : Z) (code : Z) (done : Selector.DoneFunc)
    (o : RequestOptions Client.node) : RequestOptions Client.node :=
  {| Endpoint := Endpoint o; Filters := Filters o; Backends := Backends o;
     ro_Metadata := ro_Metadata o;
     UpstreamStatusCode := UpstreamStatusCode o ++ [code];
     UpstreamResponseTime := UpstreamResponseTime o ++ [time];
     CurrentNode := CurrentNode o; DoneFunc := done;
     LastAttempt := LastAttempt o |}.

Definition with_LastAttempt (o : RequestOptions Client.node)
  : RequestOptions Client.node :=
  {| Endpoint := Endpoint o; Filters := Filters o; Backends := Backends o;
     ro_Metadata := ro_Metadata o;
     UpstreamStatusCode := UpstreamStatusCode o;
     UpstreamResponseTime := UpstreamResponseTime o;
     CurrentNode := CurrentNode o; DoneFunc := DoneFunc o;
     LastAttempt := true |}.

(** Calling a done callback: the selector's callback of selection [id]
    records the call; the empty function does nothing. *)
Definition call_done (f : Selector.DoneFunc) (info : DoneInfo) : M World unit :=
  match f with
  | Some id => modify (log_done id info)
  | None => ret tt
  end.

(** [selector.Select(ctx, WithNodeFilter(filter...))] of the kratos
    selector: the filters are applied to the node set in turn, the
    balancer picks among what is left, and the callback that comes with
    the pick is the one of this selection. *)
Definition Select : M World (result (Client.node * Selector.DoneFunc)) :=
  fun w =>
    let o := reqOpts w in
    let candidates := fold_left (fun ns f => f (Backends o) ns) (Filters o) (sel_nodes w) in
    match candidates !! (hd 0 (balancer w) mod length candidates) with
    | Some n => (Some (Ok (n, Some (length (select_log w)))), log_select n w)
    | None => (Some (Err (New "no_available_node")), w)
    end.

(** [backendNode.client.Do(req)] *)
Definition Do (req : Request) : M World (result Response) :=
  fun w =>
    match backend w with
    | r :: _ => (Some r, pop_backend w)
    | [] => (Some (Err (New "connection refused")), w)
    end.

(** [client.RoundTrip] (client/client.go) *)
Definition RoundTrip : RoundTripper World :=
  fun req =>
    let* sel := Select in
    match sel with
    | Err err => ret (Err err)
    | Ok (n, done) =>
      let* _ := modify (on_reqOpts (with_selected n)) in
      let addr := Address n in
      let host := if Client.tls n then addr else req_Host req in
      let nodeHost := default EmptyString (Metadata n !! "host") in
      let host := if negb (String.eqb nodeHost "") then nodeHost else host in
      let req :=
        {| req_Method := req_Method req;
           req_Host := host;
           req_URL_Scheme := if Client.tls n then "https" else "http";
           req_URL_Host := addr;
           req_RequestURI := "";
           req_RemoteAddr := req_RemoteAddr req;
           req_Header := req_Header req;
           req_ContentLength := req_ContentLength req;
           req_Body := req_Body req;
           req_Endpoint := req_Endpoint req |} in
      let* r := Do req in
      match r with
      | Err err =>
        let* o := get in
        let* _ := call_done done {| di_Err := Some err; di_ReplyMD := None |} in
        let* _ := modify (on_reqOpts (with_upstream 0 0 (DoneFunc (reqOpts o)))) in
        ret (Err err)
      | Ok resp =>
        let* _ := modify (on_reqOpts (with_upstream 0 (resp_StatusCode resp) done)) in
        ret (Ok resp)
      end
    end.

Section Handler.

(** From outside the sources: the kratos status table [status.ToGRPCCode],
    [net.SplitHostPort], and the retry conditions of [proxy/condition]. *)
Variable ToGRPCCode : Z -> Z.
Variable SplitHostPort : string -> result (string * string).
Context {Condition : Type}.
Variable ParseConditon : list string -> result (list Condition).
Variable JudgeConditons : list Condition -> Response -> bool -> bool.

(** [strings.Join(prior, ", ")] *)
Fixpoint Join (elems : list string) (sep : string) : string :=
  match elems with
  | [] => EmptyString
  | [x] => x
  | x :: rest => x +:+ sep +:+ Join rest sep
  end.

(** [setXFFHeader] *)
Definition setXFFHeader (req : Request) : Request :=
  match SplitHostPort (req_RemoteAddr req) with
  | Err _ => req
  | Ok (clientIP, _) =>
    let prior := req_Header req !! "X-Forwarded-For" in
    let omit := bool_decide (prior = Some []) in
    let clientIP :=
      match prior with
      | Some (x :: rest) => Join (x :: rest) ", " +:+ ", " +:+ clientIP
      | _ => clientIP
      end in
    if negb omit then
      {| req_Method := req_Method req; req_Host := req_Host req;
         req_URL_Scheme := req_URL_Scheme req; req_URL_Host := req_URL_Host req;
         req_RequestURI := req_RequestURI req;
         req_RemoteAddr := req_RemoteAddr req;
         req_Header := Header_Set (req_Header req) "X-Forwarded-For" clientIP;
         req_ContentLength := req_ContentLength req;
         req_Body := req_Body req; req_Endpoint := req_Endpoint req |}
    else req
  end.

(** The status that [writeError] picks for an error. *)
Definition error_status (err : error) : Z :=
  if errors_Is err Canceled || String.eqb (Error err) "client disconnected"
  then 499
  else if errors_Is err DeadlineExceeded then 504
  else 502.

(** [writeError]; [protocol] is [labels.Protocol()]. *)
Definition writeError (protocol : string) (err : error) : M World unit :=
  let statusCode := error_status err in
  let* _ := modify (requestsTotalIncr statusCode) in
  if String.eqb protocol (Config.Protocol_String Config.GRPC) then
    let code := pretty (ToGRPCCode statusCode) in
    let* _ := modify (on_writer (SetHeader "Content-Type" "application/grpc")) in
    let* _ := modify (on_writer (SetHeader "Grpc-Status" code)) in
    let* _ := modify (on_writer (SetHeader "Grpc-Message" (Error err))) in
    write_header 200
  else
    write_header statusCode.

(** [retryStrategy] and the functions that compute it (retry.go). *)
Record retryStrategy : Type := {
  attempts : Z;
  timeout : Z;
  perTryTimeout : Z;
  conditions : list Condition;
}.

Definition second : Z := 1000000000.

Definition calcTimeout (e : Config.Endpoint) : Z :=
  let timeout := default 0%Z (Config.ep_Timeout e) in
  if (timeout <=? 0)%Z then second else timeout.

Definition calcAttempts (e : Config.Endpoint) : Z :=
  match Config.ep_Retry e with
  | None => 1
  | Some r => if (Config.Attempts r =? 0)%Z then 1 else Config.Attempts r
  end.

Definition calcPerTryTimeout (e : Config.Endpoint) : Z :=
  let perTryTimeout :=
    match Config.ep_Retry e with
    | Some {| Config.PerTryTimeout := Some d |} => d
    | _ => default 0%Z (Config.ep_Timeout e)
    end in
  if (perTryTimeout <=? 0)%Z then second else perTryTimeout.

Definition parseRetryConditon (e : Config.Endpoint) : result (list Condition) :=
  match Config.ep_Retry e with
  | None => Ok []
  | Some r => ParseConditon (Config.Conditions r)
  end.

Definition prepareRetryStrategy (e : Config.Endpoint) : result retryStrategy :=
  match parseRetryConditon e with
  | Err err => Err err
  | Ok conditions =>
    Ok {| attempts := calcAttempts e; timeout := calcTimeout e;
          perTryTimeout := calcPerTryTimeout e; conditions := conditions |}
  end.

Definition judgeRetryRequired (conditions : list Condition) (resp : Response) : bool :=
  JudgeConditons conditions resp false.

(** [getReplyMD] *)
Definition getReplyMD (ep : Config.Endpoint) (resp : Response) : Header :=
  if bool_decide (Config.ep_Protocol ep = Config.GRPC)
  then resp_Trailer resp else resp_Header resp.

(** What the surroundings answer during one request: the retry feature
    flag, [retryBreaker.Allow()] before attempt [i], [ctx.Err()] of the
    request context at attempt [i], and how the connection to the client
    fares while the body is copied: [Some (n, err)] when it takes [n] bytes
    and [w.Write] then fails with [err], [None] when it takes them all. *)
Record Env : Type := {
  retry_enabled : bool;
  breaker_Allow : Z -> option error;
  ctx_Err : Z -> option error;
  client_takes : option (nat * error);
}.

(** The attempt loop of the handler.  [k] turns are left, [i] is the loop
    index, [resp] and [err] are the variables of the same name. *)
Fixpoint attempt_loop (env : Env) (strategy : retryStrategy)
    (tripper : RoundTripper World) (req : Request) (body : list byte)
    (k : nat) (i : Z) (resp : option Response) (err : option error)
  : M World (option Response * option error) :=
  match k with
  | O => ret (resp, err)
  | S k' =>
    if (0 <? i)%Z && negb (retry_enabled env) then ret (resp, err)
    else
      match (if (0 <? i)%Z then breaker_Allow env i else None) with
      | Some berr =>
        let* _ := modify (on_telemetry (markFailed i berr)) in
        ret (resp, err)
      | None =>
        let* _ := (if (attempts strategy <=? i + 1)%Z
                   then modify (on_reqOpts with_LastAttempt) else ret tt) in
        match ctx_Err env i with
        | Some cerr =>
          let* _ := modify (on_telemetry (markFailed i cerr)) in
          ret (resp, Some cerr)
        | None =>
          let req :=
            {| req_Method := req_Method req; req_Host := req_Host req;
               req_URL_Scheme := req_URL_Scheme req;
               req_URL_Host := req_URL_Host req;
               req_RequestURI := req_RequestURI req;
               req_RemoteAddr := req_RemoteAddr req;
               req_Header := req_Header req;
               req_ContentLength := req_ContentLength req;
               req_Body := NewReader body;
               req_Endpoint := req_Endpoint req |} in
          let* r := tripper req in
          match r with
          | Err terr =>
            let* _ := modify (on_telemetry (markFailed i terr)) in
            attempt_loop env strategy tripper req body k' (i + 1) None (Some terr)
          | Ok resp =>
            if negb (judgeRetryRequired (conditions strategy) resp) then
              let* _ := modify (on_reqOpts with_LastAttempt) in
              let* _ := modify (on_telemetry (markSuccess i)) in
              ret (Some resp, None)
            else
              let* _ := modify (on_telemetry (markFailed i (New "assertion failed"))) in
              attempt_loop env strategy tripper req body k' (i + 1) (Some resp) None
          end
        end
      end
  end.

(** [http.TrailerPrefix] *)
Definition TrailerPrefix : string := "Trailer:".

(** [io.Copy(w, resp.Body)]: what was written, and the error.  The body
    gives its data and then its error, if it has one; the copy ends at the
    first error, of the write or of the read. *)
Definition Copy (takes : option (nat * error)) (body : ReadCloser)
  : list byte * option error :=
  match takes with
  | Some (n, werr) =>
    if n <? length (body_data body)
    then (take n (body_data body), Some werr)
    else (body_data body, body_err body)
  | None => (body_data body, body_err body)
  end.

(** [doCopyBody]; [w.Write] is called with what was read, and not at all
    when nothing was. *)
Definition doCopyBody (env : Env) (e : Config.Endpoint) (resp : Response)
  : M World bool :=
  match resp_Body resp with
  | None => ret true
  | Some body =>
    let '(written, err) := Copy (client_takes env) body in
    let* _ := modify (on_writer (match written with
                                 | [] => fun rw => rw
                                 | _ => Write written
                                 end)) in
    let sent := Z.of_nat (length written) in
    let* w := get in
    match err with
    | Some err =>
      let* _ := call_done (DoneFunc (reqOpts w)) {| di_Err := Some err; di_ReplyMD := None |} in
      let* _ := modify (sentBytesAdd sent) in
      ret false
    | None =>
      let* _ := modify (sentBytesAdd sent) in
      let* _ := call_done (DoneFunc (reqOpts w))
                  {| di_Err := None; di_ReplyMD := Some (getReplyMD e resp) |} in
      let* _ := modify (on_writer (fun rw =>
                  {| w_Header := map_fold (fun k v h => <[TrailerPrefix +:+ k := v]> h)
                                   (w_Header rw) (resp_Trailer resp);
                     w_Status := w_Status rw; w_Body := w_Body rw |})) in
      ret true
    end
  end.

(** The handler that [buildEndpoint] returns for endpoint [e].  The
    duration histogram and the timeout contexts live on the clock; what
    the contexts answer is in [env]. *)
Definition handler (e : Config.Endpoint) (strategy : retryStrategy)
    (tripper : RoundTripper World) (env : Env) (req : Request) : M World unit :=
  let protocol := Config.Protocol_String (Config.ep_Protocol e) in
  let req := setXFFHeader req in
  let* _ := modify (on_reqOpts (fun _ => NewRequestOptions e)) in
  match ReadAll (req_Body req) with
  | Err err => writeError protocol err
  | Ok body =>
    let* _ := modify (receivedBytesAdd (Z.of_nat (length body))) in
    let* out := attempt_loop env strategy tripper req body
                  (Z.to_nat (attempts strategy)) 0 None None in
    match out with
    | (_, Some err) => writeError protocol err
    | (None, None) => panic             (* resp is nil *)
    | (Some resp, None) =>
      let* _ := modify (on_writer (fun rw =>
                  {| w_Header := resp_Header resp ∪ w_Header rw;
                     w_Status := w_Status rw; w_Body := w_Body rw |})) in
      let* _ := write_header (resp_StatusCode resp) in
      let* _ := doCopyBody env e resp in
      modify (requestsTotalIncr (resp_StatusCode resp))
    end
  end.

(** *** Building endpoints and the hot reload *)

(** The transport of an endpoint: the client, wrapped by the middlewares
    that were created for it (outermost first). *)
Inductive Tripper : Type :=
| ClientTripper (client : nat)
| Wrapped (m : Config.Middleware) (next : Tripper).

(** The closure that [buildEndpoint] returns, by what it captured. *)
Record EndpointHandler : Type := {
  eh_endpoint : Config.Endpoint;
  eh_tripper : Tripper;
  eh_strategy : retryStrategy;
}.

Inductive Handler : Type :=
| MetricsHandler                       (* ProtectedHandler(promhttp.Handler()) *)
| EndpointH (h : EndpointHandler).

(** A gorilla route as [muxRouter.Handle] configures it: its handler and
    its matchers. *)
Record Matchers : Type := {
  rt_host : string;
  rt_path : string;
  rt_prefix : bool;
  rt_methods : list string;
}.

Record Route : Type := {
  rt_handler : Handler;
  rt_matchers : Matchers;
}.

(** [muxRouter]: its routes and [allCloser]; a closer is the client of an
    endpoint, named by its number. *)
Record muxRouter : Type := {
  routes : list Route;
  allCloser : list nat;
}.

(** [route.GetError()] of gorilla/mux: the error, if any, of building the
    host and path matchers. *)
Variable route_error : Matchers -> option error.

(** [mux.NewRouter] *)
Definition NewRouter : muxRouter :=
  {| routes := [ {| rt_handler := MetricsHandler;
                    rt_matchers := {| rt_host := ""; rt_path := "/metrics";
                                      rt_prefix := false; rt_methods := [] |} |} ];
     allCloser := [] |}.

(** The matchers that [Handle] sets on a route. *)
Definition matchers_of (pattern method host : string) : Matchers :=
  {| rt_host := host;
     rt_path := if HasSuffix pattern "*" then TrimRight pattern "*" else pattern;
     rt_prefix := HasSuffix pattern "*";
     rt_methods := if negb (String.eqb method "") && negb (String.eqb method "*")
                   then [method; "OPTIONS"] else [] |}.

(** [muxRouter.Handle] *)
Definition Handle (pattern method host : string) (h : Handler) (closer : nat)
    (r : muxRouter) : option error * muxRouter :=
  let next := {| rt_handler := h; rt_matchers := matchers_of pattern method host |} in
  let r' := {| routes := routes r ++ [next]; allCloser := allCloser r |} in
  match route_error (rt_matchers next) with
  | Some err => (Some err, r')
  | None => (None, {| routes := routes r'; allCloser := allCloser r ++ [closer] |})
  end.

(** What a configuration update does to the outside: the clients it
    created, the [Close] calls it made, and the routers it handed to a
    [SyncClose] task. *)
Record BuildWorld : Type := {
  created : list nat;
  closed : list nat;
  closing : list muxRouter;
}.

(** The factories the proxy is constructed with: [None] is success. *)
Variable clientFactory : Config.Endpoint -> option error.
Variable middlewareFactory : Config.Middleware -> option error.

Definition new_client : M BuildWorld nat :=
  fun w => (Some (length (created w)),
            {| created := created w ++ [length (created w)];
               closed := closed w; closing := closing w |}).

(** [client.Close()] *)
Definition Close (closer : nat) : M BuildWorld unit :=
  modify (fun w => {| created := created w; closed := closed w ++ [closer];
                      closing := closing w |}).

(** [closeOnError] *)
Definition closeOnError (closer : nat) (err : option error) : M BuildWorld unit :=
  match err with
  | None => ret tt
  | Some _ => Close closer
  end.

(** [buildMiddleware]: the loop runs from the last middleware to the
    first; [ms] is given in that order. *)
Fixpoint buildMiddleware_from_last (ms : list Config.Middleware) (next : Tripper)
  : result Tripper :=
  match ms with
  | [] => Ok next
  | m :: rest =>
    match middlewareFactory m with
    | Some err =>
      if errors_Is err ErrNotFound then buildMiddleware_from_last rest next
      else Err err
    | None => buildMiddleware_from_last rest (Wrapped m next)
    end
  end.

Definition buildMiddleware (ms : list Config.Middleware) (next : Tripper)
  : result Tripper :=
  buildMiddleware_from_last (rev ms) next.

(** [buildEndpoint] *)
Definition buildEndpoint (e : Config.Endpoint) (ms : list Config.Middleware)
  : M BuildWorld (result (EndpointHandler * nat)) :=
  match clientFactory e with
  | Some err => ret (Err err)
  | None =>
    let* client := new_client in
    let built :=
      match buildMiddleware (Config.ep_Middlewares e) (ClientTripper client) with
      | Err err => Err err
      | Ok tripper =>
        match buildMiddleware ms tripper with
        | Err err => Err err
        | Ok tripper =>
          match prepareRetryStrategy e with
          | Err err => Err err
          | Ok strategy =>
            Ok ({| eh_endpoint := e; eh_tripper := tripper;
                   eh_strategy := strategy |}, client)
          end
        end
      end in
    (* defer closeOnError(closer, &retError) *)
    let* _ := closeOnError client (match built with Err err => Some err | Ok _ => None end) in
    ret built
  end.

(** The proxy: the cell that holds the router in use. *)
Record Proxy : Type := {
  router : muxRouter;
}.

(** The loop of [Update] over the endpoints; [defers] are the closers of
    the deferred [closeOnError] calls, the latest first. *)
Fixpoint update_loop (eps : list Config.Endpoint) (ms : list Config.Middleware)
    (r : muxRouter) (defers : list nat)
  : M BuildWorld (option error * muxRouter * list nat) :=
  match eps with
  | [] => ret (None, r, defers)
  | e :: rest =>
    let* b := buildEndpoint e ms in
    match b with
    | Err err => ret (Some err, r, defers)
    | Ok (h, closer) =>
      let defers := closer :: defers in
      match Handle (Config.ep_Path e) (Config.ep_Method e) (Config.ep_Host e)
              (EndpointH h) closer r with
      | (Some err, r') => ret (Some err, r', defers)
      | (None, r') => update_loop rest ms r' defers
      end
    end
  end.

Fixpoint run_defers (defers : list nat) (retError : option error)
  : M BuildWorld unit :=
  match defers with
  | [] => ret tt
  | closer :: rest =>
    let* _ := closeOnError closer retError in
    run_defers rest retError
  end.

(** [tryCloseRouter]: starts the task that will [SyncClose] the router. *)
Definition tryCloseRouter (old : muxRouter) : M BuildWorld unit :=
  modify (fun w => {| created := created w; closed := closed w;
                      closing := closing w ++ [old] |}).

(** [Proxy.Update] *)
Definition Update (p : Proxy) (c : Config.Gateway)
  : M BuildWorld (option error * Proxy) :=
  let* out := update_loop (Config.gw_Endpoints c) (Config.gw_Middlewares c)
                NewRouter [] in
  match out with
  | (Some err, _, defers) =>
    let* _ := run_defers defers (Some err) in
    ret (Some err, p)
  | (None, r, defers) =>
    let old := router p in
    let* _ := tryCloseRouter old in
    let* _ := run_defers defers None in
    ret (None, {| router := r |})
  end.

(** Whether every step for an endpoint succeeds, stated on its own. *)
Definition middlewares_ok (ms : list Config.Middleware) : bool :=
  forallb (fun m => match middlewareFactory m with
                    | None => true
                    | Some err => errors_Is err ErrNotFound
                    end) ms.

Definition endpoint_matchers (e : Config.Endpoint) : Matchers :=
  matchers_of (Config.ep_Path e) (Config.ep_Method e) (Config.ep_Host e).

Definition endpoint_ok (ms : list Config.Middleware) (e : Config.Endpoint) : bool :=
  bool_decide (clientFactory e = None) &&
  middlewares_ok (Config.ep_Middlewares e) &&
  middlewares_ok ms &&
  match parseRetryConditon e with Ok _ => true | Err _ => false end &&
  bool_decide (route_error (endpoint_matchers e) = None).

(** The transports given by a middleware, and the handler of a built
    endpoint run on a request. *)
Variable Process : Config.Middleware -> RoundTripper World -> RoundTripper World.

Fixpoint run_tripper (t : Tripper) : RoundTripper World :=
  match t with
  | ClientTripper _ => RoundTrip
  | Wrapped m next => Process m (run_tripper next)
  end.

Definition serve (h : EndpointHandler) (env : Env) (req : Request) : M World unit :=
  handler (eh_endpoint h) (eh_strategy h) (run_tripper (eh_tripper h)) env req.

End Handler.

(** *** A retried request, for the concrete checks

    An HTTP endpoint with two attempts that retries on 503, two backends,
    the first of which answers 503 and the second 200. *)

Definition retry_endpoint : Config.Endpoint :=
  {| Config.ep_Path := "/echo";
     Config.ep_Method := "GET";
     Config.ep_Host := "";
     Config.ep_Protocol := Config.HTTP;
     Config.ep_Timeout := None;
     Config.ep_Retry := Some {| Config.Attempts := 2; Config.PerTryTimeout := None;
                                Config.Conditions := ["503"] |};
     Config.ep_Backends := [];
     Config.ep_Middlewares := [];
     Config.ep_Metadata := ∅ |}.

Definition backend_node (addr : string) : Client.node :=
  Client.newNode addr Config.HTTP (Some 10%Z) ∅ "" "" [].

Definition reply (code : Z) (body : list byte) : Response :=
  {| resp_StatusCode := code; resp_Header := ∅; resp_Trailer := ∅;
     resp_ContentLength := Z.of_nat (length body);
     resp_Body := Some (NewReader body) |}.

Definition get_echo : Request :=
  {| req_Method := "GET"; req_Host := "gateway.local";
     req_URL_Scheme := ""; req_URL_Host := "";
     req_RequestURI := "/echo"; req_RemoteAddr := "192.0.2.7:50000";
     req_Header := ∅; req_ContentLength := 0;
     req_Body := NewReader []; req_Endpoint := retry_endpoint |}.

Definition no_telemetry : Telemetry :=
  {| retry_success := 0; retry_failed := 0;
     breaker_success := 0; breaker_failed := 0 |}.

Definition fresh_world (nodes : list Client.node) (picks : list nat)
    (answers : list (result Response)) : World :=
  {| reqOpts := NewRequestOptions retry_endpoint;
     telemetry := no_telemetry;
     done_calls := []; select_log := [];
     writer := {| w_Header := ∅; w_Status := None; w_Body := [] |};
     code_total := []; tx_bytes := 0; rx_bytes := 0;
     sel_nodes := nodes; balancer := picks; backend := answers |}.

(** Status codes as retry conditions. *)
Definition demo_Judge (conds : list Z) (resp : Response) (_ : bool) : bool :=
  bool_decide (resp_StatusCode resp ∈ conds).

Definition demo_ToGRPCCode (code : Z) : Z :=
  if (code =? 499)%Z then 1 else if (code =? 504)%Z then 4
  else if (code =? 502)%Z then 2 else 2.

Definition demo_SplitHostPort (addr : string) : result (string * string) :=
  Ok ("192.0.2.7", "50000").

Definition calm : Env :=
  {| retry_enabled := true;
     breaker_Allow := fun _ => None;
     ctx_Err := fun _ => None;
     client_takes := None |}.

(** The client goes away before the second attempt. *)
Definition client_leaves : Env :=
  {| retry_enabled := true;
     breaker_Allow := fun _ => None;
     ctx_Err := fun i => if (i =? 0)%Z then None else Some Canceled;
     client_takes := None |}.

(** The connection to the client breaks after [n] bytes of the body. *)
Definition client_breaks_after (n : nat) : Env :=
  {| retry_enabled := true;
     breaker_Allow := fun _ => None;
     ctx_Err := fun _ => None;
     client_takes := Some (n, New "write: broken pipe") |}.

Definition retry_strategy : @retryStrategy Z :=
  {| attempts := 2; timeout := second; perTryTimeout := second;
     conditions := [503%Z] |}.

Definition demo_handler (env : Env) : M World unit :=
  handler demo_ToGRPCCode demo_SplitHostPort demo_Judge
    retry_endpoint retry_strategy RoundTrip env get_echo.

End Proxy.

(* ===================================================================== *)
(** ** middleware/rewrite: [stripPrefix]                                  *)
(* ===================================================================== *)

Module Rewrite.
Import Path.

(** [strings.HasPrefix] and [strings.TrimPrefix] on byte strings. *)
Fixpoint has_prefix (s pre : list ascii) : bool :=
  match pre, s with
  | [], _ => true
  | _ :: _, [] => false
  | c :: pre', d :: s' => Ascii.eqb c d && has_prefix s' pre'
  end.

Definition TrimPrefix (s pre : list ascii) : list ascii :=
  if has_prefix s pre then drop (length pre) s else s.

(** The loop of [path.Join] that builds [buf]: empty elements before the
    first non-empty one are dropped, the others are joined by slashes. *)
Fixpoint join_buf (buf : list ascii) (elem : list (list ascii)) : list ascii :=
  match elem with
  | [] => buf
  | e :: rest =>
    if (0 <? length buf) || negb (bytes_eqb e []) then
      join_buf ((if 0 <? length buf then buf ++ [slash] else buf) ++ e) rest
    else join_buf buf rest
  end.

(** Go standard library, [path.Join]. *)
Definition Join (elem : list (list ascii)) : list ascii :=
  if fold_left (fun size e => size + length e) elem 0 =? 0 then []
  else Clean (join_buf [] elem).

(** [stripPrefix] *)
Definition stripPrefix (origin pre : list ascii) : list ascii :=
  let out := TrimPrefix origin pre in
  match out with
  | [] => [slash]
  | c :: _ => if negb (is_slash c) then Join [[slash]; out] else out
  end.

(** Whether a path has two slashes in a row. *)
Fixpoint double_slash (p : list ascii) : bool :=
  match p with
  | c :: t => (is_slash c && match t with d :: _ => is_slash d | [] => false end)
              || double_slash t
  | [] => false
  end.

End Rewrite.

(* ===================================================================== *)
(** ** client: targets, the backends of an endpoint, the cleanup task    *)
(* ===================================================================== *)

Module ClientMore.
Import Go Selector Client.

(** [strings.Contains] *)
Fixpoint Contains (s substr : string) : bool :=
  String.prefix substr s ||
  match s with
  | EmptyString => false
  | String _ s' => Contains s' substr
  end.

(** [Target] *)
Record Target : Type := {
  tg_Scheme : string;
  tg_Authority : string;
  tg_Endpoint : string;
}.

Section Apply.

(** [url.Parse] and [strconv.ParseInt], and [AddWatch] of the global
    service watcher, whose state is [W]: it registers the applier and may
    call it back, before it returns, with instances it knows already. *)
Variable url_Parse : string -> result URL.
Variable ParseInt : string -> Z * option error.
Context {W : Type}.
Variable AddWatch : string -> W -> option (list ServiceInstance) * W.

(** [parseTarget] *)
Definition parseTarget (endpoint : string) : result Target :=
  let endpoint := if negb (Contains endpoint "://")
                  then "direct:///" +:+ endpoint else endpoint in
  match url_Parse endpoint with
  | Err err => Err err
  | Ok u =>
    Ok {| tg_Scheme := Scheme u;
          tg_Authority := Host u;
          tg_Endpoint := if 1 <? String.length (Path u)
                         then substring 1 (String.length (Path u) - 1) (Path u)
                         else "" |}
  end.

(** The loop of [nodeApplier.apply]; [nodes] is the variable of that
    name. *)
Fixpoint apply_loop (backends : list Config.Backend) (nodes : list node)
    (na : nodeApplier) (w : W) : option error * nodeApplier * W :=
  match backends with
  | [] => (None, na, w)
  | backend :: rest =>
    match parseTarget (Config.Target backend) with
    | Err err => (Some err, na, w)
    | Ok target =>
      if String.eqb (tg_Scheme target) "direct" then
        let node :=
          newNode (Config.Target backend) (Config.ep_Protocol (endpoint na))
            (Config.Weight backend) (Config.bk_Metadata backend) "" ""
            [WithTLS (Config.Tls backend);
             WithTLSConfigName (Config.TlsConfigName backend)] in
        let nodes := nodes ++ [node] in
        apply_loop rest nodes
          {| canceled := canceled na; endpoint := endpoint na;
             picker := picker_Apply nodes (picker na) |} w
      else if String.eqb (tg_Scheme target) "discovery" then
        let '(called, w) := AddWatch (tg_Endpoint target) w in
        let na := match called with
                  | Some services => (Callback url_Parse ParseInt na services).2
                  | None => na
                  end in
        apply_loop rest nodes na w
      else (Some (New ("unknown scheme: " +:+ tg_Scheme target)), na, w)
    end
  end.

(** [nodeApplier.apply] *)
Definition apply (na : nodeApplier) (w : W) : option error * nodeApplier * W :=
  apply_loop (Config.ep_Backends (endpoint na)) [] na w.

End Apply.

(** [doCleanup] of [proccleanup]: one pass over the endpoints.  [order] is
    the order in which the pass ranges over [s.appliers], a list of its
    keys; a name that is not a key is passed over. *)
Fixpoint doCleanup (order : list string) (s : serviceWatcher) : serviceWatcher :=
  match order with
  | [] => s
  | endpoint :: rest =>
    match appliers s !! endpoint with
    | None => doCleanup rest s
    | Some aps =>
      let cleanup :=
        (List.filter (fun kv : string * nodeApplier => Canceled kv.2)
           (map_to_list aps)).*1 in
      if length cleanup <=? 0 then s           (* return *)
      else
        doCleanup rest
          {| ws_watcherStatus := ws_watcherStatus s;
             appliers := <[endpoint := foldr delete aps cleanup]> (appliers s) |}
    end
  end.

(** *** Backends and subscribers for the concrete checks *)

Definition direct_Parse (e : string) : result URL :=
  if String.prefix "direct:///" e
  then Ok {| Scheme := "direct"; Host := "";
             Path := substring 9 (String.length e - 9) e; Query := ∅ |}
  else Err (New "parse error").

Definition no_watch (ep : string) (w : unit) : option (list ServiceInstance) * unit :=
  (None, w).

Definition direct_backend (target : string) (tls : bool) : Config.Backend :=
  {| Config.Target := target; Config.Weight := Some 5%Z;
     Config.bk_Metadata := ∅; Config.Tls := tls; Config.TlsConfigName := "" |}.

Definition direct_endpoint : Config.Endpoint :=
  {| Config.ep_Path := "/echo"; Config.ep_Method := "GET"; Config.ep_Host := "";
     Config.ep_Protocol := Config.HTTP; Config.ep_Timeout := None;
     Config.ep_Retry := None;
     Config.ep_Backends := [direct_backend "10.0.0.1:8000" false;
                            direct_backend "10.0.0.2:8443" true];
     Config.ep_Middlewares := []; Config.ep_Metadata := ∅ |}.

Definition direct_applier : nodeApplier :=
  {| canceled := false; endpoint := direct_endpoint;
     picker := {| applied := []; apply_calls := 0 |} |}.

(** Two endpoints: [users] has a live and a cancelled subscriber, [orders]
    a cancelled one. *)
Definition two_endpoints : serviceWatcher :=
  {| ws_watcherStatus := ∅;
     appliers :=
       {[ "users" := {[ "a" := demo_applier; "b" := Cancel demo_applier ]};
          "orders" := {[ "c" := Cancel demo_applier ]};
          "carts" := {[ "d" := demo_applier ]} ]} |}.

End ClientMore.

(* ===================================================================== *)
(** ** client: the subscribers of the watcher as pointers                *)
(* ===================================================================== *)

(** In Go [s.appliers] holds pointers.  [apply] registers its applier for
    every discovery backend of the endpoint, each time under a new id, so
    one applier can be subscribed under several endpoints and under
    several ids of one endpoint.  [Client.doCallback] keeps a copy for each
    subscription, which is the same thing as long as the subscribers are
    only read, or no applier is subscribed twice.  Here the appliers live
    in a store and the subscriptions hold their addresses. *)
Module Watcher.
Import Go Client.

(** The appliers, by address. *)
Abbreviation Store := (gmap nat nodeApplier).

(** [s.appliers]: endpoint key, then id, to the address of an applier. *)
Abbreviation Appliers := (gmap string (gmap string nat)).

Section Watcher.
Variable url_Parse : string -> result URL.
Variable ParseInt : string -> Z * option error.

(** [applier.Callback(services)] on the applier at an address; its error
    is only logged by [doCallback]. *)
Definition Callback_at (services : list ServiceInstance) (l : nat) (h : Store)
  : Store :=
  alter (fun na => (Callback url_Parse ParseInt na services).2) l h.

(** [doCallback]: the maps of the watcher are read and not written, the
    appliers change.  [order] is the order in which the range goes over
    the ids of [s.appliers[endpoint]]; an endpoint that is not a key has no
    id. *)
Definition doCallback (order : list string) (endpoint : string)
    (services : list ServiceInstance) (appliers : Appliers) (h : Store) : Store :=
  fold_left (fun h id =>
               match default ∅ (appliers !! endpoint) !! id with
               | Some l => Callback_at services l h
               | None => h
               end) order h.

End Watcher.

(** Two appliers; the first is subscribed twice under [users] and once
    under [orders]. *)
Definition shared_appliers : Appliers :=
  {[ "users" := {[ "a" := 0; "b" := 0 ]};
     "orders" := {[ "c" := 0; "d" := 1 ]} ]}.

Definition two_appliers : Store := {[ 0 := demo_applier; 1 := demo_applier ]}.

End Watcher.

(* ===================================================================== *)
(** ** middleware: the registry of middleware factories                  *)
(* ===================================================================== *)

Module Registry.
Import Go.

Section Registry.

(** [MW] is what a [MiddlewareV2] is to the registry: a value that a
    factory returns.  The counter of failed creations is left out. *)
Context {MW : Type}.
Variable EmptyMiddleware : MW.

(** [Factory] and [FactoryV2] *)
Definition FactoryV2 : Type := Config.Middleware -> result MW.

(** [wrapFactory] *)
Definition wrapFactory (fin : FactoryV2) : FactoryV2 :=
  fun m =>
    match fin m with
    | Err err => Err err
    | Ok v => Ok v
    end.

Record middlewareRegistry : Type := {
  middleware : gmap string FactoryV2;
}.

Definition NewRegistry : middlewareRegistry := {| middleware := ∅ |}.

(** [createFullName] *)
Definition createFullName (name : string) : string :=
  ToLower ("gateway.middleware." +:+ name).

(** [Register] and [RegisterV2] *)
Definition Register (name : string) (factory : FactoryV2)
    (p : middlewareRegistry) : middlewareRegistry :=
  {| middleware := <[createFullName name := wrapFactory factory]> (middleware p) |}.

Definition RegisterV2 (name : string) (factory : FactoryV2)
    (p : middlewareRegistry) : middlewareRegistry :=
  {| middleware := <[createFullName name := factory]> (middleware p) |}.

(** [getMiddleware] *)
Definition getMiddleware (p : middlewareRegistry) (name : string)
  : option FactoryV2 :=
  middleware p !! ToLower name.

(** [Create] *)
Definition Create (p : middlewareRegistry) (cfg : Config.Middleware)
  : result MW :=
  match getMiddleware p (createFullName (Config.mw_Name cfg)) with
  | Some method =>
    if Config.mw_Required cfg then
      match method cfg with
      | Err err => Err err
      | Ok instance => Ok instance
      end
    else
      match method cfg with
      | Err _ => Ok EmptyMiddleware
      | Ok instance => Ok instance
      end
  | None => Err ErrNotFound
  end.

(** The middleware factory that [main] gives to [proxy.New] is [Create];
    this is its error, as [buildMiddleware] reads it. *)
Definition Create_error (p : middlewareRegistry) (cfg : Config.Middleware)
  : option error :=
  match Create p cfg with
  | Ok _ => None
  | Err err => Some err
  end.

End Registry.

(** A registry for the concrete checks: [cors] can always be created,
    [jwt] never. *)
Definition cors_factory : @FactoryV2 string := fun _ => Ok "cors"%string.
Definition jwt_factory : @FactoryV2 string :=
  fun _ => Err (New "jwt: no key").

Definition demo_registry : @middlewareRegistry string :=
  RegisterV2 "JWT" jwt_factory (Register "Cors" cors_factory NewRegistry).

End Registry.

(* ===================================================================== *)
(** ** middleware/transcoder: backends for the concrete checks           *)
(* ===================================================================== *)

Module TranscoderMore.
Import Go Http Transcoder.

(** A gRPC backend that sends the message it was given back. *)
Definition echo : RoundTripper (list Request) :=
  fun req seen =>
    (Some (Ok {| resp_StatusCode := 200;
                 resp_Header := {[ "Content-Type" := ["application/grpc+json"] ]};
                 resp_Trailer := {[ "Grpc-Status" := ["0"] ]};
                 resp_ContentLength := -1;
                 resp_Body := Some (req_Body req) |}),
     seen ++ [req]).

(** A gRPC backend that answers with status 0 and no message. *)
Definition no_message : RoundTripper (list Request) :=
  fun req seen =>
    (Some (Ok {| resp_StatusCode := 200;
                 resp_Header := {[ "Content-Type" := ["application/grpc+json"];
                                   "Grpc-Status" := ["0"] ]};
                 resp_Trailer := ∅;
                 resp_ContentLength := 0;
                 resp_Body := Some (NewReader []) |}),
     seen ++ [req]).

End TranscoderMore.

(* ===================================================================== *)
(** ** proxy: the end of the handler, and closing a router               *)
(* ===================================================================== *)

Module ProxyMore.
Import Go Http Selector Request Proxy.

(** The last part of the handler, once the attempt loop has left a
    response: the response headers are copied, the status is written, the
    body is copied ([doCopyBody]) and the request is counted. *)
Definition respond (env : Env) (e : Config.Endpoint) (resp : Response)
  : M World unit :=
  let* _ := modify (on_writer (fun rw =>
              {| w_Header := resp_Header resp ∪ w_Header rw;
                 w_Status := w_Status rw; w_Body := w_Body rw |})) in
  let* _ := write_header (resp_StatusCode resp) in
  let* _ := doCopyBody env e resp in
  modify (requestsTotalIncr (resp_StatusCode resp)).

(** [muxRouter.SyncClose], after the wait for the requests in flight:
    every closer of the router is closed, in the order of registration. *)
Fixpoint close_all {Condition : Type} (closers : list nat)
  : M (@BuildWorld Condition) unit :=
  match closers with
  | [] => ret tt
  | closer :: rest => let* _ := Close closer in close_all rest
  end.

Definition SyncClose {Condition : Type} (r : @muxRouter Condition)
  : M (@BuildWorld Condition) unit :=
  close_all (allCloser r).

(** *** The proxy over its life

    [Update] hands the router it replaces to a task ([tryCloseRouter]
    starts a goroutine) that closes it later.  What happens to a proxy is
    a sequence of events: a call of [Update], or one of the tasks that
    were started reaching its [SyncClose].  The calls of [Update] come one
    after the other from their caller; a task closes clients that no later
    update touches, so its [Close] calls are taken together, as one
    step. *)
Inductive Event : Type :=
| Reload (c : Config.Gateway)
| TaskEnds (i : nat).

Section Life.
Context {Condition : Type}.
Variable ParseConditon : list string -> result (list Condition).
Variable route_error : Matchers -> option error.
Variable clientFactory : Config.Endpoint -> option error.
Variable middlewareFactory : Config.Middleware -> option error.

(** The cell of the proxy, the store, and the routers of the tasks that
    have not reached [SyncClose] yet. *)
Record System : Type := {
  sys_proxy : @Proxy.Proxy Condition;
  sys_world : @BuildWorld Condition;
  sys_tasks : list (@muxRouter Condition);
}.

(** [New]: the proxy starts with an empty router and no client. *)
Definition started : System :=
  {| sys_proxy := {| router := NewRouter |};
     sys_world := {| created := []; closed := []; closing := [] |};
     sys_tasks := [] |}.

(** One event; [None] is a panic, or a task that does not exist.  The
    tasks that an update starts are the routers it added to [closing]. *)
Definition run_event (ev : Event) (s : System) : option System :=
  match ev with
  | Reload c =>
    match Update ParseConditon route_error clientFactory middlewareFactory
            (sys_proxy s) c (sys_world s) with
    | (Some (_, p'), w') =>
      Some {| sys_proxy := p'; sys_world := w';
              sys_tasks := sys_tasks s ++
                           drop (length (closing (sys_world s))) (closing w') |}
    | (None, _) => None
    end
  | TaskEnds i =>
    match sys_tasks s !! i with
    | Some r =>
      match SyncClose r (sys_world s) with
      | (Some _, w') =>
        Some {| sys_proxy := sys_proxy s; sys_world := w';
                sys_tasks := delete i (sys_tasks s) |}
      | (None, _) => None
      end
    | None => None
    end
  end.

Fixpoint run_events (evs : list Event) (s : System) : option System :=
  match evs with
  | [] => Some s
  | ev :: rest =>
    match run_event ev s with
    | Some s' => run_events rest s'
    | None => None
    end
  end.

End Life.

(** *** A gateway configuration, for the concrete checks

    Two known middlewares and one the registry does not have; every client
    can be created and every route is accepted. *)

Definition named (name : string) : Config.Middleware :=
  {| Config.mw_Name := name; Config.mw_Required := false;
     Config.mw_Options := "" |}.

Definition known_middlewares (m : Config.Middleware) : option error :=
  if String.eqb (Config.mw_Name m) "cors" || String.eqb (Config.mw_Name m) "logging"
  then None else Some ErrNotFound.

Definition any_client (e : Config.Endpoint) : option error := None.

Definition any_route (m : Matchers) : option error := None.

Definition status_conditions (cs : list string) : result (list Z) := Ok [503%Z].

Definition no_clients : @BuildWorld Z :=
  {| created := []; closed := []; closing := [] |}.

Definition first_proxy : @Proxy.Proxy Z := {| router := NewRouter |}.

Definition one_endpoint : Config.Gateway :=
  {| Config.gw_Name := "gateway";
     Config.gw_Middlewares := [named "logging"; named "tracing"; named "cors"];
     Config.gw_Endpoints := [retry_endpoint] |}.

(** Three updates, and the first router with a client closed: the first
    task has the empty router of [New], the second the router of the first
    update. *)
Definition three_reloads : list Event :=
  [Reload one_endpoint; Reload one_endpoint; Reload one_endpoint; TaskEnds 1].

End ProxyMore.

(* ===================================================================== *)
(** * Properties                                                          *)
(* ===================================================================== *)

Module PathFacts.
Import Path.

Example cleanPath_ex1 : cleanPath (s "") = s "/".
Proof. reflexivity. Qed.
Example cleanPath_ex2 : cleanPath (s "a//b/./c/../d/") = s "/a/b/d/".
Proof. vm_compute. reflexivity. Qed.
Example cleanPath_ex3 : cleanPath (s "/../..//x/..") = s "/".
Proof. vm_compute. reflexivity. Qed.
Example cleanPath_ex4 : cleanPath (s "/a/.../..b/.c/") = s "/a/.../..b/.c/".
Proof. vm_compute. reflexivity. Qed.
Example Clean_ex5 : Clean (s "../../a/../../b/.") = s "../../../b".
Proof. vm_compute. reflexivity. Qed.
Example Clean_ex6 : Clean (s "a/..") = s ".".
Proof. vm_compute. reflexivity. Qed.

(** *** Fuel: the length of the unread part is always enough *)

Lemma copy_elem_length rest out :
  length (copy_elem rest out).1 <= length rest.
Proof.
  revert out. induction rest as [|c t IH]; intros out; simpl; [lia|].
  destruct (is_slash c); simpl; [lia|]. specialize (IH (c :: out)). lia.
Qed.

Lemma copy_elem_length_lt c t out :
  is_slash c = false ->
  length (copy_elem (c :: t) out).1 < length (c :: t).
Proof.
  intros Hc. simpl. rewrite Hc.
  pose proof (copy_elem_length t (c :: out)). lia.
Qed.

Lemma length_tl_le (l : list ascii) : length (tl l) <= length l.
Proof. destruct l; simpl; lia. Qed.

Lemma clean_loop_fuel rooted f1 : forall f2 rest out dd,
  length rest <= f1 -> length rest <= f2 ->
  clean_loop rooted f1 rest out dd = clean_loop rooted f2 rest out dd.
Proof.
  induction f1 as [|f1 IH]; intros f2 rest out dd H1 H2.
  - destruct rest; simpl in H1; [|lia]. destruct f2; reflexivity.
  - destruct rest as [|c t]; [destruct f2; reflexivity|].
    destruct f2 as [|f2]; simpl in H1, H2; [lia|].
    pose proof (length_tl_le t) as Htl.
    cbn [clean_loop].
    destruct (is_slash c) eqn:Hc; [apply IH; lia|].
    destruct (is_dot c && at_elem_end t); [apply IH; lia|].
    destruct (is_dot c && is_dot (peek t) && at_elem_end (tl t)).
    + destruct (dd <? length out); [apply IH; lia|].
      destruct (negb rooted); apply IH; lia.
    + match goal with |- context [copy_elem (c :: t) ?o] =>
        pose proof (copy_elem_length_lt c t o Hc) as Hlt;
        destruct (copy_elem (c :: t) o) as [rest' out2] end.
      simpl in Hlt. apply IH; lia.
Qed.

Lemma run_fuel rooted f rest out dd :
  length rest <= f -> clean_loop rooted f rest out dd = run rooted rest out dd.
Proof. intros H. unfold run. apply clean_loop_fuel; lia. Qed.

(** *** The loop, one path element at a time *)

Lemma run_nil rooted out dd : run rooted [] out dd = out.
Proof. reflexivity. Qed.

Lemma run_slash rooted t out dd :
  run rooted (slash :: t) out dd = run rooted t out dd.
Proof. unfold run. simpl. reflexivity. Qed.

Lemma run_dot rooted t out dd :
  at_elem_end t = true ->
  run rooted (dot :: t) out dd = run rooted t out dd.
Proof. intros H. unfold run. simpl. rewrite H. reflexivity. Qed.

Lemma clean_loop_cons rooted f c t out dd :
  clean_loop rooted (S f) (c :: t) out dd =
    if is_slash c then clean_loop rooted f t out dd
    else if is_dot c && at_elem_end t then clean_loop rooted f t out dd
    else if is_dot c && is_dot (peek t) && at_elem_end (tl t) then
      if dd <? length out then
        clean_loop rooted f (tl t) (backtrack dd out) dd
      else if negb rooted then
        clean_loop rooted f (tl t)
          (dot :: dot :: (if 0 <? length out then slash :: out else out))
          (length (dot :: dot :: (if 0 <? length out then slash :: out else out)))
      else clean_loop rooted f (tl t) out dd
    else
      clean_loop rooted f
        (copy_elem (c :: t)
           (if (rooted && negb (length out =? 1)) ||
               (negb rooted && negb (length out =? 0))
            then slash :: out else out)).1
        (copy_elem (c :: t)
           (if (rooted && negb (length out =? 1)) ||
               (negb rooted && negb (length out =? 0))
            then slash :: out else out)).2
        dd.
Proof.
  cbn [clean_loop].
  destruct (copy_elem (c :: t) _) as [rest' out2]. reflexivity.
Qed.

Lemma run_dotdot t out :
  at_elem_end t = true ->
  run true (dot :: dot :: t) out 1 =
    if 1 <? length out then run true t (backtrack 1 out) 1 else run true t out 1.
Proof.
  intros H. unfold run. cbn [length]. rewrite clean_loop_cons.
  change (is_slash dot) with false. change (is_dot dot) with true.
  cbn [andb at_elem_end peek hd tl negb]. change (is_slash dot) with false.
  change (is_dot dot) with true. rewrite H. cbn [andb].
  destruct (1 <? length out); apply clean_loop_fuel; lia.
Qed.

Lemma copy_elem_app e : forall t out,
  no_slash e -> at_elem_end t = true ->
  copy_elem (e ++ t) out = (t, rev e ++ out).
Proof.
  induction e as [|c e IH]; intros t out He Ht.
  - destruct t as [|c t]; [reflexivity|]. simpl in *. rewrite Ht. reflexivity.
  - inversion He as [|? ? Hc He']; subst. simpl. rewrite Hc.
    rewrite IH by assumption. rewrite <- app_assoc. reflexivity.
Qed.

Lemma at_elem_end_app_no_slash e t :
  no_slash e -> at_elem_end (e ++ t) = true -> e = [].
Proof.
  intros He H. destruct e as [|c e]; [reflexivity|].
  inversion He; subst. simpl in H. congruence.
Qed.

Lemma is_dot_eq c : is_dot c = true -> c = dot.
Proof. unfold is_dot. intros H. apply Ascii.eqb_eq in H. exact H. Qed.

Lemma is_slash_eq c : is_slash c = true -> c = slash.
Proof. unfold is_slash. intros H. apply Ascii.eqb_eq in H. exact H. Qed.

Lemma peek_end_not_dot t : at_elem_end t = true -> is_dot (peek t) = false.
Proof.
  destruct t as [|c t]; simpl; [reflexivity|].
  intros H. apply is_slash_eq in H. subst. reflexivity.
Qed.

(** A good element never takes one of the three special branches. *)
Lemma good_not_special c e t :
  good (c :: e) -> at_elem_end t = true ->
  is_slash c = false /\
  is_dot c && at_elem_end (e ++ t) = false /\
  is_dot c && is_dot (peek (e ++ t)) && at_elem_end (tl (e ++ t)) = false.
Proof.
  intros (_ & Hns & Hd & Hdd) Ht.
  inversion Hns as [|? ? Hc He]; subst.
  split; [assumption|]. split.
  - destruct (is_dot c) eqn:Hdot; [|reflexivity]. simpl.
    destruct (at_elem_end (e ++ t)) eqn:Hend; [|reflexivity].
    apply at_elem_end_app_no_slash in Hend; [|assumption].
    apply is_dot_eq in Hdot. subst. contradiction.
  - destruct (is_dot c) eqn:Hdot; [|reflexivity]. simpl.
    apply is_dot_eq in Hdot. subst c.
    destruct e as [|d e]; simpl.
    + rewrite (peek_end_not_dot t Ht). reflexivity.
    + destruct (is_dot d) eqn:Hd2; [|reflexivity]. simpl.
      apply is_dot_eq in Hd2. subst d.
      destruct (at_elem_end (e ++ t)) eqn:Hend; [|reflexivity].
      inversion He; subst.
      apply at_elem_end_app_no_slash in Hend; [|assumption].
      subst. contradiction.
Qed.

Lemma good_nonempty e : good e -> e <> [].
Proof. intros H; apply H. Qed.

Lemma body_length_cons e st : good e -> 2 <= length (body (e :: st)).
Proof.
  intros (Hne & _). simpl. rewrite length_app, length_rev. simpl.
  destruct e; [contradiction|]. simpl. lia.
Qed.

Lemma rbuf_length_nil : length (rbuf []) = 1.
Proof. reflexivity. Qed.

Lemma rbuf_length_cons e st : good e -> 2 <= length (rbuf (e :: st)).
Proof. apply body_length_cons. Qed.

Lemma run_elem e t st :
  good e -> Forall good st -> at_elem_end t = true ->
  run true (e ++ t) (rbuf st) 1 = run true t (rbuf (e :: st)) 1.
Proof.
  intros He Hst Ht. destruct e as [|c e]; [destruct He; contradiction|].
  destruct (good_not_special c e t He Ht) as (Hc & H2 & H3).
  unfold run at 1. cbn [app length]. rewrite clean_loop_cons, Hc, H2, H3.
  change (c :: e ++ t) with ((c :: e) ++ t).
  destruct He as (Hne & Hns & Hd & Hdd).
  rewrite copy_elem_app by assumption. cbn [fst snd].
  rewrite run_fuel by (rewrite length_app; lia).
  f_equal. cbn [andb negb orb].
  destruct st as [|e0 st].
  - reflexivity.
  - inversion Hst; subst.
    pose proof (rbuf_length_cons e0 st ltac:(assumption)) as Hlen.
    destruct (length (rbuf (e0 :: st)) =? 1) eqn:E.
    + apply Nat.eqb_eq in E. lia.
    + reflexivity.
Qed.

(** *** Backtracking over one element *)

Lemma unwind_elem xs : forall top B,
  no_slash (top :: xs) ->
  unwind 1 top (xs ++ slash :: B) = match B with [] => [slash] | _ => B end.
Proof.
  induction xs as [|y ys IH]; intros top B Hns.
  - inversion Hns as [|? ? Htop _]; subst. simpl. rewrite Htop. simpl.
    destruct B as [|b B]; [reflexivity|]. simpl.
    change (is_slash slash) with true. simpl.
    destruct (length B); reflexivity.
  - inversion Hns as [|? ? Htop Hrest]; subst.
    cbn [app unwind]. rewrite Htop.
    assert (Hl : (1 <? length (y :: ys ++ slash :: B)) = true).
    { apply Nat.ltb_lt. simpl. rewrite length_app. simpl. lia. }
    rewrite Hl. simpl. apply IH. assumption.
Qed.

Lemma no_slash_rev e : no_slash e -> no_slash (rev e).
Proof. apply List.Forall_rev. Qed.

Lemma backtrack_rbuf e st :
  good e -> backtrack 1 (rbuf (e :: st)) = rbuf st.
Proof.
  intros (Hne & Hns & _). cbn [rbuf body].
  apply no_slash_rev in Hns.
  destruct (rev e) as [|x xs] eqn:E.
  - apply (f_equal (@length ascii)) in E. rewrite length_rev in E.
    destruct e; [contradiction|discriminate].
  - cbn [app backtrack]. rewrite unwind_elem by assumption.
    destruct st as [|e0 st]; [reflexivity|].
    cbn [rbuf body]. destruct (rev e0); reflexivity.
Qed.

(** *** Every unread path starts with one of the five shapes *)

Lemma split_elem rest :
  exists e t, rest = e ++ t /\ no_slash e /\ at_elem_end t = true.
Proof.
  induction rest as [|c rest (e & t & -> & He & Ht)].
  - exists [], []. repeat split. constructor.
  - destruct (is_slash c) eqn:Hc.
    + exists [], (c :: e ++ t). repeat split; [constructor|exact Hc].
    + exists (c :: e), t. repeat split; [constructor; assumption|assumption].
Qed.

Inductive shape : list ascii -> Prop :=
| shape_nil : shape []
| shape_slash t : shape (slash :: t)
| shape_dot t : at_elem_end t = true -> shape (dot :: t)
| shape_dotdot t : at_elem_end t = true -> shape (dot :: dot :: t)
| shape_elem e t : good e -> at_elem_end t = true -> shape (e ++ t).

Lemma path_shape rest : shape rest.
Proof.
  destruct (split_elem rest) as (e & t & -> & He & Ht).
  destruct e as [|c e].
  - destruct t as [|c t]; [constructor|].
    simpl in Ht. apply is_slash_eq in Ht. subst. constructor.
  - destruct (decide (c :: e = [dot])) as [E|Hd].
    { injection E as -> ->. apply shape_dot. exact Ht. }
    destruct (decide (c :: e = [dot; dot])) as [E|Hdd].
    { injection E as -> ->. apply shape_dotdot. exact Ht. }
    apply shape_elem; [|exact Ht]. repeat split; try assumption. discriminate.
Qed.

(** *** The rooted loop keeps the buffer canonical *)

Lemma run_canonical n : forall rest st,
  length rest <= n -> Forall good st ->
  exists st', Forall good st' /\ run true rest (rbuf st) 1 = rbuf st'.
Proof.
  induction n as [|n IH]; intros rest st Hn Hst.
  - destruct rest; simpl in Hn; [|lia]. exists st. split; [assumption|reflexivity].
  - destruct (path_shape rest) as [|t|t Ht|t Ht|e t He Ht].
    + exists st. split; [assumption|reflexivity].
    + rewrite run_slash. simpl in Hn. apply IH; [lia|assumption].
    + rewrite run_dot by assumption. simpl in Hn. apply IH; [lia|assumption].
    + rewrite run_dotdot by assumption. simpl in Hn.
      destruct st as [|e0 st].
      * simpl. apply (IH t []); [lia|constructor].
      * inversion Hst; subst.
        pose proof (rbuf_length_cons e0 st ltac:(assumption)) as Hlen.
        destruct (1 <? length (rbuf (e0 :: st))) eqn:E.
        -- rewrite backtrack_rbuf by assumption. apply IH; [lia|assumption].
        -- apply Nat.ltb_ge in E. lia.
    + rewrite run_elem by assumption.
      rewrite length_app in Hn.
      pose proof (good_nonempty e He) as Hne.
      destruct e; [contradiction|]. simpl in Hn.
      apply IH; [lia|]. constructor; assumption.
Qed.

(** *** Canonical paths are fixed points of the rooted loop *)

Lemma at_elem_end_joinS segs t :
  at_elem_end t = true -> at_elem_end (joinS segs ++ t) = true.
Proof. intros Ht. destruct segs; [exact Ht|reflexivity]. Qed.

Lemma run_joinS segs : forall st t,
  Forall good segs -> Forall good st -> at_elem_end t = true ->
  run true (joinS segs ++ t) (rbuf st) 1 = run true t (rbuf (rev segs ++ st)) 1.
Proof.
  induction segs as [|e segs IH]; intros st t Hsegs Hst Ht.
  - reflexivity.
  - inversion Hsegs; subst. cbn [joinS app].
    rewrite run_slash, <- app_assoc.
    rewrite run_elem; [|assumption|assumption|by apply at_elem_end_joinS].
    rewrite IH; [|assumption|by constructor|assumption].
    cbn [rev]. rewrite <- app_assoc. reflexivity.
Qed.

Lemma rev_body st : rev (body st) = joinS (rev st).
Proof.
  induction st as [|e st IH]; [reflexivity|].
  cbn [body rev]. rewrite rev_app_distr. cbn [rev].
  rewrite IH, rev_involutive.
  generalize (rev st) as segs. intros segs.
  induction segs as [|x segs IHs]; simpl.
  - rewrite app_nil_r. reflexivity.
  - rewrite <- !app_assoc. f_equal. f_equal. rewrite <- IHs.
    rewrite <- !app_assoc. reflexivity.
Qed.

Lemma rev_rbuf st : rev (rbuf st) = fwd st.
Proof. destruct st; [reflexivity|]. apply rev_body. Qed.

Lemma rbuf_not_nil st : rbuf st <> [].
Proof.
  destruct st as [|e st]; [discriminate|]. cbn [rbuf body].
  destruct (rev e); discriminate.
Qed.

(** [path.Clean] on a rooted path. *)
Lemma Clean_rooted t :
  Clean (slash :: t) = rev (run true t [slash] 1).
Proof.
  unfold Clean. change (is_slash slash) with true. cbn iota.
  rewrite run_fuel by (simpl; lia).
  destruct (run_canonical (length t) t [] ltac:(lia) ltac:(constructor))
    as (st' & _ & E).
  change [slash] with (rbuf []). rewrite E.
  pose proof (rbuf_not_nil st'). destruct (rbuf st'); [contradiction|reflexivity].
Qed.

Lemma Clean_rooted_canonical t :
  exists st, Forall good st /\ Clean (slash :: t) = fwd st.
Proof.
  rewrite Clean_rooted.
  destruct (run_canonical (length t) t [] ltac:(lia) ltac:(constructor))
    as (st' & Hst & E).
  change [slash] with (rbuf []). rewrite E, rev_rbuf. eauto.
Qed.

(** *** [cleanPath] *)

Lemma ends_snoc l x : ends_with_slash (l ++ [x]) = is_slash x.
Proof. unfold ends_with_slash. rewrite last_snoc. reflexivity. Qed.

Lemma joinS_app a b : joinS (a ++ b) = joinS a ++ joinS b.
Proof.
  induction a as [|e a IH]; [reflexivity|].
  cbn [app joinS]. rewrite IH, <- app_assoc. reflexivity.
Qed.

Lemma good_snoc e : good e -> exists xs x, e = xs ++ [x] /\ is_slash x = false.
Proof.
  intros (Hne & Hns & _).
  destruct (rev e) as [|x xs] eqn:E.
  - apply (f_equal (@rev ascii)) in E. rewrite rev_involutive in E. contradiction.
  - apply (f_equal (@rev ascii)) in E. rewrite rev_involutive in E.
    cbn [rev] in E. exists (rev xs), x. split; [assumption|].
    subst e. unfold no_slash in Hns. rewrite Forall_app in Hns.
    destruct Hns as [_ Hx]. inversion Hx; subst. assumption.
Qed.

Lemma fwd_cons_snoc e st :
  good e -> exists l x, fwd (e :: st) = l ++ [x] /\ is_slash x = false /\ l <> [].
Proof.
  intros He. destruct (good_snoc e He) as (xs & x & -> & Hx).
  cbn [fwd rev]. rewrite joinS_app. cbn [joinS].
  exists (joinS (rev st) ++ slash :: xs), x.
  split; [|split; [assumption|]].
  - rewrite app_nil_r, <- !app_assoc. reflexivity.
  - destruct (joinS (rev st)); discriminate.
Qed.

Lemma fwd_cons_not_root e st : good e -> fwd (e :: st) <> [slash].
Proof.
  intros He E. destruct (fwd_cons_snoc e st He) as (l & x & E' & Hx & Hl).
  rewrite E' in E. destruct l as [|a l]; [contradiction|].
  destruct l; discriminate.
Qed.

Lemma fwd_cons_ends e st : good e -> ends_with_slash (fwd (e :: st)) = false.
Proof.
  intros He. destruct (fwd_cons_snoc e st He) as (l & x & -> & Hx & _).
  rewrite ends_snoc. assumption.
Qed.

Lemma fwd_cons_head e st : exists t, fwd (e :: st) = slash :: t.
Proof.
  cbn [fwd rev]. rewrite joinS_app. cbn [joinS].
  destruct (rev st) as [|e0 segs]; cbn [joinS app]; eauto.
Qed.

(** A canonical path, with or without one trailing slash, cleans to itself. *)
Lemma Clean_fwd st t :
  Forall good st -> at_elem_end t = true -> (t = [] \/ t = [slash]) ->
  Clean (fwd st ++ t) = fwd st.
Proof.
  intros Hst Ht Hcase.
  assert (Hrun : forall u, slash :: u = joinS (rev st) ++ t ->
            Clean (slash :: u) = fwd st).
  { intros u Hu. rewrite Clean_rooted.
    rewrite <- (run_slash true u), Hu.
    change [slash] with (rbuf []).
    rewrite run_joinS; [|by apply List.Forall_rev|constructor|assumption].
    rewrite rev_involutive, app_nil_r.
    destruct Hcase as [-> | ->].
    - rewrite run_nil. apply rev_rbuf.
    - rewrite run_slash, run_nil. apply rev_rbuf. }
  destruct st as [|e st].
  - destruct Hcase as [-> | ->]; vm_compute; reflexivity.
  - destruct (fwd_cons_head e st) as (u & Eu).
    replace (fwd (e :: st) ++ t) with (slash :: (u ++ t)) by (rewrite Eu; reflexivity).
    apply Hrun.
    change (joinS (rev (e :: st))) with (fwd (e :: st)). rewrite Eu. reflexivity.
Qed.

Lemma cleanPath_rooted u :
  cleanPath (slash :: u) =
    if ends_with_slash (slash :: u) && negb (bytes_eqb (Clean (slash :: u)) [slash])
    then Clean (slash :: u) ++ [slash] else Clean (slash :: u).
Proof. reflexivity. Qed.

Lemma cleanPath_canonical st :
  Forall good st -> cleanPath (fwd st) = fwd st.
Proof.
  intros Hst. destruct st as [|e st]; [vm_compute; reflexivity|].
  inversion Hst; subst.
  assert (HC : Clean (fwd (e :: st)) = fwd (e :: st)).
  { rewrite <- (app_nil_r (fwd (e :: st))) at 1. apply Clean_fwd; auto. }
  destruct (fwd_cons_head e st) as (u & Eu).
  rewrite Eu, cleanPath_rooted, <- Eu, HC.
  rewrite fwd_cons_ends by assumption. reflexivity.
Qed.

Lemma cleanPath_canonical_slash e st :
  Forall good (e :: st) -> cleanPath (fwd (e :: st) ++ [slash]) = fwd (e :: st) ++ [slash].
Proof.
  intros Hst. inversion Hst; subst.
  assert (HC : Clean (fwd (e :: st) ++ [slash]) = fwd (e :: st)).
  { apply Clean_fwd; auto. }
  destruct (fwd_cons_head e st) as (u & Eu).
  rewrite Eu at 1. cbn [app]. rewrite cleanPath_rooted.
  change (slash :: u ++ [slash]) with ((slash :: u) ++ [slash]).
  rewrite <- Eu, HC.
  rewrite ends_snoc. change (is_slash slash) with true.
  unfold bytes_eqb. rewrite bool_decide_false by (by apply fwd_cons_not_root).
  reflexivity.
Qed.

(** What [cleanPath] computes, in terms of the canonical form of the path. *)
Lemma cleanPath_shape p :
  exists st, Forall good st /\
    cleanPath p =
      if ends_with_slash p && negb (bytes_eqb (fwd st) [slash])
      then fwd st ++ [slash] else fwd st.
Proof.
  destruct p as [|c p].
  - exists []. split; [constructor|reflexivity].
  - unfold cleanPath. destruct (is_slash c) eqn:Hc; cbn [negb].
    + apply is_slash_eq in Hc. subst c.
      destruct (Clean_rooted_canonical p) as (st & Hst & ->). eauto.
    + destruct (Clean_rooted_canonical (c :: p)) as (st & Hst & ->).
      exists st. split; [assumption|]. reflexivity.
Qed.

(** C8: the path cleaner is idempotent, and on a non-root result the
    cleaned path ends with a slash exactly when the input did. *)
Theorem cleanPath_idempotent_trailing_slash (p : list ascii) :
  cleanPath (cleanPath p) = cleanPath p /\
  (ends_with_slash (cleanPath p) = true /\ cleanPath p <> [slash] <->
   ends_with_slash p = true /\ cleanPath p <> [slash]).
Proof.
  destruct (cleanPath_shape p) as (st & Hst & E). rewrite E.
  destruct st as [|e st].
  - rewrite andb_false_r. change (fwd []) with [slash].
    split; [reflexivity|]. split; intros [_ H]; contradiction.
  - inversion Hst; subst.
    unfold bytes_eqb. rewrite bool_decide_false by (by apply fwd_cons_not_root).
    rewrite andb_true_r.
    destruct (ends_with_slash p) eqn:Hp.
    + split; [by apply cleanPath_canonical_slash|].
      rewrite ends_snoc. change (is_slash slash) with true.
      split; intros [_ H]; (split; [reflexivity|exact H]).
    + split; [by apply cleanPath_canonical|].
      rewrite fwd_cons_ends by assumption.
      split; intros [H _]; discriminate.
Qed.

End PathFacts.

(* --------------------------------------------------------------------- *)
(** ** Transcoder                                                         *)
(* --------------------------------------------------------------------- *)

Module TranscoderFacts.
Import Go Http Transcoder.

Lemma Z_of_byte_of_Z z : Z_of_byte (byte_of_Z z) = (z mod 256)%Z.
Proof.
  unfold Z_of_byte, byte_of_Z.
  assert (Hr : (0 <= z mod 256 < 256)%Z) by (apply Z.mod_pos_bound; lia).
  destruct (Byte.of_N (Z.to_N (z mod 256))) as [b|] eqn:E.
  - apply Byte.to_of_N in E. rewrite E. lia.
  - apply Byte.of_N_None_iff in E. lia.
Qed.

Lemma testbit_low8 a n :
  (0 <= n)%Z -> Z.testbit (a mod 256) n = (n <? 8)%Z && Z.testbit a n.
Proof.
  intros Hn. change 256%Z with (2 ^ 8)%Z.
  rewrite Z.testbit_mod_pow2 by lia. reflexivity.
Qed.

(** The four bytes written by [PutUint32] read back as the value. *)
Lemma Uint32_PutUint32 v :
  (0 <= v < 2 ^ 32)%Z ->
  Uint32 [byte_of_Z (Z.shiftr v 24); byte_of_Z (Z.shiftr v 16);
          byte_of_Z (Z.shiftr v 8); byte_of_Z v] = v.
Proof.
  intros Hv. unfold Uint32. rewrite !Z_of_byte_of_Z.
  apply Z.bits_inj'. intros n Hn.
  rewrite !Z.lor_spec, !Z.shiftl_spec by lia.
  assert (Hhigh : (32 <= n)%Z -> Z.testbit v n = false).
  { intros H. rewrite <- (Z.mod_small v (2 ^ 32)) by lia.
    rewrite Z.testbit_mod_pow2 by lia.
    destruct (Z.ltb_spec n 32); [lia|reflexivity]. }
  destruct (Z.ltb_spec n 8) as [H8|H8].
  { rewrite testbit_low8 by lia.
    rewrite (Z.testbit_neg_r _ (n - 8)), (Z.testbit_neg_r _ (n - 16)),
      (Z.testbit_neg_r _ (n - 24)) by lia.
    destruct (Z.ltb_spec n 8); [|lia]. simpl. rewrite !orb_false_r. reflexivity. }
  destruct (Z.ltb_spec n 16) as [H16|H16].
  { rewrite !testbit_low8 by lia.
    rewrite (Z.testbit_neg_r _ (n - 16)), (Z.testbit_neg_r _ (n - 24)) by lia.
    rewrite Z.shiftr_spec by lia.
    destruct (Z.ltb_spec n 8); [lia|]. destruct (Z.ltb_spec (n - 8) 8); [|lia].
    simpl. rewrite !orb_false_r. f_equal. lia. }
  destruct (Z.ltb_spec n 24) as [H24|H24].
  { rewrite !testbit_low8 by lia.
    rewrite (Z.testbit_neg_r _ (n - 24)) by lia.
    rewrite !Z.shiftr_spec by lia.
    destruct (Z.ltb_spec n 8); [lia|]. destruct (Z.ltb_spec (n - 8) 8); [lia|].
    destruct (Z.ltb_spec (n - 16) 8); [|lia].
    simpl. rewrite !orb_false_r. f_equal. lia. }
  rewrite !testbit_low8 by lia.
  rewrite !Z.shiftr_spec by lia.
  destruct (Z.ltb_spec n 8); [lia|]. destruct (Z.ltb_spec (n - 8) 8); [lia|].
  destruct (Z.ltb_spec (n - 16) 8); [lia|]. simpl.
  destruct (Z.ltb_spec (n - 24) 8).
  - simpl. f_equal. lia.
  - simpl. symmetry. apply Hhigh. lia.
Qed.

Lemma copy_at_app src : forall pre dst,
  length src <= length dst ->
  copy_at (length pre) src (pre ++ dst) = pre ++ src ++ drop (length src) dst.
Proof.
  induction src as [|x src IH]; intros pre dst Hlen.
  - simpl. rewrite drop_0. reflexivity.
  - destruct dst as [|d dst]; simpl in Hlen; [lia|].
    cbn [copy_at].
    replace (<[length pre:=x]> (pre ++ d :: dst)) with ((pre ++ [x]) ++ dst).
    + replace (S (length pre)) with (length (pre ++ [x]))
        by (rewrite length_app; simpl; lia).
      rewrite IH by lia. rewrite <- app_assoc. reflexivity.
    + rewrite <- app_assoc. simpl.
      rewrite insert_app_r_alt by lia.
      rewrite Nat.sub_diag. reflexivity.
Qed.

(** The frame built for a body [b]. *)
Lemma frame_eq (b : list byte) :
  let v := uint32 (Z.of_nat (length b)) in
  frame b = Some (x00 :: byte_of_Z (Z.shiftr v 24) :: byte_of_Z (Z.shiftr v 16)
                      :: byte_of_Z (Z.shiftr v 8) :: byte_of_Z v :: b).
Proof.
  intros v. unfold frame. fold v.
  replace (length b + 5) with (5 + length b) by lia.
  cbn [Nat.add repeat]. unfold PutUint32.
  assert (Hl : (length (x00 :: x00 :: x00 :: x00 :: x00 :: repeat x00 (length b))
                <? 1 + 4) = false).
  { apply Nat.ltb_ge. simpl. lia. }
  rewrite Hl. cbn [Nat.add]. f_equal.
  cbn [insert list_insert].
  set (pre := [x00; byte_of_Z (Z.shiftr v 24); byte_of_Z (Z.shiftr v 16);
               byte_of_Z (Z.shiftr v 8); byte_of_Z v]).
  change (copy_at (length pre) b (pre ++ repeat x00 (length b)) = pre ++ b).
  rewrite copy_at_app by (rewrite repeat_length; lia).
  rewrite drop_ge by (rewrite repeat_length; lia).
  rewrite app_nil_r. reflexivity.
Qed.

Lemma HasPrefix_false_orb p ct :
  negb (bool_decide (p = Config.GRPC)) || HasPrefix ct "application/grpc" = false
  <-> p = Config.GRPC /\ HasPrefix ct "application/grpc" = false.
Proof.
  rewrite orb_false_iff, negb_false_iff, bool_decide_eq_true. reflexivity.
Qed.

(** On a request that is transcoded, the next transport receives
    [outbound] of the framed body. *)
Section Request_direction.
Context {S : Type}.
Variable ParseInt : string -> result Z.
Variable StdDecode RawDecode : string -> result (list byte).
Variable status_json : Z -> string -> option (list byte) -> result (list byte).

#[local] Abbreviation Middleware :=
  (Middleware (S:=S) ParseInt StdDecode RawDecode status_json).
#[local] Abbreviation inbound :=
  (inbound (S:=S) ParseInt StdDecode RawDecode status_json).

Lemma Middleware_transcoded (next : RoundTripper S) req b :
  Config.ep_Protocol (req_Endpoint req) = Config.GRPC ->
  HasPrefix (Header_Get (req_Header req) "Content-Type") "application/grpc" = false ->
  ReadAll (req_Body req) = Ok b ->
  exists bb, frame b = Some bb /\
    Middleware next req =
      (let* r := next (outbound req (Header_Get (req_Header req) "Content-Type") bb) in
       inbound (Header_Get (req_Header req) "Content-Type") r).
Proof.
  intros Hp Hct Hb. pose proof (frame_eq b) as Hf. cbv zeta in Hf.
  eexists. split; [exact Hf|].
  unfold Transcoder.Middleware.
  rewrite (proj2 (HasPrefix_false_orb _ _) (conj Hp Hct)), Hb, Hf. reflexivity.
Qed.

(** C5: the request handed to the next transport carries the frame
    [0x00, len(B) as uint32 big-endian, B], has [ContentLength = len(B) + 5]
    and no [Content-Length] header. *)
Theorem transcoder_request_framing
    (next : RoundTripper S) (req : Request) (B : list byte) :
  Config.ep_Protocol (req_Endpoint req) = Config.GRPC ->
  HasPrefix (Header_Get (req_Header req) "Content-Type") "application/grpc" = false ->
  ReadAll (req_Body req) = Ok B ->
  exists (len4 : list byte) (out : Request),
    Middleware next req =
      (let* r := next out in
       inbound (Header_Get (req_Header req) "Content-Type") r) /\
    req_Body out = NewReader (x00 :: len4 ++ B) /\
    length len4 = 4 /\
    Uint32 len4 = uint32 (Z.of_nat (length B)) /\
    ((Z.of_nat (length B) < 2 ^ 32)%Z -> Uint32 len4 = Z.of_nat (length B)) /\
    req_ContentLength out = (Z.of_nat (length B) + 5)%Z /\
    req_Header out !! "Content-Length" = None.
Proof.
  intros Hp Hct Hb.
  destruct (Middleware_transcoded next req B Hp Hct Hb) as (bb & Hf & HM).
  rewrite frame_eq in Hf. cbv zeta in Hf. injection Hf as <-.
  set (v := uint32 (Z.of_nat (length B))) in *.
  assert (Hv : (0 <= v < 2 ^ 32)%Z) by (apply Z.mod_pos_bound; lia).
  exists [byte_of_Z (Z.shiftr v 24); byte_of_Z (Z.shiftr v 16);
          byte_of_Z (Z.shiftr v 8); byte_of_Z v].
  eexists. split; [exact HM|].
  split; [reflexivity|]. split; [reflexivity|].
  split; [apply Uint32_PutUint32; exact Hv|].
  split.
  - intros HL. rewrite Uint32_PutUint32 by exact Hv.
    unfold v, uint32. apply Z.mod_small. lia.
  - split.
    + cbn [outbound req_ContentLength length]. lia.
    + cbn [outbound req_Header]. unfold Header_Del.
      apply lookup_delete_eq.
Qed.

End Request_direction.

Lemma transcoder_request_framing_witness :
  exists (len4 : list byte) (out : Request),
    demo_Middleware spy (post "application/json" [x7b; x7d]) =
      (let* r := spy out in
       inbound demo_ParseInt demo_Decode demo_Decode demo_status_json
         "application/json" r) /\
    req_Body out = NewReader (x00 :: len4 ++ [x7b; x7d]) /\
    length len4 = 4 /\
    Uint32 len4 = uint32 2 /\
    ((2 < 2 ^ 32)%Z -> Uint32 len4 = 2%Z) /\
    req_ContentLength out = 7%Z /\
    req_Header out !! "Content-Length" = None.
Proof.
  apply (transcoder_request_framing demo_ParseInt demo_Decode demo_Decode
           demo_status_json spy (post "application/json" [x7b; x7d]) [x7b; x7d]);
    reflexivity.
Defined.

Example frame_json :
  frame [x7b; x7d] = Some [x00; x00; x00; x00; x02; x7b; x7d].
Proof. reflexivity. Qed.

(** The content type that the next transport sees. *)
Lemma outbound_content_type req ct bb :
  Header_Get (req_Header (outbound req ct bb)) "Content-Type" =
    "application/grpc+" +:+ TrimLeft ct "application/".
Proof.
  cbn [outbound req_Header]. unfold Header_Get, Header_Del, Header_Set.
  change (canon "Content-Type") with "Content-Type".
  change (canon "Content-Length") with "Content-Length".
  rewrite lookup_delete_ne by discriminate.
  rewrite lookup_insert_eq. reflexivity.
Qed.

Example content_type_json :
  map (fun r => Header_Get (req_Header r) "Content-Type")
      (demo_Middleware spy (post "application/json" [x7b; x7d]) []).2
  = ["application/grpc+json"].
Proof. vm_compute. reflexivity. Qed.

(** C4 (failing input): for [Content-Type: application/proto] the next
    transport is sent [application/grpc+roto]; [TrimLeft] takes its second
    argument as a set of bytes and also eats the leading [p] of [proto]. *)
Theorem transcoder_content_type_proto :
  map (fun r => Header_Get (req_Header r) "Content-Type")
      (demo_Middleware spy (post "application/proto" [x0a; x00]) []).2
  = ["application/grpc+roto"].
Proof. vm_compute. reflexivity. Qed.

End TranscoderFacts.

(* --------------------------------------------------------------------- *)
(** ** The retry-exclusion filter                                         *)
(* --------------------------------------------------------------------- *)

Module RequestFacts.
Import Go Selector Request.

Section Filter.
Context {N : Type} `{Node N}.

Lemma selected_spec (T : list string) (m : gset string) (a : string) :
  a ∈ fold_left (fun m b => {[ b ]} ∪ m) T m <-> a ∈ T \/ a ∈ m.
Proof.
  revert m. induction T as [|b T IH]; intros m; simpl.
  - rewrite elem_of_nil. tauto.
  - rewrite IH, elem_of_union, elem_of_singleton, elem_of_cons. tauto.
Qed.

(** The loop invariant: the first [w] cells hold the nodes kept among the
    first [i], and the cells from [w] on are untouched. *)
Lemma range_nodes_spec (selected : gset string) (nodes : list N) k :
  forall i w arr,
  i + k = length nodes -> w <= i -> length arr = length nodes ->
  take w arr = List.filter (fun n => negb (bool_decide (Address n ∈ selected))) (take i nodes) ->
  drop w arr = drop w nodes ->
  take (range_nodes selected k i w arr).2 (range_nodes selected k i w arr).1
    = List.filter (fun n => negb (bool_decide (Address n ∈ selected))) nodes
  /\ drop (range_nodes selected k i w arr).2 (range_nodes selected k i w arr).1
    = drop (range_nodes selected k i w arr).2 nodes
  /\ length (range_nodes selected k i w arr).1 = length nodes
  /\ (range_nodes selected k i w arr).2 <= length nodes.
Proof.
  induction k as [|k IH]; intros i w arr Hik Hwi Hlen Htake Hdrop.
  - simpl. assert (i = length nodes) by lia. subst i.
    rewrite (take_ge nodes) in Htake by lia.
    split; [assumption|]. split; [assumption|]. split; [assumption|lia].
  - assert (Hi : i < length nodes) by lia.
    assert (Hnode : arr !! i = nodes !! i).
    { replace i with (w + (i - w)) by lia.
      rewrite <- !lookup_drop, Hdrop. reflexivity. }
    destruct (lookup_lt_is_Some_2 nodes i Hi) as [node Hn].
    cbn [range_nodes]. rewrite Hnode, Hn.
    assert (Hti : take (S i) nodes = take i nodes ++ [node]) by (by apply take_S_r).
    destruct (bool_decide (Address node ∈ selected)) eqn:Hsel.
    + apply IH; [lia|lia|assumption| |assumption].
      rewrite Hti, List.filter_app. simpl. rewrite Hsel. simpl.
      rewrite app_nil_r. assumption.
    + apply IH; [lia|lia|by rewrite length_insert| |].
      * rewrite Hti, List.filter_app. simpl. rewrite Hsel. simpl.
        rewrite <- Htake.
        rewrite (take_S_r _ _ node) by (apply list_lookup_insert_eq; lia).
        rewrite take_insert_ge by lia. reflexivity.
      * rewrite drop_insert_lt by lia.
        rewrite <- (Nat.add_1_r w), <- !drop_drop, Hdrop. reflexivity.
Qed.

Lemma untried_selected (T : list string) (nodes : list N) :
  List.filter
    (fun n => negb (bool_decide
       (Address n ∈ fold_left (fun (m : gset string) b => {[ b ]} ∪ m) T ∅)))
    nodes
  = untried T nodes.
Proof.
  unfold untried. apply List.filter_ext. intros n. f_equal.
  apply bool_decide_ext. rewrite selected_spec, elem_of_empty. tauto.
Qed.

(** C7: the filter returns the node list unchanged when nothing was tried
    yet or when every node was tried, and otherwise exactly the untried
    nodes in their original order. *)
Theorem retry_filter_fails_open (c : Config.Endpoint) :
  exists f : NodeFilter N,
    Filters (NewRequestOptions c) = [f] /\
    forall (T : list string) (nodes : list N),
      f T nodes =
        if bool_decide (T = []) || bool_decide (untried T nodes = [])
        then nodes else untried T nodes.
Proof.
  exists retry_filter. split; [reflexivity|].
  intros T nodes. unfold retry_filter.
  destruct T as [|b T]; [reflexivity|].
  cbn [length Nat.eqb]. rewrite bool_decide_false by discriminate. cbn [orb].
  set (selected := fold_left _ (b :: T) ∅).
  destruct (range_nodes_spec selected nodes (length nodes) 0 0 nodes)
    as (Htake & Hdrop & Hlen & Hw); [lia|lia|reflexivity|reflexivity|reflexivity|].
  destruct (range_nodes selected (length nodes) 0 0 nodes) as [arr w].
  cbn [fst snd] in *.
  unfold selected in Htake. rewrite untried_selected in Htake.
  rewrite <- Htake.
  destruct w as [|w].
  - cbn [Nat.eqb]. rewrite take_0, bool_decide_true by reflexivity.
    rewrite !drop_0 in Hdrop. subst arr. apply take_ge. lia.
  - cbn [Nat.eqb]. rewrite bool_decide_false; [reflexivity|].
    intros E. apply (f_equal (@length N)) in E.
    rewrite length_take_le in E by lia. discriminate.
Qed.

End Filter.

End RequestFacts.

(* --------------------------------------------------------------------- *)
(** ** Discovery: node applier and watcher loop                           *)
(* --------------------------------------------------------------------- *)

Module ClientFacts.
Import Go Selector Client.

Section Discovery.
Variable url_Parse : string -> result URL.
Variable ParseInt : string -> Z * option error.

#[local] Abbreviation parseEndpoint := (parseEndpoint url_Parse).
#[local] Abbreviation instance_node := (instance_node url_Parse ParseInt).
#[local] Abbreviation build_nodes := (build_nodes url_Parse ParseInt).
#[local] Abbreviation Callback := (Callback url_Parse ParseInt).
#[local] Abbreviation secure_only := (secure_only url_Parse).

Lemma parseEndpoint_secure_only endpoints scheme :
  forallb (fun e => match url_Parse e with
                    | Ok u => if String.eqb (Scheme u) scheme then IsSecure u else true
                    | Err _ => true
                    end) endpoints = true ->
  parseEndpoint endpoints scheme false = Ok EmptyString \/
  exists err, parseEndpoint endpoints scheme false = Err err.
Proof.
  induction endpoints as [|e rest IH]; intros Hall; simpl in *.
  - left. reflexivity.
  - apply andb_true_iff in Hall as [He Hrest].
    destruct (url_Parse e) as [u|err]; [|right; eauto].
    destruct (String.eqb (Scheme u) scheme).
    + rewrite He. simpl. apply IH. assumption.
    + simpl. apply IH. assumption.
Qed.

Lemma instance_node_secure_only na scheme ser :
  secure_only scheme ser = true -> instance_node na scheme ser = None.
Proof.
  intros Hs. unfold Client.instance_node.
  destruct (parseEndpoint_secure_only _ _ Hs) as [-> | [err ->]]; reflexivity.
Qed.

Lemma instance_node_tls na scheme ser n :
  instance_node na scheme ser = Some n -> tls n = false.
Proof.
  unfold Client.instance_node.
  destruct (parseEndpoint _ _ _) as [addr|]; [|discriminate].
  destruct (String.eqb addr ""); [discriminate|].
  intros [= <-]. reflexivity.
Qed.

Lemma build_nodes_omap na scheme services : forall nodes,
  build_nodes na scheme services nodes =
    nodes ++ omap (instance_node na scheme) services.
Proof.
  induction services as [|ser rest IH]; intros nodes; simpl.
  - rewrite app_nil_r. reflexivity.
  - destruct (instance_node na scheme ser) as [n|]; rewrite IH.
    + rewrite <- app_assoc. reflexivity.
    + reflexivity.
Qed.

Lemma omap_tls na scheme services :
  Forall (fun n => tls n = false) (omap (instance_node na scheme) services).
Proof.
  induction services as [|ser rest IH]; simpl; [constructor|].
  destruct (instance_node na scheme ser) as [n|] eqn:E; [|assumption].
  constructor; [|assumption]. eapply instance_node_tls. exact E.
Qed.


(** C10: an empty instance list changes nothing: [Callback] returns
    without calling [Apply], and a turn of the update loop on an empty list
    leaves cache and subscribers as they were. *)
Theorem empty_notification_keeps_nodes (na : nodeApplier)
    (s : serviceWatcher) (ep : string) :
  Callback na [] = (if canceled na then Some ErrCancelWatch else None, na) /\
  picker (Callback na []).2 = picker na /\
  watch_turn url_Parse ParseInt ep (Ok []) s = (s, loop_continue).
Proof.
  unfold Client.Callback. destruct (canceled na); repeat split.
Qed.

End Discovery.


Example callback_demo :
  map (fun n => (address n, weight n, tls n, client n))
    (applied (picker (Callback demo_Parse demo_weight demo_applier
       [secure_instance; plain_instance]).2))
  = [("10.0.0.2:9000", Some 20%Z, false, h2c_client)].
Proof. vm_compute. reflexivity. Qed.

(** An instance list whose only instance is skipped still reaches
    [Apply], with no node at all. *)
Example callback_only_secure :
  picker (Callback demo_Parse demo_weight demo_applier [secure_instance]).2
  = {| applied := []; apply_calls := 1 |}.
Proof. vm_compute. reflexivity. Qed.

End ClientFacts.

(* --------------------------------------------------------------------- *)
(** ** Proxy: retry bookkeeping, error writer, done callbacks, reload     *)
(* --------------------------------------------------------------------- *)

Module ProxyFacts.
Import Go Http Selector Request Proxy.

(** *** Breaker and cancellation *)

Lemma markFailedStat_retry i err t :
  (0 < i)%Z ->
  markFailedStat i err t =
    if errors_Is err Canceled then t else retryStateIncr false t.
Proof.
  intros Hi. unfold markFailedStat.
  destruct (Z.leb_spec i 0); [lia|reflexivity].
Qed.

(** C3 (as amended): at a retry attempt, [markFailed] tells the breaker of
    one failure whatever the error is, a cancellation included; the
    cancellation is only left out of the retry-state counters, whose
    failure count goes up by one for every other error. *)
Theorem markFailed_canceled (i : Z) (err : error) (t : Telemetry) :
  (0 < i)%Z ->
  breaker_failed (markFailed i err t) = S (breaker_failed t) /\
  breaker_success (markFailed i err t) = breaker_success t /\
  retry_success (markFailed i err t) = retry_success t /\
  retry_failed (markFailed i err t) =
    if errors_Is err Canceled then retry_failed t else S (retry_failed t).
Proof.
  intros Hi. unfold markFailed. cbv zeta.
  rewrite markFailedStat_retry by exact Hi.
  apply Z.ltb_lt in Hi. rewrite Hi.
  destruct (errors_Is err Canceled); repeat split.
Qed.

Lemma markFailed_canceled_witness :
  breaker_failed (markFailed 1 (Wrap "Get http://10.0.0.1: context canceled" Canceled)
                    no_telemetry) = S (breaker_failed no_telemetry) /\
  breaker_success (markFailed 1 (Wrap "Get http://10.0.0.1: context canceled" Canceled)
                     no_telemetry) = breaker_success no_telemetry /\
  retry_success (markFailed 1 (Wrap "Get http://10.0.0.1: context canceled" Canceled)
                   no_telemetry) = retry_success no_telemetry /\
  retry_failed (markFailed 1 (Wrap "Get http://10.0.0.1: context canceled" Canceled)
                  no_telemetry) = retry_failed no_telemetry.
Proof.
  refine (markFailed_canceled 1
            (Wrap "Get http://10.0.0.1: context canceled" Canceled) no_telemetry _).
  lia.
Defined.

(** C3 (as stated) fails: at attempt 1 a cancelled error does reach the
    breaker. *)
Lemma breaker_counts_cancellation :
  ~ (forall (i : Z) (err : error) (t : Telemetry),
       (0 < i)%Z -> errors_Is err Canceled = true ->
       breaker_failed (markFailed i err t) = breaker_failed t).
Proof.
  intros H. specialize (H 1%Z Canceled no_telemetry ltac:(lia) eq_refl).
  discriminate H.
Qed.

(** The same in a whole request: the client goes away after a first
    attempt that asked for a retry. *)
Example handler_cancelled_retry :
  let w := (demo_handler client_leaves
              (fresh_world [backend_node "10.0.0.1:80"; backend_node "10.0.0.2:80"]
                 [0; 0] [Ok (reply 503 []); Ok (reply 200 [x68; x69])])).2 in
  telemetry w = {| retry_success := 0; retry_failed := 0;
                   breaker_success := 0; breaker_failed := 1 |} /\
  w_Status (writer w) = Some 499%Z.
Proof. vm_compute. split; reflexivity. Qed.

(** *** The error writer *)

(** A final status code, written to a writer that has none yet. *)
Lemma write_header_final (code : Z) (w : World) :
  w_Status (writer w) = None -> (200 <= code <= 999)%Z ->
  write_header code w =
    (Some tt,
     on_writer (fun _ => {| w_Header := w_Header (writer w);
                            w_Status := Some code;
                            w_Body := w_Body (writer w) |}) w).
Proof.
  intros Hs Hc. unfold write_header, WriteHeader. rewrite Hs.
  destruct (Z.ltb_spec code 100), (Z.ltb_spec 999 code), (Z.leb_spec code 199);
    try lia; reflexivity.
Qed.

Lemma error_status_range (err : error) : (200 <= error_status err <= 999)%Z.
Proof.
  unfold error_status.
  destruct (_ || _); [lia|]. destruct (errors_Is err DeadlineExceeded); lia.
Qed.

Section WriteError.
Variable ToGRPCCode : Z -> Z.

Lemma canon_literals :
  canon "Content-Type" = "Content-Type" /\
  canon "Grpc-Status" = "Grpc-Status" /\
  canon "Grpc-Message" = "Grpc-Message".
Proof. repeat split. Qed.

(** C6: the status written for an error is 499 for a cancellation or a
    client disconnect, else 504 for an exceeded deadline, else 502; for a
    gRPC endpoint the status is 200 and the error travels in the
    [Content-Type], [Grpc-Status] and [Grpc-Message] headers. *)
Theorem writeError_mapping (protocol : string) (err : error) (w : World) :
  w_Status (writer w) = None ->
  let rw := writer (writeError ToGRPCCode protocol err w).2 in
  let http :=
    if errors_Is err Canceled || String.eqb (Error err) "client disconnected"
    then 499%Z
    else if errors_Is err DeadlineExceeded then 504%Z else 502%Z in
  (writeError ToGRPCCode protocol err w).1 = Some tt /\
  (protocol <> "GRPC" ->
     w_Status rw = Some http /\ w_Header rw = w_Header (writer w)) /\
  (protocol = "GRPC" ->
     w_Status rw = Some 200%Z /\
     w_Header rw !! "Content-Type" = Some ["application/grpc"] /\
     w_Header rw !! "Grpc-Status" = Some [pretty (ToGRPCCode http)] /\
     w_Header rw !! "Grpc-Message" = Some [Error err]).
Proof.
  intros Hw. cbv zeta. unfold writeError.
  change (Config.Protocol_String Config.GRPC) with "GRPC".
  fold (error_status err).
  destruct (String.eqb_spec protocol "GRPC") as [-> | Hne].
  - unfold bind, modify.
    rewrite write_header_final by (first [exact Hw | lia]).
    split; [reflexivity|]. split; [intros []; reflexivity|]. intros _.
    cbn [fst snd on_writer requestsTotalIncr writer SetHeader
         w_Status w_Header].
    unfold Header_Set.
    destruct canon_literals as (-> & -> & ->).
    split; [reflexivity|].
    split; [|split].
    + rewrite !lookup_insert_ne by discriminate. apply lookup_insert_eq.
    + rewrite lookup_insert_ne by discriminate. apply lookup_insert_eq.
    + apply lookup_insert_eq.
  - unfold bind, modify.
    rewrite write_header_final by (first [exact Hw | apply error_status_range]).
    split; [reflexivity|]. split; [|intros E; contradiction]. intros _.
    split; reflexivity.
Qed.

End WriteError.

Lemma writeError_mapping_witness :
  let w := fresh_world [] [] [] in
  let err := Wrap "Post http://10.0.0.1: context deadline exceeded" DeadlineExceeded in
  let rw := writer (writeError demo_ToGRPCCode "GRPC" err w).2 in
  (writeError demo_ToGRPCCode "GRPC" err w).1 = Some tt /\
  ("GRPC" <> "GRPC" ->
     w_Status rw = Some 504%Z /\ w_Header rw = w_Header (writer w)) /\
  ("GRPC" = "GRPC" ->
     w_Status rw = Some 200%Z /\
     w_Header rw !! "Content-Type" = Some ["application/grpc"] /\
     w_Header rw !! "Grpc-Status" = Some [pretty (demo_ToGRPCCode 504)] /\
     w_Header rw !! "Grpc-Message" = Some [Error err]).
Proof.
  apply (writeError_mapping demo_ToGRPCCode "GRPC"
           (Wrap "Post http://10.0.0.1: context deadline exceeded" DeadlineExceeded)
           (fresh_world [] [] [])).
  reflexivity.
Defined.

Example writeError_statuses :
  map (fun err => w_Status (writer (writeError demo_ToGRPCCode "HTTP" err
                                      (fresh_world [] [] [])).2))
      [Canceled; Wrap "proxy: context canceled" Canceled;
       New "client disconnected"; DeadlineExceeded;
       New "dial tcp: connection refused"; New "no_available_node"]
  = [Some 499; Some 499; Some 499; Some 504; Some 502; Some 502]%Z.
Proof. vm_compute. reflexivity. Qed.

(** *** Done callbacks *)

(** C2 (failing input): two attempts, retry on 503, the first backend
    answers 503 and the second 200.  The selector handed out two callbacks
    (selections 0 and 1); only the second is ever called. *)
Theorem done_skipped_for_retried_node :
  let w := (demo_handler calm
              (fresh_world [backend_node "10.0.0.1:80"; backend_node "10.0.0.2:80"]
                 [0; 0] [Ok (reply 503 []); Ok (reply 200 [x68; x69])])).2 in
  map Client.address (select_log w) = ["10.0.0.1:80"; "10.0.0.2:80"] /\
  done_calls w = [(1, {| di_Err := None; di_ReplyMD := Some ∅ |})] /\
  w_Status (writer w) = Some 200%Z.
Proof. vm_compute. repeat split. Qed.

(** A failed transport call does report to its own callback. *)
Example done_on_transport_error :
  let w := (demo_handler calm
              (fresh_world [backend_node "10.0.0.1:80"; backend_node "10.0.0.2:80"]
                 [0; 0] [Err (New "boom"); Ok (reply 200 [x68; x69])])).2 in
  done_calls w = [(0, {| di_Err := Some (New "boom"); di_ReplyMD := None |});
                  (1, {| di_Err := None; di_ReplyMD := Some ∅ |})].
Proof. vm_compute. reflexivity. Qed.

(** *** Hot reload *)

Section Update.
Context {Condition : Type}.
Variable ParseConditon : list string -> result (list Condition).
Variable route_error : Matchers -> option error.
Variable clientFactory : Config.Endpoint -> option error.
Variable middlewareFactory : Config.Middleware -> option error.

#[local] Abbreviation buildMiddleware := (buildMiddleware middlewareFactory).
#[local] Abbreviation buildMiddleware_from_last := (buildMiddleware_from_last middlewareFactory).
#[local] Abbreviation middlewares_ok := (middlewares_ok middlewareFactory).
#[local] Abbreviation buildEndpoint :=
  (buildEndpoint ParseConditon clientFactory middlewareFactory).
#[local] Abbreviation update_loop :=
  (update_loop ParseConditon route_error clientFactory middlewareFactory).
#[local] Abbreviation Update :=
  (Update ParseConditon route_error clientFactory middlewareFactory).
#[local] Abbreviation endpoint_ok :=
  (endpoint_ok ParseConditon route_error clientFactory middlewareFactory).
#[local] Abbreviation BuildWorld := (@Proxy.BuildWorld Condition).
#[local] Abbreviation ProxyCell := (@Proxy.Proxy Condition).

Lemma forallb_rev {A} (f : A -> bool) (l : list A) :
  forallb f (rev l) = forallb f l.
Proof.
  induction l as [|x l IH]; [reflexivity|].
  simpl. rewrite forallb_app, IH. simpl. rewrite andb_true_r, andb_comm. reflexivity.
Qed.

Lemma buildMiddleware_from_last_result ms : forall next,
  if forallb (fun m => match middlewareFactory m with
                       | None => true
                       | Some err => errors_Is err ErrNotFound
                       end) ms
  then exists t, buildMiddleware_from_last ms next = Ok t
  else exists err, buildMiddleware_from_last ms next = Err err.
Proof.
  induction ms as [|m ms IH]; intros next; simpl.
  - eauto.
  - destruct (middlewareFactory m) as [err|]; simpl.
    + destruct (errors_Is err ErrNotFound); simpl; [apply IH|eauto].
    + apply IH.
Qed.

Lemma buildMiddleware_result ms next :
  if middlewares_ok ms
  then exists t, buildMiddleware ms next = Ok t
  else exists err, buildMiddleware ms next = Err err.
Proof.
  unfold Proxy.middlewares_ok, Proxy.buildMiddleware.
  rewrite <- forallb_rev. apply buildMiddleware_from_last_result.
Qed.

(** The three ways [buildEndpoint] can end: no client; a client that is
    closed again because a later step failed; a handler and its closer. *)
Lemma buildEndpoint_cases e ms (w : BuildWorld) :
  (exists err, clientFactory e = Some err /\
     buildEndpoint e ms w = (Some (Err err), w)) \/
  (exists err, clientFactory e = None /\
     middlewares_ok (Config.ep_Middlewares e) && middlewares_ok ms &&
       match parseRetryConditon ParseConditon e with
       | Ok _ => true | Err _ => false end = false /\
     buildEndpoint e ms w =
       (Some (Err err),
        {| created := created w ++ [length (created w)];
           closed := closed w ++ [length (created w)];
           closing := closing w |})) \/
  (exists h, clientFactory e = None /\
     middlewares_ok (Config.ep_Middlewares e) && middlewares_ok ms &&
       match parseRetryConditon ParseConditon e with
       | Ok _ => true | Err _ => false end = true /\
     buildEndpoint e ms w =
       (Some (Ok (h, length (created w))),
        {| created := created w ++ [length (created w)];
           closed := closed w;
           closing := closing w |})).
Proof.
  unfold Proxy.buildEndpoint.
  destruct (clientFactory e) as [err|] eqn:Hc.
  { left. eauto. }
  right.
  unfold bind, new_client, closeOnError, Close, modify, ret.
  pose proof (buildMiddleware_result (Config.ep_Middlewares e)
                (ClientTripper (length (created w)))) as H1.
  destruct (middlewares_ok (Config.ep_Middlewares e)) eqn:E1.
  - destruct H1 as [t1 ->].
    pose proof (buildMiddleware_result ms t1) as H2.
    destruct (middlewares_ok ms) eqn:E2.
    + destruct H2 as [t2 ->]. unfold prepareRetryStrategy.
      destruct (parseRetryConditon ParseConditon e) as [cs|err] eqn:E3.
      * right. eexists. split; [reflexivity|]. split; reflexivity.
      * left. exists err. split; [reflexivity|]. split; reflexivity.
    + destruct H2 as [err ->].
      left. exists err. split; [reflexivity|]. split; reflexivity.
  - destruct H1 as [err ->].
    left. exists err. split; [reflexivity|]. split; reflexivity.
Qed.

Lemma endpoint_ok_unfold ms e :
  endpoint_ok ms e =
    bool_decide (clientFactory e = None) &&
    (middlewares_ok (Config.ep_Middlewares e) && middlewares_ok ms &&
     match parseRetryConditon ParseConditon e with
     | Ok _ => true | Err _ => false end) &&
    bool_decide (route_error (endpoint_matchers e) = None).
Proof.
  unfold Proxy.endpoint_ok. rewrite !andb_assoc. reflexivity.
Qed.

(** The loop of [Update]: what it created, closed and left deferred. *)
Lemma update_loop_spec ms eps : forall r defers (w : BuildWorld),
  exists res r' defers' w' new,
    update_loop eps ms r defers w = (Some (res, r', defers'), w') /\
    created w' = created w ++ new /\
    closing w' = closing w /\
    closed w' ++ defers' = closed w ++ rev new ++ defers /\
    match res with
    | Some _ => forallb (endpoint_ok ms) eps = false
    | None =>
      forallb (endpoint_ok ms) eps = true /\
      closed w' = closed w /\
      allCloser r' = allCloser r ++ new /\
      length new = length eps /\
      map rt_matchers (routes r') =
        map rt_matchers (routes r) ++ map endpoint_matchers eps
    end.
Proof.
  induction eps as [|e eps IH]; intros r defers w.
  - exists None, r, defers, w, []. simpl.
    rewrite !app_nil_r. repeat split.
  - cbn [Proxy.update_loop forallb]. unfold bind at 1.
    rewrite endpoint_ok_unfold.
    destruct (buildEndpoint_cases e ms w)
      as [(err & Hc & ->)|[(err & Hc & Hb & ->)|(h & Hc & Hb & ->)]].
    + exists (Some err), r, defers, w, []. rewrite Hc. simpl.
      rewrite !app_nil_r. repeat split.
    + eexists (Some err), r, defers, _, [length (created w)].
      split; [reflexivity|]. cbn [created closed closing].
      rewrite Hb, andb_false_r. simpl. rewrite <- app_assoc. repeat split.
    + rewrite Hc, Hb. rewrite bool_decide_true by reflexivity. cbn [andb].
      unfold Proxy.Handle. cbn [rt_matchers].
      fold (endpoint_matchers e).
      destruct (route_error (endpoint_matchers e)) as [err|] eqn:Hr.
      * eexists (Some err), _, _, _, [length (created w)].
        split; [reflexivity|]. cbn [created closed closing].
        rewrite bool_decide_false by discriminate. simpl. repeat split.
      * rewrite bool_decide_true by reflexivity. cbn [andb].
        match goal with |- context [update_loop eps ms ?r1 ?d1 ?w1] =>
          destruct (IH r1 d1 w1) as (res & r' & defers' & w' & new & Heq & Hcr & Hcl & Hd & Hres)
        end.
        exists res, r', defers', w', (length (created w) :: new).
        split; [exact Heq|]. cbn [created closed closing] in *.
        split; [rewrite Hcr, <- app_assoc; reflexivity|].
        split; [exact Hcl|].
        split.
        { rewrite Hd. cbn [rev]. rewrite <- !app_assoc. reflexivity. }
        destruct res as [err|]; [exact Hres|].
        destruct Hres as (Hall & Hclosed & Hclosers & Hlen & Hroutes).
        cbn [allCloser routes] in *.
        split; [exact Hall|]. split; [exact Hclosed|].
        split; [rewrite Hclosers, <- app_assoc; reflexivity|].
        split; [simpl; lia|].
        rewrite Hroutes, map_app, <- app_assoc. reflexivity.
Qed.

Lemma run_defers_error defers err (w : BuildWorld) :
  run_defers defers (Some err) w =
    (Some tt, {| created := created w; closed := closed w ++ defers;
                 closing := closing w |}).
Proof.
  revert w. induction defers as [|c defers IH]; intros w.
  - simpl. rewrite app_nil_r. destruct w; reflexivity.
  - cbn [run_defers closeOnError]. unfold bind, Close, modify.
    rewrite IH. cbn [created closed closing]. rewrite <- app_assoc. reflexivity.
Qed.

Lemma run_defers_nil defers (w : BuildWorld) :
  run_defers defers None w = (Some tt, w).
Proof.
  revert w. induction defers as [|c defers IH]; intros w; [reflexivity|].
  cbn [run_defers closeOnError]. unfold bind, ret. apply IH.
Qed.

(** C1: an update either installs a router that holds every configured
    endpoint, or it returns the error, leaves the installed router in
    place and has closed every client it created; the two cases are told
    apart by whether every endpoint builds and registers. *)
Theorem Update_all_or_nothing (p : ProxyCell) (c : Config.Gateway)
    (w : BuildWorld) :
  exists (res : option error) (p' : ProxyCell)
         (w' : BuildWorld) (new : list nat),
    Update p c w = (Some (res, p'), w') /\
    created w' = created w ++ new /\
    match res with
    | Some _ =>
      forallb (endpoint_ok (Config.gw_Middlewares c)) (Config.gw_Endpoints c) = false /\
      router p' = router p /\
      closed w' = closed w ++ rev new /\
      closing w' = closing w
    | None =>
      forallb (endpoint_ok (Config.gw_Middlewares c)) (Config.gw_Endpoints c) = true /\
      closed w' = closed w /\
      closing w' = closing w ++ [router p] /\
      allCloser (router p') = new /\
      length new = length (Config.gw_Endpoints c) /\
      map rt_matchers (routes (router p')) =
        map rt_matchers (routes (@NewRouter Condition)) ++
        map endpoint_matchers (Config.gw_Endpoints c)
    end.
Proof.
  unfold Proxy.Update, bind at 1.
  destruct (update_loop_spec (Config.gw_Middlewares c) (Config.gw_Endpoints c)
              (@NewRouter Condition) [] w)
    as (res & r' & defers' & w' & new & -> & Hcr & Hcl & Hd & Hres).
  rewrite app_nil_r in Hd.
  destruct res as [err|].
  - unfold bind. rewrite run_defers_error. unfold ret.
    eexists (Some err), p, _, new. split; [reflexivity|].
    cbn [created closed closing]. rewrite Hd.
    split; [exact Hcr|]. repeat split; assumption.
  - destruct Hres as (Hall & Hclosed & Hclosers & Hlen & Hroutes).
    unfold bind, tryCloseRouter, modify. rewrite run_defers_nil. unfold ret.
    eexists None, _, _, new. split; [reflexivity|].
    cbn [created closed closing router].
    split; [exact Hcr|]. rewrite Hcl.
    repeat split; assumption.
Qed.

End Update.

End ProxyFacts.

(* --------------------------------------------------------------------- *)
(** ** More on cleaned paths, and [stripPrefix]                           *)
(* --------------------------------------------------------------------- *)

Module PathExtra.
Import Path PathFacts Rewrite.

Lemma is_slash_slash : is_slash slash = true.
Proof. reflexivity. Qed.

Lemma double_slash_elem e r :
  no_slash e -> e <> [] -> double_slash (e ++ r) = double_slash r.
Proof.
  intros He. induction e as [|c e IH]; intros Hne; [contradiction|].
  inversion He as [|? ? Hc He']; subst.
  cbn [app double_slash]. rewrite Hc. cbn [andb orb].
  destruct e as [|d e]; [reflexivity|]. apply IH; [assumption|discriminate].
Qed.

Lemma double_slash_joinS segs t :
  Forall good segs -> double_slash t = false ->
  match t with c :: _ => segs <> [] | [] => True end ->
  double_slash (joinS segs ++ t) = false.
Proof.
  induction segs as [|e segs IH]; intros Hs Ht Hnil.
  - exact Ht.
  - inversion Hs as [|? ? (Hne & Hns & _) Hs']; subst.
    cbn [joinS app double_slash]. rewrite is_slash_slash. cbn [andb].
    rewrite <- app_assoc.
    destruct e as [|c e]; [contradiction|].
    inversion Hns as [|? ? Hc _]; subst. cbn [app]. rewrite Hc. cbn [orb].
    change (c :: e ++ joinS segs ++ t) with ((c :: e) ++ joinS segs ++ t).
    rewrite double_slash_elem by (assumption || discriminate).
    destruct segs as [|e' segs].
    + cbn [joinS app]. exact Ht.
    + apply IH; [assumption|assumption|]. destruct t; [exact I|discriminate].
Qed.

Lemma fwd_double_slash st t :
  Forall good st -> (t = [] \/ (t = [slash] /\ st <> [])) ->
  double_slash (fwd st ++ t) = false.
Proof.
  intros Hst Ht. destruct st as [|e st].
  - destruct Ht as [-> | [_ Hne]]; [reflexivity|contradiction].
  - cbn [fwd]. apply double_slash_joinS.
    + apply List.Forall_rev. assumption.
    + destruct Ht as [-> | [-> _]]; reflexivity.
    + destruct t; [exact I|]. intros E.
      apply (f_equal (@length (list ascii))) in E.
      rewrite length_rev in E. discriminate.
Qed.

Lemma fwd_head st : exists t, fwd st = slash :: t.
Proof. destruct st as [|e st]; [exists []; reflexivity|apply fwd_cons_head]. Qed.

(** X1: whatever the request path, the path that the router dispatches on
    starts with a slash, has no two slashes in a row, and is the root or a
    sequence of elements none of which is empty, [.] or [..], with at most
    one slash after it. *)
Theorem cleanPath_normal_form (p : list ascii) :
  (exists t, cleanPath p = slash :: t) /\
  double_slash (cleanPath p) = false /\
  exists segs, Forall good segs /\
    (cleanPath p = [slash] \/
     (segs <> [] /\ (cleanPath p = joinS segs \/ cleanPath p = joinS segs ++ [slash]))).
Proof.
  destruct (cleanPath_shape p) as (st & Hst & E). rewrite E.
  destruct st as [|e st].
  - rewrite andb_false_r. change (fwd []) with [slash].
    split; [eauto|]. split; [reflexivity|].
    exists []. split; [constructor|]. left. reflexivity.
  - inversion Hst; subst.
    unfold bytes_eqb. rewrite bool_decide_false by (by apply fwd_cons_not_root).
    rewrite andb_true_r.
    assert (Hne : rev (e :: st) <> []).
    { intros E'. apply (f_equal (@length (list ascii))) in E'.
      rewrite length_rev in E'. discriminate. }
    destruct (fwd_cons_head e st) as (u & Eu).
    destruct (ends_with_slash p).
    + split; [rewrite Eu; eauto|].
      split; [apply fwd_double_slash; [assumption|right; split; [reflexivity|discriminate]]|].
      exists (rev (e :: st)). split; [by apply List.Forall_rev|].
      right. split; [assumption|]. right. reflexivity.
    + split; [rewrite Eu; eauto|].
      split; [rewrite <- (app_nil_r (fwd (e :: st))); apply fwd_double_slash; auto|].
      exists (rev (e :: st)). split; [by apply List.Forall_rev|].
      right. split; [assumption|]. left. reflexivity.
Qed.

Example stripPrefix_ex1 : stripPrefix (s "/api/v1/users") (s "/api") = s "/v1/users".
Proof. vm_compute. reflexivity. Qed.
Example stripPrefix_ex2 : stripPrefix (s "/api") (s "/api") = s "/".
Proof. vm_compute. reflexivity. Qed.
Example stripPrefix_ex3 : stripPrefix (s "/apiary/./x") (s "/api") = s "/ary/x".
Proof. vm_compute. reflexivity. Qed.
Example stripPrefix_ex4 : stripPrefix (s "/other/../x") (s "/api") = s "/other/../x".
Proof. vm_compute. reflexivity. Qed.

(** X2: [stripPrefix] never returns the empty path: for every path and
    every prefix the result begins with a slash; and when the path is the
    prefix followed by a rooted rest, the result is that rest, untouched. *)
Theorem stripPrefix_rooted (origin pre : list ascii) :
  (exists t, stripPrefix origin pre = slash :: t) /\
  (forall rest, stripPrefix (pre ++ slash :: rest) pre = slash :: rest).
Proof.
  split.
  - unfold stripPrefix. destruct (TrimPrefix origin pre) as [|c out]; [eauto|].
    destruct (is_slash c) eqn:Hc; cbn [negb].
    + apply is_slash_eq in Hc. subst. eauto.
    + unfold Join. cbn [fold_left length Nat.add Nat.eqb join_buf].
      change (bytes_eqb [slash] []) with false. cbn [negb orb Nat.ltb Nat.leb app].
      cbn [length orb app].
      destruct (Clean_rooted_canonical (slash :: c :: out)) as (st & _ & ->).
      apply fwd_head.
  - intros rest. unfold stripPrefix, TrimPrefix.
    assert (Hp : forall a b, has_prefix (a ++ b) a = true).
    { induction a as [|x a IH]; intros b; [destruct b; reflexivity|].
      simpl. rewrite Ascii.eqb_refl. apply IH. }
    rewrite Hp, drop_app_length. rewrite is_slash_slash. reflexivity.
Qed.

End PathExtra.

(* --------------------------------------------------------------------- *)
(** ** More on the retry-exclusion filter                                 *)
(* --------------------------------------------------------------------- *)

Module FilterExtra.
Import Go Selector Request RequestFacts.

Section Filter.
Context {N : Type} `{Node N}.

(** The value of the filter, as a function of the tried addresses. *)
Lemma retry_filter_eq (T : list string) (nodes : list N) :
  retry_filter T nodes =
    match T, untried T nodes with
    | [], _ => nodes
    | _, [] => nodes
    | _, kept => kept
    end.
Proof.
  unfold retry_filter. destruct T as [|b T]; [reflexivity|].
  cbn [length Nat.eqb].
  set (selected := fold_left _ (b :: T) ∅).
  destruct (range_nodes_spec selected nodes (length nodes) 0 0 nodes)
    as (Htake & Hdrop & Hlen & Hw); [lia|lia|reflexivity|reflexivity|reflexivity|].
  destruct (range_nodes selected (length nodes) 0 0 nodes) as [arr w].
  cbn [fst snd] in *.
  unfold selected in Htake. rewrite untried_selected in Htake.
  rewrite <- Htake.
  destruct w as [|w].
  - cbn [Nat.eqb]. rewrite take_0. rewrite !drop_0 in Hdrop. subst arr.
    apply take_ge. lia.
  - cbn [Nat.eqb]. destruct (take (S w) arr) eqn:E; [|reflexivity].
    apply (f_equal (@length N)) in E.
    rewrite length_take_le in E by lia. discriminate.
Qed.

Lemma untried_sublist (T : list string) (nodes : list N) :
  sublist (untried T nodes) nodes.
Proof.
  unfold untried. induction nodes as [|n nodes IH]; simpl; [constructor|].
  destruct (negb _); [by apply sublist_skip|by apply sublist_cons].
Qed.

Lemma untried_untried (T : list string) (nodes : list N) :
  untried T (untried T nodes) = untried T nodes.
Proof.
  unfold untried. induction nodes as [|n nodes IH]; simpl; [reflexivity|].
  destruct (negb _) eqn:E; [|exact IH]. simpl. rewrite E, IH. reflexivity.
Qed.

Lemma elem_of_untried (T : list string) (nodes : list N) (n : N) :
  n ∈ untried T nodes <-> n ∈ nodes /\ Address n ∉ T.
Proof.
  unfold untried. rewrite (list_elem_of_In (List.filter _ _)), filter_In.
  rewrite negb_true_iff, bool_decide_eq_false, (list_elem_of_In nodes).
  reflexivity.
Qed.

(** X3: the filter only ever drops nodes (what it returns is a sublist of
    what it was given, in the same order), it never turns a non-empty node
    list into an empty one, and applying it twice is the same as applying
    it once. *)
Theorem retry_filter_never_starves (T : list string) (nodes : list N) :
  sublist (retry_filter T nodes) nodes /\
  (retry_filter T nodes = [] <-> nodes = []) /\
  retry_filter T (retry_filter T nodes) = retry_filter T nodes.
Proof.
  rewrite !retry_filter_eq.
  destruct T as [|b T].
  - split; [reflexivity|]. split; reflexivity.
  - destruct (untried (b :: T) nodes) as [|k kept] eqn:E.
    + split; [reflexivity|]. split; [reflexivity|]. rewrite E. reflexivity.
    + split; [rewrite <- E; apply untried_sublist|]. split.
      * split; [discriminate|]. intros ->. discriminate E.
      * rewrite <- E, untried_untried, E. reflexivity.
Qed.

End Filter.

End FilterExtra.

(* --------------------------------------------------------------------- *)
(** ** The request handler over the client transport                      *)
(* --------------------------------------------------------------------- *)

Module HandlerExtra.
Import Go Http Selector Request Proxy.

(** The nodes that [Select] chooses among. *)
Lemma Select_cases (w : World) :
  (exists err, Select w = (Some (Err err), w)) \/
  (exists n, Select w = (Some (Ok (n, Some (length (select_log w)))), log_select n w) /\
     n ∈ fold_left (fun ns f => f (Backends (reqOpts w)) ns)
           (Filters (reqOpts w)) (sel_nodes w)).
Proof.
  unfold Select.
  destruct (_ !! _) as [n|] eqn:E; [right|left; eauto].
  exists n. split; [reflexivity|]. eapply list_elem_of_lookup_2. exact E.
Qed.

(** What one call of [client.RoundTrip] does to the store. *)
Lemma RoundTrip_effect (req : Request) (w : World) :
  exists r w', RoundTrip req w = (Some r, w') /\
    writer w' = writer w /\ telemetry w' = telemetry w /\
    code_total w' = code_total w /\ sel_nodes w' = sel_nodes w /\
    Filters (reqOpts w') = Filters (reqOpts w) /\
    ((w' = w /\ exists err, r = Err err) \/
     (exists n,
        n ∈ fold_left (fun ns f => f (Backends (reqOpts w)) ns)
              (Filters (reqOpts w)) (sel_nodes w) /\
        select_log w' = select_log w ++ [n] /\
        Backends (reqOpts w') = Backends (reqOpts w) ++ [Address n] /\
        ((exists err, r = Err err /\
            done_calls w' = done_calls w ++
              [(length (select_log w), {| di_Err := Some err; di_ReplyMD := None |})] /\
            DoneFunc (reqOpts w') = DoneFunc (reqOpts w)) \/
         (exists resp, r = Ok resp /\
            done_calls w' = done_calls w /\
            DoneFunc (reqOpts w') = Some (length (select_log w)))))).
Proof.
  unfold RoundTrip, bind at 1.
  destruct (Select_cases w) as [(err & ->)|(n & -> & Hn)].
  - exists (Err err), w. repeat split. left. split; [reflexivity|eauto].
  - unfold bind, modify, Do, get, call_done, ret.
    cbn [backend on_reqOpts log_select].
    destruct (backend w) as [|[resp|err] rest] eqn:Hb.
    + eexists _, _. split; [reflexivity|]. cbn.
      repeat split. right. exists n. split; [exact Hn|].
      split; [reflexivity|]. split; [reflexivity|]. left. eauto.
    + eexists _, _. split; [reflexivity|]. cbn.
      repeat split. right. exists n. split; [exact Hn|].
      split; [reflexivity|]. split; [reflexivity|]. right. eauto.
    + eexists _, _. split; [reflexivity|]. cbn.
      repeat split. right. exists n. split; [exact Hn|].
      split; [reflexivity|]. split; [reflexivity|]. left. eauto.
Qed.

(** Where the answer of [client.RoundTrip] comes from. *)
Lemma RoundTrip_answer (req : Request) (w : World) :
  exists r w', RoundTrip req w = (Some r, w') /\
    (backend w' = backend w \/ exists a, backend w = a :: backend w') /\
    (forall resp, r = Ok resp -> exists rest, backend w = Ok resp :: rest).
Proof.
  unfold RoundTrip, bind at 1.
  destruct (Select_cases w) as [(err & ->)|(n & -> & Hn)].
  - eexists _, _. split; [reflexivity|]. split; [left; reflexivity|discriminate].
  - unfold bind, modify, Do, get, call_done, ret.
    cbn [backend on_reqOpts log_select].
    destruct (backend w) as [|[resp|err] rest] eqn:Hb.
    + eexists _, _. split; [reflexivity|]. cbn. rewrite Hb.
      split; [left; reflexivity|discriminate].
    + eexists _, _. split; [reflexivity|]. cbn. rewrite Hb.
      split; [right; eauto|]. intros r [= <-]. eauto.
    + eexists _, _. split; [reflexivity|]. cbn.
      destruct n; cbn; rewrite Hb; split; [right; eauto|discriminate].
Qed.

(** What one call of [client.RoundTrip] records in the request options. *)
Lemma RoundTrip_records (req : Request) (w : World) :
  exists r w', RoundTrip req w = (r, w') /\
  Endpoint (reqOpts w') = Endpoint (reqOpts w) /\
  (w' = w \/
   exists n,
     select_log w' = select_log w ++ [n] /\
     Backends (reqOpts w') = Backends (reqOpts w) ++ [Address n] /\
     length (UpstreamStatusCode (reqOpts w')) =
       S (length (UpstreamStatusCode (reqOpts w))) /\
     length (UpstreamResponseTime (reqOpts w')) =
       S (length (UpstreamResponseTime (reqOpts w))) /\
     CurrentNode (reqOpts w') = Some n).
Proof.
  unfold RoundTrip, bind at 1.
  destruct (Select_cases w) as [(err & ->)|(n & -> & Hn)].
  - eexists _, _. split; [reflexivity|]. split; [reflexivity|]. left. reflexivity.
  - unfold bind, modify, Do, get, call_done, ret.
    cbn [backend on_reqOpts log_select].
    destruct (backend w) as [|[resp|err] rest] eqn:Hb;
      (eexists _, _; split; [reflexivity|]; cbn; split; [reflexivity|];
       right; exists n; rewrite !length_app; cbn; repeat split; lia).
Qed.

Section Loop.
Context {Condition : Type}.
Variable JudgeConditons : list Condition -> Response -> bool -> bool.
Variable env : Env.
Variable strategy : @retryStrategy Condition.

#[local] Abbreviation loop :=
  (attempt_loop JudgeConditons env strategy RoundTrip).

(** An invariant of the store that the three kinds of step of the attempt
    loop keep is kept by the loop, and the loop never panics. *)
Lemma attempt_loop_invariant (I : World -> Prop) :
  (forall f w, I w -> I (on_telemetry f w)) ->
  (forall w, I w -> I (on_reqOpts with_LastAttempt w)) ->
  (forall req w, I w -> I (RoundTrip req w).2) ->
  forall k req body i resp err w, I w ->
  exists out w', loop req body k i resp err w = (Some out, w') /\ I w'.
Proof.
  intros Ht Hl Hr. induction k as [|k IH]; intros req body i resp err w Hw.
  - eexists _, _. split; [reflexivity|exact Hw].
  - cbn [attempt_loop].
    destruct ((0 <? i)%Z && negb (retry_enabled env)).
    { eexists _, _. split; [reflexivity|exact Hw]. }
    destruct (if (0 <? i)%Z then breaker_Allow env i else None) as [berr|].
    { eexists _, _. split; [reflexivity|]. apply Ht. exact Hw. }
    unfold bind at 1.
    set (w1 := ((if (attempts strategy <=? i + 1)%Z
                 then modify (on_reqOpts with_LastAttempt) else ret tt) w).2).
    assert (Hw1 : I w1).
    { unfold w1. destruct (attempts strategy <=? i + 1)%Z; [apply Hl|]; exact Hw. }
    assert (E1 : (if (attempts strategy <=? i + 1)%Z
                  then modify (on_reqOpts with_LastAttempt) else ret tt) w
                 = (Some tt, w1)).
    { unfold w1. destruct (attempts strategy <=? i + 1)%Z; reflexivity. }
    rewrite E1. clearbody w1.
    destruct (ctx_Err env i) as [cerr|].
    { eexists _, _. split; [reflexivity|]. apply Ht. exact Hw1. }
    unfold bind at 1.
    match goal with |- context [RoundTrip ?r w1] =>
      pose proof (Hr r w1 Hw1) as Hw2;
      destruct (RoundTrip_effect r w1) as (res & w2 & E2 & _);
      rewrite E2 in *; cbn [snd] in Hw2 end.
    destruct res as [rsp|terr].
    + destruct (negb (judgeRetryRequired JudgeConditons (conditions strategy) rsp)).
      * eexists _, _. split; [reflexivity|]. apply Ht, Hl. exact Hw2.
      * unfold bind at 1, modify. apply IH. apply Ht. exact Hw2.
    + unfold bind at 1, modify. apply IH. apply Ht. exact Hw2.
Qed.

(** One turn of the loop, step by step. *)
Lemma attempt_loop_S k req body i resp err w :
  loop req body (S k) i resp err w =
    if (0 <? i)%Z && negb (retry_enabled env) then (Some (resp, err), w)
    else
      match (if (0 <? i)%Z then breaker_Allow env i else None) with
      | Some berr => (Some (resp, err), on_telemetry (markFailed i berr) w)
      | None =>
        let w1 := if (attempts strategy <=? i + 1)%Z
                  then on_reqOpts with_LastAttempt w else w in
        match ctx_Err env i with
        | Some cerr =>
          (Some (resp, Some cerr), on_telemetry (markFailed i cerr) w1)
        | None =>
          let req' :=
            {| req_Method := req_Method req; req_Host := req_Host req;
               req_URL_Scheme := req_URL_Scheme req;
               req_URL_Host := req_URL_Host req;
               req_RequestURI := req_RequestURI req;
               req_RemoteAddr := req_RemoteAddr req;
               req_Header := req_Header req;
               req_ContentLength := req_ContentLength req;
               req_Body := NewReader body;
               req_Endpoint := req_Endpoint req |} in
          match RoundTrip req' w1 with
          | (Some (Err terr), w2) =>
            loop req' body k (i + 1) None (Some terr)
              (on_telemetry (markFailed i terr) w2)
          | (Some (Ok rsp), w2) =>
            if negb (judgeRetryRequired JudgeConditons (conditions strategy) rsp)
            then (Some (Some rsp, None),
                  on_telemetry (markSuccess i) (on_reqOpts with_LastAttempt w2))
            else loop req' body k (i + 1) (Some rsp) None
                   (on_telemetry (markFailed i (New "assertion failed")) w2)
          | (None, w2) => (None, w2)
          end
        end
      end.
Proof.
  cbn [attempt_loop].
  destruct ((0 <? i)%Z && negb (retry_enabled env)); [reflexivity|].
  destruct (if (0 <? i)%Z then breaker_Allow env i else None); [reflexivity|].
  cbv zeta. unfold bind at 1.
  destruct (attempts strategy <=? i + 1)%Z; cbn [modify ret];
    (destruct (ctx_Err env i); [reflexivity|]);
    unfold bind at 1;
    (destruct (RoundTrip _ _) as [[[rsp|terr]|] w2]; [|reflexivity|reflexivity]);
    (destruct (negb _); reflexivity).
Qed.

(** The cases of one turn, for proofs by induction on the turns left:
    the loop stops with what it holds, stops with the context's error,
    stops with a response, or goes on after one call of the transport. *)
Ltac loop_turn k IH :=
  rewrite attempt_loop_S;
  destruct ((0 <? _)%Z && negb (retry_enabled env)) eqn:?;
  [|destruct (if (0 <? _)%Z then breaker_Allow env _ else None) eqn:?;
    [|cbv zeta;
      match goal with |- context [RoundTrip ?r ?w1] =>
        destruct (ctx_Err env _) eqn:?;
        [|let res := fresh "res" in
          let w2 := fresh "w2" in
          let E2 := fresh "E2" in
          let Hw := fresh "Hwriter" in
          let Ht := fresh "Htel" in
          let Hc := fresh "Hcode" in
          let Hn := fresh "Hnodes" in
          let Hf := fresh "Hfilters" in
          let Hcases := fresh "Hcases" in
          destruct (RoundTrip_effect r w1)
            as (res & w2 & E2 & Hw & Ht & Hc & Hn & Hf & Hcases);
          rewrite E2;
          destruct res as [?rsp|?terr];
          [destruct (negb (judgeRetryRequired _ _ _)) eqn:?|]]
      end]].

(** The loop never makes more than [k] calls of the transport. *)
Lemma attempt_loop_selections k : forall req body i resp err w,
  length (select_log (loop req body k i resp err w).2) <= length (select_log w) + k.
Proof.
  induction k as [|k IH]; intros req body i resp err w; [simpl; lia|].
  loop_turn k IH; cbn [snd select_log on_telemetry on_reqOpts].
  - lia.
  - lia.
  - destruct (attempts strategy <=? i + 1)%Z; simpl; lia.
  - assert (length (select_log w2) <= S (length (select_log w))); [|lia].
    destruct Hcases as [[-> _]|(n & _ & -> & _)]; [|rewrite length_app];
      destruct (attempts strategy <=? i + 1)%Z; simpl; lia.
  - match goal with |- context [attempt_loop _ _ _ _ ?a ?b _ ?c ?d ?e ?w3] =>
      specialize (IH a b c d e w3); cbn [select_log on_telemetry] in IH end.
    assert (length (select_log w2) <= S (length (select_log w))); [|lia].
    destruct Hcases as [[-> _]|(n & _ & -> & _)]; [|rewrite length_app];
      destruct (attempts strategy <=? i + 1)%Z; simpl; lia.
  - match goal with |- context [attempt_loop _ _ _ _ ?a ?b _ ?c ?d ?e ?w3] =>
      specialize (IH a b c d e w3); cbn [select_log on_telemetry] in IH end.
    assert (length (select_log w2) <= S (length (select_log w))); [|lia].
    destruct Hcases as [[-> _]|(n & _ & -> & _)]; [|rewrite length_app];
      destruct (attempts strategy <=? i + 1)%Z; simpl; lia.
Qed.

(** With the retry feature off the loop stops before a second attempt. *)
Lemma attempt_loop_no_retry k req body i resp err w :
  retry_enabled env = false -> (0 < i)%Z ->
  loop req body k i resp err w = (Some (resp, err), w).
Proof.
  intros Hr Hi. destruct k; [reflexivity|].
  rewrite attempt_loop_S. apply Z.ltb_lt in Hi. rewrite Hi, Hr. reflexivity.
Qed.

(** After at least one turn from index 0 the loop holds a response or an
    error, and it never panics. *)
Lemma attempt_loop_out k : forall req body i resp err w,
  (is_Some resp \/ is_Some err \/ (0 < k /\ (i <= 0)%Z)) ->
  exists out w', loop req body k i resp err w = (Some out, w') /\
                 (is_Some out.1 \/ is_Some out.2).
Proof.
  induction k as [|k IH]; intros req body i resp err w Hpre.
  - eexists _, _. split; [reflexivity|]. simpl.
    destruct Hpre as [?|[?|[? _]]]; [auto|auto|lia].
  - assert (Hi : (0 <? i)%Z = true -> is_Some resp \/ is_Some err).
    { intros Hlt. apply Z.ltb_lt in Hlt.
      destruct Hpre as [?|[?|[_ ?]]]; [auto|auto|lia]. }
    loop_turn k IH.
    + eexists _, _. split; [reflexivity|]. apply Hi.
      apply andb_true_iff in Heqb as [? _]. assumption.
    + eexists _, _. split; [reflexivity|]. apply Hi.
      destruct (0 <? i)%Z; [reflexivity|discriminate].
    + eexists _, _. split; [reflexivity|]. simpl. eauto.
    + eexists _, _. split; [reflexivity|]. simpl. eauto.
    + apply IH. eauto.
    + apply IH. eauto.
Qed.

(** The loop leaves the response writer, the request counter and the node
    set of the selector alone. *)
Lemma attempt_loop_frame k req body i resp err w :
  exists out w', loop req body k i resp err w = (Some out, w') /\
    writer w' = writer w /\ code_total w' = code_total w.
Proof.
  destruct (attempt_loop_invariant
              (fun w' => writer w' = writer w /\ code_total w' = code_total w))
    with (k := k) (req := req) (body := body) (i := i) (resp := resp)
         (err := err) (w := w) as (out & w' & E & Hw & Hc).
  - intros f w0 H0. exact H0.
  - intros w0 H0. exact H0.
  - intros r w0 [H1 H2].
    destruct (RoundTrip_effect r w0) as (res & w2 & E2 & Hw & _ & Hc & _).
    rewrite E2. cbn [snd]. split; congruence.
  - split; reflexivity.
  - eauto.
Qed.

(** The response that the loop ends with is an answer of a backend. *)
Lemma attempt_loop_answers (P : Response -> Prop) k :
  forall req body i resp err w out w',
  (forall r, resp = Some r -> P r) ->
  Forall (fun a => match a with Ok r => P r | Err _ => True end) (backend w) ->
  loop req body k i resp err w = (Some out, w') ->
  forall r, out.1 = Some r -> P r.
Proof.
  induction k as [|k IH]; intros req body i resp err w out w' Hresp Hback.
  { intros [= <- <-]. exact Hresp. }
  assert (Hw1 : backend (if (attempts strategy <=? i + 1)%Z
                         then on_reqOpts with_LastAttempt w else w) = backend w).
  { destruct (attempts strategy <=? i + 1)%Z; reflexivity. }
  assert (Hstep : forall rq res w2,
            RoundTrip rq (if (attempts strategy <=? i + 1)%Z
                          then on_reqOpts with_LastAttempt w else w)
              = (Some res, w2) ->
            Forall (fun a => match a with Ok r => P r | Err _ => True end)
                   (backend w2) /\
            (forall rsp, res = Ok rsp -> P rsp)).
  { intros rq res w2 E.
    destruct (RoundTrip_answer rq (if (attempts strategy <=? i + 1)%Z
                                   then on_reqOpts with_LastAttempt w else w))
      as (res' & w2' & E' & Hb & Hans).
    rewrite E in E'. injection E' as <- <-. rewrite Hw1 in Hb, Hans. split.
    - destruct Hb as [->|(a & Ha)]; [exact Hback|].
      rewrite Ha in Hback. apply Forall_cons in Hback as [_ ?]. assumption.
    - intros rsp ->. destruct (Hans rsp eq_refl) as (rest & Hr).
      rewrite Hr in Hback. apply Forall_cons in Hback as [? _]. assumption. }
  loop_turn k IH.
  - intros [= <- <-]. exact Hresp.
  - intros [= <- <-]. exact Hresp.
  - intros [= <- <-]. exact Hresp.
  - intros [= <- <-] r [= <-]. eapply Hstep; [exact E2|reflexivity].
  - apply IH.
    + intros r [= <-]. eapply Hstep; [exact E2|reflexivity].
    + cbn [backend on_telemetry]. eapply Hstep. exact E2.
  - apply IH; [discriminate|].
    cbn [backend on_telemetry]. eapply Hstep. exact E2.
Qed.

(** With the retry feature off the transport is called once at most. *)
Lemma attempt_loop_once k req body resp err w :
  retry_enabled env = false ->
  length (select_log (loop req body k 0 resp err w).2) <= length (select_log w) + 1.
Proof.
  intros Hoff. destruct k as [|k]; [simpl; lia|].
  loop_turn k IH; cbn [snd select_log on_telemetry on_reqOpts];
    try rewrite attempt_loop_no_retry by (assumption || lia);
    cbn [snd select_log on_telemetry on_reqOpts].
  - lia.
  - lia.
  - destruct (attempts strategy <=? 0 + 1)%Z; simpl; lia.
  - assert (length (select_log w2) <= S (length (select_log w))); [|lia].
    destruct Hcases as [[-> _]|(n & _ & -> & _)]; [|rewrite length_app];
      destruct (attempts strategy <=? 0 + 1)%Z; simpl; lia.
  - assert (length (select_log w2) <= S (length (select_log w))); [|lia].
    destruct Hcases as [[-> _]|(n & _ & -> & _)]; [|rewrite length_app];
      destruct (attempts strategy <=? 0 + 1)%Z; simpl; lia.
  - assert (length (select_log w2) <= S (length (select_log w))); [|lia].
    destruct Hcases as [[-> _]|(n & _ & -> & _)]; [|rewrite length_app];
      destruct (attempts strategy <=? 0 + 1)%Z; simpl; lia.
Qed.

(** The first attempt is not a retry: nothing is counted for it. *)
Lemma attempt_loop_quiet k req body resp err w :
  retry_enabled env = false \/ k <= 1 ->
  telemetry (loop req body k 0 resp err w).2 = telemetry w.
Proof.
  intros Hq. destruct k as [|k]; [reflexivity|].
  assert (Hrest : forall r b rs er w3,
            telemetry (loop r b k (0 + 1) rs er w3).2 = telemetry w3).
  { intros r b rs er w3. destruct Hq as [Hoff|Hk].
    - rewrite attempt_loop_no_retry by (assumption || lia). reflexivity.
    - assert (k = 0) as -> by lia. reflexivity. }
  assert (Hw1 : telemetry (if (attempts strategy <=? 0 + 1)%Z
                           then on_reqOpts with_LastAttempt w else w)
                = telemetry w).
  { destruct (attempts strategy <=? 0 + 1)%Z; reflexivity. }
  loop_turn k IH; try rewrite Hrest; cbn [snd telemetry on_telemetry on_reqOpts].
  - reflexivity.
  - discriminate.
  - exact Hw1.
  - unfold markSuccess, markSuccessStat. cbn. congruence.
  - unfold markFailed, markFailedStat. cbn. congruence.
  - unfold markFailed, markFailedStat. cbn. congruence.
Qed.

End Loop.

Section Handler.
Variable ToGRPCCode : Z -> Z.
Variable SplitHostPort : string -> result (string * string).
Context {Condition : Type}.
Variable JudgeConditons : list Condition -> Response -> bool -> bool.

#[local] Abbreviation handler :=
  (handler ToGRPCCode SplitHostPort JudgeConditons).
#[local] Abbreviation writeError := (writeError ToGRPCCode).

(** The handler is: reset the options, read the body, run the loop, then
    write the error or the response. *)
Lemma handler_eq e strategy env req w :
  handler e strategy RoundTrip env req w =
    let protocol := Config.Protocol_String (Config.ep_Protocol e) in
    let req1 := setXFFHeader SplitHostPort req in
    let w0 := on_reqOpts (fun _ => NewRequestOptions e) w in
    match ReadAll (req_Body req1) with
    | Err err => writeError protocol err w0
    | Ok body =>
      match attempt_loop JudgeConditons env strategy RoundTrip req1 body
              (Z.to_nat (attempts strategy)) 0 None None
              (receivedBytesAdd (Z.of_nat (length body)) w0) with
      | (Some (_, Some err), w2) => writeError protocol err w2
      | (Some (None, None), w2) => (None, w2)
      | (Some (Some resp, None), w2) => ProxyMore.respond env e resp w2
      | (None, w2) => (None, w2)
      end
    end.
Proof.
  unfold Proxy.handler. cbv zeta. unfold bind at 1. cbn [modify].
  destruct (ReadAll _) as [body|err]; [|reflexivity].
  unfold bind at 1. cbn [modify]. unfold bind at 1.
  destruct (attempt_loop _ _ _ _ _ _ _ _ _ _ _) as [[[[resp|] [err|]]|] w2];
    reflexivity.
Qed.

(** What [writeError] leaves behind. *)
Lemma writeError_effect protocol err w :
  exists w', writeError protocol err w = (Some tt, w') /\
    select_log w' = select_log w /\ done_calls w' = done_calls w /\
    telemetry w' = telemetry w /\
    reqOpts w' = reqOpts w /\
    code_total w' = code_total w ++ [error_status err] /\
    (w_Status (writer w) = None ->
     w_Status (writer w') =
       Some (if String.eqb protocol "GRPC" then 200%Z else error_status err)).
Proof.
  unfold Proxy.writeError. change (Config.Protocol_String Config.GRPC) with "GRPC".
  assert (Hwh : forall code w1, (200 <= code <= 999)%Z ->
            exists rw, write_header code w1 = (Some tt, on_writer (fun _ => rw) w1) /\
              (w_Status (writer w1) = None -> w_Status rw = Some code)).
  { intros code w1 Hc.
    destruct (w_Status (writer w1)) as [st|] eqn:Hs.
    - exists (writer w1). unfold write_header, WriteHeader. rewrite Hs.
      split; [reflexivity|discriminate].
    - eexists. split; [apply ProxyFacts.write_header_final; assumption|].
      reflexivity. }
  destruct (String.eqb protocol "GRPC"); unfold bind, modify.
  - match goal with |- context [write_header 200 ?w1] =>
      destruct (Hwh 200%Z w1 ltac:(lia)) as (rw & -> & Hrw) end.
    eexists. split; [reflexivity|]. cbn. repeat split.
    intros Hs. apply Hrw. exact Hs.
  - match goal with |- context [write_header ?c ?w1] =>
      destruct (Hwh c w1 (ProxyFacts.error_status_range err)) as (rw & -> & Hrw) end.
    eexists. split; [reflexivity|]. cbn. repeat split.
    intros Hs. apply Hrw. exact Hs.
Qed.

(** [WriteHeader] panics on a writer without a status and a code out of
    range, and only then; it keeps the headers and the body. *)
Lemma WriteHeader_cases (code : Z) (rw : ResponseWriter) :
  match WriteHeader code rw with
  | None => w_Status rw = None /\ ((code < 100)%Z \/ (999 < code)%Z)
  | Some rw' =>
    w_Header rw' = w_Header rw /\ w_Body rw' = w_Body rw /\
    (w_Status rw = None -> (100 <= code <= 999)%Z) /\
    (w_Status rw = None -> (200 <= code)%Z -> w_Status rw' = Some code)
  end.
Proof.
  unfold WriteHeader. destruct (w_Status rw) as [st|] eqn:Hs.
  - rewrite Hs. repeat split; discriminate.
  - destruct (Z.ltb_spec code 100), (Z.ltb_spec 999 code), (Z.leb_spec code 199);
      cbn [orb andb]; try (split; [reflexivity|lia]);
      try destruct (negb _); cbn [w_Header w_Body w_Status];
      repeat split; intros; first [lia | reflexivity | assumption].
Qed.

(** What the end of the handler leaves behind. *)
Lemma respond_effect env e resp w :
  exists r w', ProxyMore.respond env e resp w = (r, w') /\
    select_log w' = select_log w /\
    telemetry w' = telemetry w /\
    reqOpts w' = reqOpts w /\
    (exists calls, done_calls w' = done_calls w ++ calls /\
       (calls = [] \/
        exists id info, DoneFunc (reqOpts w) = Some id /\ calls = [(id, info)])) /\
    (r = None <->
       w_Status (writer w) = None /\
       ((resp_StatusCode resp < 100)%Z \/ (999 < resp_StatusCode resp)%Z)) /\
    (r = Some tt -> code_total w' = code_total w ++ [resp_StatusCode resp]) /\
    (r = Some tt -> w_Status (writer w) = None ->
       (200 <= resp_StatusCode resp)%Z ->
       w_Status (writer w') = Some (resp_StatusCode resp)).
Proof.
  unfold ProxyMore.respond, bind at 1. cbn [modify]. unfold bind at 1.
  unfold write_header. cbn [writer on_writer].
  pose proof (WriteHeader_cases (resp_StatusCode resp)
                {| w_Header := resp_Header resp ∪ w_Header (writer w);
                   w_Status := w_Status (writer w);
                   w_Body := w_Body (writer w) |}) as Hc.
  destruct (WriteHeader _ _) as [rw|]; cbn [w_Status w_Header w_Body] in Hc.
  2:{ eexists _, _. split; [reflexivity|]. cbn.
      split; [reflexivity|]. split; [reflexivity|]. split; [reflexivity|].
      split; [exists []; rewrite app_nil_r; auto|].
      split; [tauto|]. split; discriminate. }
  destruct Hc as (Hh & Hb & Hrange & Hst).
  assert (Hnopanic : forall x : option unit, x = Some tt ->
            (x = None <->
             w_Status (writer w) = None /\
             ((resp_StatusCode resp < 100)%Z \/ (999 < resp_StatusCode resp)%Z))).
  { intros x ->. split; [discriminate|]. intros [Hs Hbad].
    specialize (Hrange Hs). lia. }
  unfold bind at 1, doCopyBody.
  destruct (resp_Body resp) as [body|].
  - destruct (Copy (client_takes env) body) as [written cerr].
    unfold bind at 1. cbn [modify]. unfold bind at 1. cbn [get].
    assert (Hw : forall (Hs : w_Status (writer w) = None),
              (200 <= resp_StatusCode resp)%Z ->
              w_Status (match written with
                        | [] => fun rw0 : ResponseWriter => rw0
                        | _ :: _ => Write written
                        end rw) = Some (resp_StatusCode resp)).
    { intros Hs H200. specialize (Hst Hs H200).
      destruct written; [exact Hst|]. unfold Write. cbn [w_Status].
      rewrite Hst. reflexivity. }
    destruct cerr as [cerr|];
      unfold bind, call_done, modify, ret;
      cbn [reqOpts on_writer sentBytesAdd];
      destruct (DoneFunc (reqOpts w)) as [id|] eqn:Hd;
      (eexists _, _; split; [reflexivity|]; cbn;
       split; [reflexivity|]; split; [reflexivity|]; split; [reflexivity|];
       split; [first [ eexists; split; [reflexivity|]; right; eauto
                     | exists []; rewrite app_nil_r; auto ]|];
       split; [apply Hnopanic; reflexivity|];
       split; [reflexivity|]; intros _; exact Hw).
  - eexists _, _. split; [reflexivity|]. cbn.
    split; [reflexivity|]. split; [reflexivity|]. split; [reflexivity|].
    split; [exists []; rewrite app_nil_r; auto|].
    split; [apply Hnopanic; reflexivity|].
    split; [reflexivity|]. intros _. exact Hst.
Qed.

Lemma Protocol_String_GRPC (p : Config.Protocol) :
  String.eqb (Config.Protocol_String p) "GRPC" = bool_decide (p = Config.GRPC).
Proof. destruct p; reflexivity. Qed.

(** X4: a handler with at least one attempt answers every request exactly
    once, provided no backend answers with a status code outside 200..999:
    it does not panic, one status is written to a writer that had none,
    and one entry is added to the request counter, whatever else the
    selector, the backends, the breaker, the context and the connection to
    the client do.  The two codes are the same, except that an error on a
    gRPC endpoint is sent as 200. *)
Theorem handler_responds e (strategy : @retryStrategy Condition) env req w :
  (1 <= attempts strategy)%Z ->
  w_Status (writer w) = None ->
  Forall (fun a => match a with
                   | Ok r => (200 <= resp_StatusCode r <= 999)%Z
                   | Err _ => True
                   end) (backend w) ->
  exists w' code,
    handler e strategy RoundTrip env req w = (Some tt, w') /\
    code_total w' = code_total w ++ [code] /\
    (w_Status (writer w') = Some code \/
     (Config.ep_Protocol e = Config.GRPC /\ w_Status (writer w') = Some 200%Z)).
Proof.
  intros Hatt Hst Hvalid. rewrite handler_eq. cbv zeta.
  set (w0 := on_reqOpts _ w).
  assert (Herr : forall err w2,
            writer w2 = writer w -> code_total w2 = code_total w ->
            exists w' code,
              writeError (Config.Protocol_String (Config.ep_Protocol e)) err w2
                = (Some tt, w') /\
              code_total w' = code_total w ++ [code] /\
              (w_Status (writer w') = Some code \/
               (Config.ep_Protocol e = Config.GRPC /\
                w_Status (writer w') = Some 200%Z))).
  { intros err w2 Hw Hc.
    destruct (writeError_effect (Config.Protocol_String (Config.ep_Protocol e)) err w2)
      as (w' & E & _ & _ & _ & _ & Hc' & Hs').
    exists w', (error_status err). split; [exact E|].
    split; [congruence|]. rewrite Hw in Hs'. specialize (Hs' Hst).
    rewrite Protocol_String_GRPC in Hs'.
    destruct (bool_decide_reflect (Config.ep_Protocol e = Config.GRPC)); auto. }
  destruct (ReadAll _) as [body|rerr]; [|apply Herr; reflexivity].
  match goal with |- context [attempt_loop _ _ _ _ ?r ?b ?k ?i ?rs ?er ?w1] =>
    destruct (attempt_loop_frame JudgeConditons env strategy k r b i rs er w1)
      as (out & w2 & E & Hw & Hc);
    destruct (attempt_loop_out JudgeConditons env strategy k r b i rs er w1)
      as (out' & w2' & E' & Hout); [right; right; lia|];
    pose proof (attempt_loop_answers JudgeConditons env strategy
                  (fun answer => (200 <= resp_StatusCode answer <= 999)%Z)
                  k r b i rs er w1 out w2 ltac:(discriminate) Hvalid E) as Hans;
    rewrite E in E'; injection E' as <- <-; rewrite E
  end.
  subst w0. cbn [writer code_total receivedBytesAdd on_reqOpts] in Hw, Hc.
  destruct out as [[resp|] [err|]]; cbn [fst snd] in Hout, Hans.
  - apply Herr; assumption.
  - specialize (Hans resp eq_refl).
    destruct (respond_effect env e resp w2)
      as (r & w' & E' & _ & _ & _ & _ & Hpanic & Hc' & Hs').
    assert (r = Some tt) as ->.
    { destruct r as [[]|]; [reflexivity|].
      destruct (proj1 Hpanic eq_refl) as [_ ?]. lia. }
    exists w', (resp_StatusCode resp). split; [exact E'|].
    split; [rewrite Hc' by reflexivity; congruence|].
    left. apply Hs'; [reflexivity|congruence|lia].
  - apply Herr; assumption.
  - destruct Hout as [[? ?]|[? ?]]; discriminate.
Qed.

(** X5: one request makes at most [attempts] calls of the transport, and
    at most one when the retry feature is switched off. *)
Theorem handler_attempts_bound e (strategy : @retryStrategy Condition) env req w :
  let w' := (handler e strategy RoundTrip env req w).2 in
  length (select_log w') <= length (select_log w) + Z.to_nat (attempts strategy) /\
  (retry_enabled env = false ->
   length (select_log w') <= length (select_log w) + 1).
Proof.
  cbv zeta. rewrite handler_eq. cbv zeta.
  set (w0 := on_reqOpts _ w).
  destruct (ReadAll _) as [body|rerr].
  2:{ destruct (writeError_effect (Config.Protocol_String (Config.ep_Protocol e)) rerr w0)
        as (w' & -> & Hs & _). cbn [snd]. rewrite Hs. simpl. lia. }
  match goal with |- context [attempt_loop _ _ _ _ ?r ?b ?k ?i ?rs ?er ?w1] =>
    pose proof (attempt_loop_selections JudgeConditons env strategy k r b i rs er w1) as Hn;
    pose proof (attempt_loop_once JudgeConditons env strategy k r b rs er w1) as H1;
    destruct (attempt_loop _ _ _ _ r b k i rs er w1) as [out w2]
  end.
  cbn [snd select_log receivedBytesAdd] in Hn, H1.
  assert (Hend : forall w3, select_log w3 = select_log w2 ->
            length (select_log w3) <= length (select_log w) + Z.to_nat (attempts strategy) /\
            (retry_enabled env = false ->
             length (select_log w3) <= length (select_log w) + 1)).
  { intros w3 ->. subst w0. cbn [select_log on_reqOpts] in Hn, H1. auto. }
  destruct out as [[[resp|] [err|]]|]; cbn [snd]; try (apply Hend; reflexivity).
  - destruct (writeError_effect (Config.Protocol_String (Config.ep_Protocol e)) err w2)
      as (w' & -> & Hs & _). apply Hend. exact Hs.
  - destruct (respond_effect env e resp w2) as (r & w' & -> & Hs & _).
    apply Hend. exact Hs.
  - destruct (writeError_effect (Config.Protocol_String (Config.ep_Protocol e)) err w2)
      as (w' & -> & Hs & _). apply Hend. exact Hs.
Qed.

(** X6: the retry counters and the breaker only ever see retries: a
    request that is served with the retry feature off, or by an endpoint
    with a single attempt, leaves the telemetry as it was. *)
Theorem handler_first_attempt_uncounted e (strategy : @retryStrategy Condition)
    env req w :
  retry_enabled env = false \/ (attempts strategy <= 1)%Z ->
  telemetry (handler e strategy RoundTrip env req w).2 = telemetry w.
Proof.
  intros Hq. rewrite handler_eq. cbv zeta.
  set (w0 := on_reqOpts _ w).
  destruct (ReadAll _) as [body|rerr].
  2:{ destruct (writeError_effect (Config.Protocol_String (Config.ep_Protocol e)) rerr w0)
        as (w' & -> & _ & _ & Ht & _). cbn [snd]. rewrite Ht. reflexivity. }
  match goal with |- context [attempt_loop _ _ _ _ ?r ?b ?k ?i ?rs ?er ?w1] =>
    pose proof (attempt_loop_quiet JudgeConditons env strategy k r b rs er w1) as Hn;
    destruct (attempt_loop _ _ _ _ r b k i rs er w1) as [out w2]
  end.
  cbn [snd telemetry receivedBytesAdd] in Hn.
  assert (Ht2 : telemetry w2 = telemetry w).
  { apply Hn. destruct Hq as [?|?]; [auto|right; lia]. }
  destruct out as [[[resp|] [err|]]|]; cbn [snd]; try exact Ht2.
  - destruct (writeError_effect (Config.Protocol_String (Config.ep_Protocol e)) err w2)
      as (w' & -> & _ & _ & Ht & _). cbn [snd]. congruence.
  - destruct (respond_effect env e resp w2) as (r & w' & -> & _ & Ht & _).
    cbn [snd]. congruence.
  - destruct (writeError_effect (Config.Protocol_String (Config.ep_Protocol e)) err w2)
      as (w' & -> & _ & _ & Ht & _). cbn [snd]. congruence.
Qed.


(** The callbacks that were called since the store [w], and the one that
    is pending in the request options. *)
#[local] Abbreviation done_inv w := (fun w2 : World =>
  length (select_log w) <= length (select_log w2) /\
  exists calls,
    done_calls w2 = done_calls w ++ calls /\
    NoDup calls.*1 /\
    Forall (fun c => length (select_log w) <= c.1 < length (select_log w2)) calls /\
    forall id, DoneFunc (reqOpts w2) = Some id ->
      length (select_log w) <= id < length (select_log w2) /\ id ∉ calls.*1).

Lemma done_inv_RoundTrip w r w2 :
  done_inv w w2 -> done_inv w (RoundTrip r w2).2.
Proof.
  intros (Hlen & calls & Hd & Hnd & Hall & Hpend).
  destruct (RoundTrip_effect r w2) as (res & w3 & E & _ & _ & _ & _ & _ & Hcases).
  rewrite E. cbn [snd].
  destruct Hcases as [[-> _]|(n & _ & Hlog & _ & Hres)].
  { split; [exact Hlen|]. exists calls. auto. }
  assert (Hfresh : length (select_log w2) ∉ calls.*1).
  { intros Hin. apply list_elem_of_fmap in Hin as (c & Hc & Hin).
    rewrite Forall_forall in Hall. apply Hall in Hin. lia. }
  rewrite Hlog, length_app. cbn [length].
  split; [lia|].
  destruct Hres as [(err & _ & Hdone & Hf)|(resp & _ & Hdone & Hf)].
  - exists (calls ++ [(length (select_log w2), {| di_Err := Some err; di_ReplyMD := None |})]).
    rewrite Hdone, Hd, <- app_assoc. split; [reflexivity|].
    rewrite fmap_app. cbn [fmap list_fmap fst].
    split.
    { apply NoDup_app. split; [exact Hnd|]. split; [|apply NoDup_singleton].
      intros x Hx Hx'. apply list_elem_of_singleton in Hx'. subst x. auto. }
    split.
    { apply Forall_app. split.
      - eapply Forall_impl; [exact Hall|]. cbn. intros; lia.
      - constructor; [cbn; lia|constructor]. }
    intros id Hid. rewrite Hf in Hid. destruct (Hpend id Hid) as [Hb Hn].
    split; [lia|]. rewrite elem_of_app, list_elem_of_singleton.
    intros [?|?]; [auto|lia].
  - exists calls. rewrite Hdone. split; [exact Hd|]. split; [exact Hnd|].
    split.
    { eapply Forall_impl; [exact Hall|]. cbn. intros; lia. }
    intros id Hid. rewrite Hf in Hid. injection Hid as <-.
    split; [lia|exact Hfresh].
Qed.

(** X7: within one request no selection's callback is called twice, and
    only callbacks of selections made for this request are called. *)
Theorem handler_done_once e (strategy : @retryStrategy Condition) env req w :
  let w' := (handler e strategy RoundTrip env req w).2 in
  exists calls,
    done_calls w' = done_calls w ++ calls /\
    NoDup calls.*1 /\
    Forall (fun c => length (select_log w) <= c.1 < length (select_log w')) calls.
Proof.
  cbv zeta. rewrite handler_eq. cbv zeta.
  set (w0 := on_reqOpts _ w).
  assert (Herr : forall err w2, done_inv w w2 ->
            exists calls,
              done_calls (writeError (Config.Protocol_String (Config.ep_Protocol e))
                            err w2).2 = done_calls w ++ calls /\
              NoDup calls.*1 /\
              Forall (fun c => length (select_log w) <= c.1 <
                length (select_log (writeError
                  (Config.Protocol_String (Config.ep_Protocol e)) err w2).2)) calls).
  { intros err w2 (_ & calls & Hd & Hnd & Hall & _).
    destruct (writeError_effect (Config.Protocol_String (Config.ep_Protocol e)) err w2)
      as (w' & -> & Hs & Hdone & _). cbn [snd]. rewrite Hs, Hdone. eauto. }
  assert (H0 : forall n, done_inv w (receivedBytesAdd n w0)).
  { intros n. cbn. split; [lia|]. exists []. rewrite app_nil_r.
    split; [reflexivity|]. split; [constructor|]. split; [constructor|].
    discriminate. }
  destruct (ReadAll _) as [body|rerr].
  2:{ apply Herr. apply (H0 0%Z). }
  match goal with |- context [attempt_loop _ _ _ _ ?r ?b ?kk ?i ?rs ?er ?w1] =>
    destruct (attempt_loop_invariant JudgeConditons env strategy (done_inv w)
                ltac:(intros f w3 H3; exact H3) ltac:(intros w3 H3; exact H3)
                (fun r3 w3 => done_inv_RoundTrip w r3 w3) kk r b i rs er w1 (H0 _))
      as (out & w2 & E & Hinv); rewrite E
  end.
  destruct out as [[resp|] [err|]]; [apply Herr, Hinv| |apply Herr, Hinv|].
  - destruct Hinv as (_ & calls & Hd & Hnd & Hall & Hpend).
    destruct (respond_effect env e resp w2)
      as (r & w' & -> & Hs & _ & _ & (more & Hdone & Hmore) & _).
    cbn [snd]. rewrite Hs.
    destruct Hmore as [->|(id & info & Hid & ->)].
    { exists calls. rewrite Hdone, app_nil_r. auto. }
    destruct (Hpend id Hid) as [Hb Hn].
    exists (calls ++ [(id, info)]). rewrite Hdone, Hd, <- app_assoc.
    split; [reflexivity|]. rewrite fmap_app. cbn [fmap list_fmap fst]. split.
    { apply NoDup_app. split; [exact Hnd|]. split; [|apply NoDup_singleton].
      intros x Hx Hx'. apply list_elem_of_singleton in Hx'. subst x. auto. }
    apply Forall_app. split; [exact Hall|]. constructor; [exact Hb|constructor].
  - cbn [snd]. destruct Hinv as (_ & calls & Hd & Hnd & Hall & _). eauto.
Qed.

(** The selections made since the store [w]: each one is a node of the
    selector, and one whose address was not tried before as long as there
    is such a node. *)
#[local] Abbreviation fresh_picks nodes := (fun picks : list Client.node =>
  forall j n, picks !! j = Some n ->
    n ∈ nodes /\
    ((exists m, m ∈ nodes /\ Address m ∉ Address <$> take j picks) ->
     Address n ∉ Address <$> take j picks)).

#[local] Abbreviation picks_inv w := (fun w2 : World =>
  sel_nodes w2 = sel_nodes w /\
  Filters (reqOpts w2) = [retry_filter] /\
  exists picks,
    select_log w2 = select_log w ++ picks /\
    Backends (reqOpts w2) = Address <$> picks /\
    fresh_picks (sel_nodes w) picks).

Lemma picks_inv_RoundTrip w r w2 :
  picks_inv w w2 -> picks_inv w (RoundTrip r w2).2.
Proof.
  intros (Hn & Hf & picks & Hlog & Hb & Hp).
  destruct (RoundTrip_effect r w2) as (res & w3 & E & _ & _ & _ & Hn' & Hf' & Hcases).
  rewrite E. cbn [snd].
  destruct Hcases as [[-> _]|(n & Hin & Hlog' & Hb' & _)].
  { split; [exact Hn|]. split; [exact Hf|]. exists picks. auto. }
  split; [congruence|]. split; [congruence|].
  exists (picks ++ [n]). rewrite Hlog', Hlog, <- app_assoc. split; [reflexivity|].
  rewrite Hb', Hb, fmap_app. split; [reflexivity|].
  rewrite Hf, Hb, Hn in Hin. cbn [fold_left] in Hin.
  rewrite FilterExtra.retry_filter_eq in Hin.
  intros j x Hj.
  destruct (decide (j < length picks)) as [Hlt|Hge].
  - rewrite lookup_app_l in Hj by exact Hlt.
    rewrite take_app_le by lia. apply Hp. exact Hj.
  - rewrite lookup_app_r in Hj by lia.
    destruct (j - length picks) as [|d] eqn:Hd; [|destruct d; discriminate].
    injection Hj as <-.
    assert (j = length picks) as -> by lia.
    rewrite take_app_length.
    destruct (Address <$> picks) as [|b T] eqn:HT.
    { split; [exact Hin|]. intros _. apply not_elem_of_nil. }
    destruct (untried (b :: T) (sel_nodes w)) as [|k kept] eqn:HU.
    + split; [exact Hin|]. intros (m & Hm & Hnot). exfalso.
      assert (Hmu : m ∈ untried (b :: T) (sel_nodes w))
        by (apply FilterExtra.elem_of_untried; auto).
      rewrite HU in Hmu. eapply not_elem_of_nil, Hmu.
    + rewrite <- HU in Hin. apply FilterExtra.elem_of_untried in Hin as [? ?].
      auto.
Qed.

(** X8: retries go to other backends: every node the handler selects for
    a request is a node of the selector, and as long as some node has an
    address that was not tried for this request, the node selected has
    such an address. *)
Theorem handler_tries_fresh_backends e (strategy : @retryStrategy Condition)
    env req w :
  let w' := (handler e strategy RoundTrip env req w).2 in
  exists picks,
    select_log w' = select_log w ++ picks /\
    forall j n, picks !! j = Some n ->
      n ∈ sel_nodes w /\
      ((exists m, m ∈ sel_nodes w /\ Address m ∉ Address <$> take j picks) ->
       Address n ∉ Address <$> take j picks).
Proof.
  cbv zeta. rewrite handler_eq. cbv zeta.
  set (w0 := on_reqOpts _ w).
  assert (H0 : forall n, picks_inv w (receivedBytesAdd n w0)).
  { intros n. cbn. split; [reflexivity|]. split; [reflexivity|].
    exists []. rewrite app_nil_r. split; [reflexivity|]. split; [reflexivity|].
    intros j x Hj. discriminate. }
  assert (Herr : forall err w2, picks_inv w w2 ->
            exists picks,
              select_log (writeError (Config.Protocol_String (Config.ep_Protocol e))
                            err w2).2 = select_log w ++ picks /\
              fresh_picks (sel_nodes w) picks).
  { intros err w2 (_ & _ & picks & Hlog & _ & Hp).
    destruct (writeError_effect (Config.Protocol_String (Config.ep_Protocol e)) err w2)
      as (w' & -> & Hs & _). cbn [snd]. rewrite Hs. eauto. }
  destruct (ReadAll _) as [body|rerr].
  2:{ apply Herr. apply (H0 0%Z). }
  match goal with |- context [attempt_loop _ _ _ _ ?r ?b ?kk ?i ?rs ?er ?w1] =>
    destruct (attempt_loop_invariant JudgeConditons env strategy (picks_inv w)
                ltac:(intros f w3 H3; exact H3) ltac:(intros w3 H3; exact H3)
                (fun r3 w3 => picks_inv_RoundTrip w r3 w3) kk r b i rs er w1 (H0 _))
      as (out & w2 & E & Hinv); rewrite E
  end.
  destruct out as [[resp|] [err|]]; [apply Herr, Hinv| |apply Herr, Hinv|].
  - destruct Hinv as (_ & _ & picks & Hlog & _ & Hp).
    destruct (respond_effect env e resp w2) as (r & w' & -> & Hs & _).
    cbn [snd]. rewrite Hs. eauto.
  - cbn [snd]. destruct Hinv as (_ & _ & picks & Hlog & _ & Hp). eauto.
Qed.

Lemma append_assoc (a b c : string) : (a +:+ b) +:+ c = a +:+ (b +:+ c).
Proof.
  induction a as [|x a IH]; [reflexivity|].
  change (String x ((a +:+ b) +:+ c) = String x (a +:+ (b +:+ c))).
  rewrite IH. reflexivity.
Qed.

(** What the request options hold about the attempts made since the
    store [w]. *)
#[local] Abbreviation records_inv e w := (fun w2 : World =>
  Endpoint (reqOpts w2) = e /\
  exists picks,
    select_log w2 = select_log w ++ picks /\
    Backends (reqOpts w2) = Address <$> picks /\
    length (UpstreamStatusCode (reqOpts w2)) = length picks /\
    length (UpstreamResponseTime (reqOpts w2)) = length picks /\
    CurrentNode (reqOpts w2) = last picks).

Lemma records_inv_RoundTrip e w r w2 :
  records_inv e w w2 -> records_inv e w (RoundTrip r w2).2.
Proof.
  intros (He & picks & Hlog & Hb & Hs & Ht & Hc).
  destruct (RoundTrip_records r w2)
    as (r0 & w3 & -> & He' & [->|(n & Hlog' & Hb' & Hs' & Ht' & Hc')]); cbn [snd].
  { split; [exact He|]. exists picks. auto. }
  split; [congruence|]. exists (picks ++ [n]).
  rewrite Hlog', Hlog, <- app_assoc. split; [reflexivity|].
  rewrite Hb', Hb, fmap_app. split; [reflexivity|].
  rewrite Hs', Ht', Hs, Ht, length_app, last_snoc. cbn [length].
  repeat split; try lia. exact Hc'.
Qed.

(** X9: the request options tell what was tried: after the handler has
    run, they hold the endpoint, one address, one status code and one
    response time for each node that was selected for the request, in the
    order of the attempts, and the node selected last as the current
    node. *)
Theorem handler_upstream_records e (strategy : @retryStrategy Condition)
    env req w :
  let w' := (handler e strategy RoundTrip env req w).2 in
  exists picks,
    select_log w' = select_log w ++ picks /\
    Endpoint (reqOpts w') = e /\
    Backends (reqOpts w') = Address <$> picks /\
    length (UpstreamStatusCode (reqOpts w')) = length picks /\
    length (UpstreamResponseTime (reqOpts w')) = length picks /\
    CurrentNode (reqOpts w') = last picks.
Proof.
  cbv zeta. rewrite handler_eq. cbv zeta.
  set (w0 := on_reqOpts _ w).
  assert (H0 : forall n, records_inv e w (receivedBytesAdd n w0)).
  { intros n. cbn. split; [reflexivity|]. exists []. rewrite app_nil_r.
    repeat split. }
  assert (Hend : forall w3 w2, records_inv e w w2 ->
            select_log w3 = select_log w2 -> reqOpts w3 = reqOpts w2 ->
            exists picks,
              select_log w3 = select_log w ++ picks /\
              Endpoint (reqOpts w3) = e /\
              Backends (reqOpts w3) = Address <$> picks /\
              length (UpstreamStatusCode (reqOpts w3)) = length picks /\
              length (UpstreamResponseTime (reqOpts w3)) = length picks /\
              CurrentNode (reqOpts w3) = last picks).
  { intros w3 w2 (He & picks & Hlog & Hb & Hs & Ht & Hc) -> ->.
    exists picks. auto 10. }
  assert (Herr : forall err w2, records_inv e w w2 ->
            exists picks,
              let w3 := (writeError (Config.Protocol_String (Config.ep_Protocol e))
                           err w2).2 in
              select_log w3 = select_log w ++ picks /\
              Endpoint (reqOpts w3) = e /\
              Backends (reqOpts w3) = Address <$> picks /\
              length (UpstreamStatusCode (reqOpts w3)) = length picks /\
              length (UpstreamResponseTime (reqOpts w3)) = length picks /\
              CurrentNode (reqOpts w3) = last picks).
  { intros err w2 Hinv.
    destruct (writeError_effect (Config.Protocol_String (Config.ep_Protocol e)) err w2)
      as (w' & -> & Hs & _ & _ & Hr & _).
    apply (Hend _ w2 Hinv); [exact Hs|exact Hr]. }
  destruct (ReadAll _) as [body|rerr].
  2:{ apply Herr. apply (H0 0%Z). }
  match goal with |- context [attempt_loop _ _ _ _ ?r ?b ?kk ?i ?rs ?er ?w1] =>
    destruct (attempt_loop_invariant JudgeConditons env strategy (records_inv e w)
                ltac:(intros f w3 H3; exact H3) ltac:(intros w3 H3; exact H3)
                (fun r3 w3 => records_inv_RoundTrip e w r3 w3) kk r b i rs er w1 (H0 _))
      as (out & w2 & E & Hinv); rewrite E
  end.
  destruct out as [[resp|] [err|]]; [apply Herr, Hinv| |apply Herr, Hinv|].
  - destruct (respond_effect env e resp w2) as (r & w' & -> & Hs & _ & Hr & _).
    apply (Hend _ w2 Hinv); [exact Hs|exact Hr].
  - apply (Hend _ w2 Hinv); reflexivity.
Qed.

Lemma setXFFHeader_body (req : Request) :
  req_Body (setXFFHeader SplitHostPort req) = req_Body req.
Proof.
  unfold Proxy.setXFFHeader.
  destruct (SplitHostPort _) as [[ip port]|]; [|reflexivity].
  destruct (negb _); reflexivity.
Qed.

(** X10: the handler relays the answer of the backend.  When the first
    attempt reaches a backend that answers, and the answer needs no retry
    and its body can be read to the end, the client is sent the status
    code of the answer, its headers over those already set, its body, and
    its trailers as headers with the trailer prefix; the request is counted
    once under that status code, the bytes received and sent are counted,
    the callback of the selection is called once with the reply metadata,
    and nothing is counted as a retry. *)
Theorem handler_relays_response e (strategy : @retryStrategy Condition) env
    req w body resp rb rest :
  (1 <= attempts strategy)%Z ->
  ctx_Err env 0 = None ->
  ReadAll (req_Body req) = Ok body ->
  sel_nodes w <> [] ->
  backend w = Ok resp :: rest ->
  judgeRetryRequired JudgeConditons (conditions strategy) resp = false ->
  (200 <= resp_StatusCode resp <= 999)%Z ->
  resp_Body resp = Some rb ->
  body_err rb = None ->
  (forall taken werr, client_takes env = Some (taken, werr) ->
     length (body_data rb) <= taken) ->
  w_Status (writer w) = None ->
  exists n w',
    handler e strategy RoundTrip env req w = (Some tt, w') /\
    n ∈ sel_nodes w /\
    select_log w' = select_log w ++ [n] /\
    writer w' =
      {| w_Header :=
           map_fold (fun k v h => <[TrailerPrefix +:+ k := v]> h)
             (resp_Header resp ∪ w_Header (writer w)) (resp_Trailer resp);
         w_Status := Some (resp_StatusCode resp);
         w_Body := w_Body (writer w) ++ body_data rb |} /\
    code_total w' = code_total w ++ [resp_StatusCode resp] /\
    tx_bytes w' = (tx_bytes w + Z.of_nat (length (body_data rb)))%Z /\
    rx_bytes w' = (rx_bytes w + Z.of_nat (length body))%Z /\
    done_calls w' = done_calls w ++
      [(length (select_log w),
        {| di_Err := None; di_ReplyMD := Some (getReplyMD e resp) |})] /\
    telemetry w' = telemetry w /\
    backend w' = rest.
Proof.
  intros Hatt Hctx Hbody Hnodes Hback Hjudge Hcode Hrb Hrerr Htakes Hst.
  assert (HCopy : Copy (client_takes env) rb = (body_data rb, None)).
  { unfold Copy. rewrite Hrerr.
    destruct (client_takes env) as [[taken werr]|]; [|reflexivity].
    specialize (Htakes taken werr eq_refl).
    destruct (Nat.ltb_spec taken (length (body_data rb))); [lia|reflexivity]. }
  rewrite handler_eq. cbv zeta. rewrite setXFFHeader_body, Hbody.
  destruct (Z.to_nat (attempts strategy)) as [|k] eqn:Hk; [lia|].
  rewrite attempt_loop_S. change (0 <? 0)%Z with false. cbn [andb]. cbv zeta.
  rewrite Hctx.
  destruct (sel_nodes w !! (hd 0 (balancer w) mod length (sel_nodes w)))
    as [n|] eqn:Hn.
  2:{ apply lookup_ge_None in Hn.
      assert (length (sel_nodes w) <> 0) by (destruct (sel_nodes w); [congruence|discriminate]).
      pose proof (Nat.mod_upper_bound (hd 0 (balancer w)) (length (sel_nodes w))).
      lia. }
  assert (Hin : n ∈ sel_nodes w) by (eapply list_elem_of_lookup_2; exact Hn).
  exists n.
  destruct (attempts strategy <=? 0 + 1)%Z;
    unfold RoundTrip, bind at 1, Select;
    cbn [reqOpts on_reqOpts receivedBytesAdd NewRequestOptions Filters Backends
         sel_nodes balancer select_log fold_left retry_filter with_LastAttempt
         length Nat.eqb];
    rewrite Hn;
    unfold bind, modify, Do, get, call_done, ret;
    cbn [backend on_reqOpts log_select receivedBytesAdd]; rewrite Hback;
    rewrite Hjudge; cbn [negb];
    unfold ProxyMore.respond, bind at 1; cbn [modify];
    unfold bind at 1; cbn [modify];
    unfold bind at 1; rewrite ProxyFacts.write_header_final by (first [exact Hst | lia]);
    unfold bind, modify, doCopyBody, get, call_done, ret;
    rewrite Hrb, HCopy;
    cbn [reqOpts on_reqOpts on_writer on_telemetry pop_backend log_select
         receivedBytesAdd sentBytesAdd with_upstream with_selected
         with_LastAttempt DoneFunc];
    (eexists; split; [reflexivity|]);
    cbn [select_log writer code_total tx_bytes rx_bytes done_calls telemetry
         backend requestsTotalIncr on_writer on_telemetry log_done sentBytesAdd
         on_reqOpts pop_backend log_select receivedBytesAdd];
    (split; [exact Hin|]); (split; [reflexivity|]);
    (split; [destruct (body_data rb) as [|b0 data];
             [rewrite app_nil_r|]; reflexivity|]);
    repeat split; rewrite Hback; reflexivity.
Qed.

(** [strings.Join] after one more element. *)
Lemma Join_snoc (x : string) (xs : list string) (y sep : string) :
  Join (x :: xs ++ [y]) sep = Join (x :: xs) sep +:+ sep +:+ y.
Proof.
  revert x. induction xs as [|x' xs IH]; intros x; [reflexivity|].
  change (Join (x :: (x' :: xs) ++ [y]) sep)
    with (x +:+ sep +:+ Join (x' :: xs ++ [y]) sep).
  change (Join (x :: x' :: xs) sep) with (x +:+ sep +:+ Join (x' :: xs) sep).
  rewrite IH, !append_assoc. reflexivity.
Qed.

(** X11: the handler adds the address of the peer to the chain of
    [X-Forwarded-For]: the header then has one value, the values it had
    before joined by a comma and a space with the peer's address at the
    end; no other header and no other part of the request changes.  When
    the remote address cannot be split, the request is left as it is. *)
Theorem setXFFHeader_appends (req : Request) :
  req_Header req !! "X-Forwarded-For" <> Some [] ->
  match SplitHostPort (req_RemoteAddr req) with
  | Err _ => setXFFHeader SplitHostPort req = req
  | Ok (clientIP, _) =>
    let req' := setXFFHeader SplitHostPort req in
    req_Header req' !! "X-Forwarded-For" =
      Some [Join (default [] (req_Header req !! "X-Forwarded-For") ++ [clientIP]) ", "] /\
    (forall key, key <> "X-Forwarded-For" ->
       req_Header req' !! key = req_Header req !! key) /\
    req_Method req' = req_Method req /\ req_Host req' = req_Host req /\
    req_RequestURI req' = req_RequestURI req /\
    req_RemoteAddr req' = req_RemoteAddr req /\
    req_Body req' = req_Body req
  end.
Proof.
  intros Hnil. unfold Proxy.setXFFHeader.
  destruct (SplitHostPort (req_RemoteAddr req)) as [[clientIP port]|err];
    [|reflexivity].
  cbv zeta. rewrite bool_decide_false by exact Hnil. cbn [negb].
  cbn [req_Header req_Method req_Host req_RequestURI req_RemoteAddr req_Body].
  unfold Header_Set. change (canon "X-Forwarded-For") with "X-Forwarded-For".
  split.
  - rewrite lookup_insert_eq.
    destruct (req_Header req !! "X-Forwarded-For") as [[|x rest]|];
      [congruence| |reflexivity].
    change (default [] (Some (x :: rest)) ++ [clientIP])
      with (x :: rest ++ [clientIP]).
    rewrite Join_snoc. reflexivity.
  - split; [|repeat split].
    intros key Hkey. rewrite lookup_insert_ne by congruence. reflexivity.
Qed.

End Handler.

Lemma handler_responds_witness :
  exists w' code,
    demo_handler calm (fresh_world [backend_node "10.0.0.1:80"] [0] [Ok (reply 200 [])])
      = (Some tt, w') /\
    code_total w' = [] ++ [code] /\
    (w_Status (writer w') = Some code \/
     (Config.ep_Protocol retry_endpoint = Config.GRPC /\
      w_Status (writer w') = Some 200%Z)).
Proof.
  apply (handler_responds demo_ToGRPCCode demo_SplitHostPort demo_Judge
           retry_endpoint retry_strategy calm get_echo
           (fresh_world [backend_node "10.0.0.1:80"] [0] [Ok (reply 200 [])])).
  - simpl. lia.
  - reflexivity.
  - constructor; [simpl; lia|constructor].
Defined.

(** The bound on the status codes is needed: a reply with status 0 makes
    [WriteHeader] panic, and the request is not counted. *)
Example handler_panics_on_status_0 :
  let out := demo_handler calm
               (fresh_world [backend_node "10.0.0.1:80"] [0] [Ok (reply 0 [])]) in
  out.1 = None /\ code_total out.2 = [].
Proof. vm_compute. split; reflexivity. Qed.

Lemma handler_first_attempt_uncounted_witness :
  telemetry
    (handler demo_ToGRPCCode demo_SplitHostPort demo_Judge retry_endpoint
       retry_strategy RoundTrip
       {| retry_enabled := false; breaker_Allow := fun _ => None;
          ctx_Err := fun _ => None; client_takes := None |}
       get_echo
       (fresh_world [backend_node "10.0.0.1:80"] [0] [Ok (reply 503 [])])).2
  = no_telemetry.
Proof.
  apply (handler_first_attempt_uncounted demo_ToGRPCCode demo_SplitHostPort
           demo_Judge).
  left. reflexivity.
Defined.

Lemma setXFFHeader_appends_witness :
  req_Header (setXFFHeader demo_SplitHostPort get_echo) !! "X-Forwarded-For"
  = Some ["192.0.2.7"].
Proof.
  refine (proj1 (setXFFHeader_appends demo_SplitHostPort get_echo _)).
  vm_compute. discriminate.
Defined.

Lemma handler_relays_response_witness :
  exists n w',
    demo_handler (client_breaks_after 2)
      (fresh_world [backend_node "10.0.0.1:80"] [0] [Ok (reply 200 [x68; x69])])
      = (Some tt, w') /\
    n ∈ [backend_node "10.0.0.1:80"] /\
    select_log w' = [] ++ [n] /\
    writer w' =
      {| w_Header :=
           map_fold (fun k v h => <[TrailerPrefix +:+ k := v]> h)
             (resp_Header (reply 200 [x68; x69]) ∪ ∅)
             (resp_Trailer (reply 200 [x68; x69]));
         w_Status := Some 200%Z;
         w_Body := [] ++ [x68; x69] |} /\
    code_total w' = [] ++ [200%Z] /\
    tx_bytes w' = (0 + 2)%Z /\
    rx_bytes w' = (0 + 0)%Z /\
    done_calls w' = [] ++
      [(0, {| di_Err := None;
              di_ReplyMD := Some (getReplyMD retry_endpoint (reply 200 [x68; x69])) |})] /\
    telemetry w' = no_telemetry /\
    backend w' = [].
Proof.
  refine (handler_relays_response demo_ToGRPCCode demo_SplitHostPort demo_Judge
            retry_endpoint retry_strategy (client_breaks_after 2) get_echo
            (fresh_world [backend_node "10.0.0.1:80"] [0] [Ok (reply 200 [x68; x69])])
            [] (reply 200 [x68; x69]) (NewReader [x68; x69]) []
            _ _ _ _ _ _ _ _ _ _ _).
  - simpl. lia.
  - reflexivity.
  - reflexivity.
  - discriminate.
  - reflexivity.
  - vm_compute. reflexivity.
  - simpl. lia.
  - reflexivity.
  - reflexivity.
  - intros taken werr [= <- _]. simpl. lia.
  - reflexivity.
Defined.

(** Both bounds are needed.  When the connection to the client breaks
    after one byte of a body of two, the callback of the selection gets
    the error of the write and no reply metadata, and one byte is counted
    as sent. *)
Example handler_client_gone :
  let w' := (demo_handler (client_breaks_after 1)
               (fresh_world [backend_node "10.0.0.1:80"] [0]
                  [Ok (reply 200 [x68; x69])])).2 in
  done_calls w' = [(0, {| di_Err := Some (New "write: broken pipe");
                          di_ReplyMD := None |})] /\
  w_Body (writer w') = [x68] /\ tx_bytes w' = 1%Z /\ code_total w' = [200%Z].
Proof. vm_compute. repeat split. Qed.

End HandlerExtra.

(* --------------------------------------------------------------------- *)
(** ** Building endpoints, and the clients of a configuration            *)
(* --------------------------------------------------------------------- *)

Module BuildExtra.
Import Go Http Selector Request Proxy ProxyMore.

Section Build.
Context {Condition : Type}.
Variable ParseConditon : list string -> result (list Condition).
Variable route_error : Matchers -> option error.
Variable clientFactory : Config.Endpoint -> option error.
Variable middlewareFactory : Config.Middleware -> option error.

#[local] Abbreviation buildMiddleware_from_last :=
  (buildMiddleware_from_last middlewareFactory).
#[local] Abbreviation buildMiddleware := (buildMiddleware middlewareFactory).
#[local] Abbreviation buildEndpoint :=
  (buildEndpoint ParseConditon clientFactory middlewareFactory).
#[local] Abbreviation update_loop :=
  (update_loop ParseConditon route_error clientFactory middlewareFactory).
#[local] Abbreviation Update :=
  (Update ParseConditon route_error clientFactory middlewareFactory).
#[local] Abbreviation BuildWorld := (@Proxy.BuildWorld Condition).
#[local] Abbreviation ProxyCell := (@Proxy.Proxy Condition).
#[local] Abbreviation System := (@ProxyMore.System Condition).
#[local] Abbreviation started := (@ProxyMore.started Condition).
#[local] Abbreviation run_event :=
  (run_event ParseConditon route_error clientFactory middlewareFactory).
#[local] Abbreviation run_events :=
  (run_events ParseConditon route_error clientFactory middlewareFactory).

(** Whether the factory creates the middleware, and the error, if any,
    that stops the build. *)
#[local] Abbreviation creates := (fun m : Config.Middleware =>
  match middlewareFactory m with None => true | Some _ => false end).
#[local] Abbreviation failure := (fun m : Config.Middleware =>
  match middlewareFactory m with
  | Some err => if errors_Is err ErrNotFound then None else Some err
  | None => None
  end).

Lemma buildMiddleware_from_last_eq ms : forall next,
  buildMiddleware_from_last ms next =
    match head (omap failure ms) with
    | Some err => Err err
    | None => Ok (fold_left (fun t m => Wrapped m t) (List.filter creates ms) next)
    end.
Proof.
  induction ms as [|m ms IH]; intros next; [reflexivity|].
  cbn [Proxy.buildMiddleware_from_last omap list_omap List.filter].
  destruct (middlewareFactory m) as [err|].
  - destruct (errors_Is err ErrNotFound); [apply IH|reflexivity].
  - rewrite IH. reflexivity.
Qed.

Lemma filter_rev_chain ms next :
  fold_left (fun t m => Wrapped m t) (List.filter creates (rev ms)) next
  = foldr Wrapped next (List.filter creates ms).
Proof.
  rewrite List.filter_rev, <- fold_left_rev_right, rev_involutive. reflexivity.
Qed.

(** X12: the transport that [buildMiddleware] returns is [next] wrapped in
    the middlewares that the factory creates, in the order of the
    configuration, the first one outermost; a middleware that the factory
    does not know is left out; any other error of the factory makes the
    build fail, and the error returned is that of the last such middleware
    in the list. *)
Theorem buildMiddleware_chain ms next :
  buildMiddleware ms next =
    match head (omap failure (rev ms)) with
    | Some err => Err err
    | None => Ok (foldr Wrapped next (List.filter creates ms))
    end.
Proof.
  unfold Proxy.buildMiddleware. rewrite buildMiddleware_from_last_eq.
  rewrite filter_rev_chain. reflexivity.
Qed.

(** X13: the handler of a built endpoint sends its requests through the
    middlewares of the gateway, then through those of the endpoint, then to
    a client that was created for this endpoint alone and is still open;
    its retry strategy is the one computed from the endpoint. *)
Theorem buildEndpoint_layers e ms (w w' : BuildWorld) h closer :
  buildEndpoint e ms w = (Some (Ok (h, closer)), w') ->
  eh_endpoint h = e /\
  eh_tripper h =
    foldr Wrapped (ClientTripper closer)
      (List.filter creates (ms ++ Config.ep_Middlewares e)) /\
  prepareRetryStrategy ParseConditon e = Ok (eh_strategy h) /\
  created w' = created w ++ [closer] /\
  closed w' = closed w.
Proof.
  unfold Proxy.buildEndpoint.
  destruct (clientFactory e) as [err|]; [discriminate|].
  unfold bind at 1, new_client, Proxy.buildMiddleware.
  rewrite buildMiddleware_from_last_eq, filter_rev_chain.
  destruct (head (omap failure (rev (Config.ep_Middlewares e)))) as [err|].
  { unfold bind, closeOnError, Close, modify, ret. discriminate. }
  rewrite buildMiddleware_from_last_eq, filter_rev_chain.
  destruct (head (omap failure (rev ms))) as [err|].
  { unfold bind, closeOnError, Close, modify, ret. discriminate. }
  destruct (prepareRetryStrategy ParseConditon e) as [strategy|err].
  2:{ unfold bind, closeOnError, Close, modify, ret. discriminate. }
  unfold bind, closeOnError, ret. intros [= <- <- <-].
  cbn [eh_endpoint eh_tripper eh_strategy created closed].
  rewrite List.filter_app, foldr_app. repeat split.
Qed.

(** The clients that the loop of [Update] creates are numbered on from
    those that exist. *)
Lemma update_loop_created ms eps : forall r defers (w : BuildWorld),
  exists n, created (update_loop eps ms r defers w).2
            = created w ++ seq (length (created w)) n.
Proof.
  induction eps as [|e eps IH]; intros r defers w.
  - exists 0. simpl. rewrite app_nil_r. reflexivity.
  - cbn [Proxy.update_loop]. unfold bind at 1.
    destruct (ProxyFacts.buildEndpoint_cases ParseConditon clientFactory
                middlewareFactory e ms w)
      as [(err & _ & ->)|[(err & _ & _ & ->)|(h & _ & _ & ->)]].
    + exists 0. simpl. rewrite app_nil_r. reflexivity.
    + exists 1. reflexivity.
    + destruct (Handle _ _ _ _ _ _ _) as [[err|] r'].
      * exists 1. reflexivity.
      * match goal with |- context [update_loop eps ms ?r1 ?d1 ?w1] =>
          destruct (IH r1 d1 w1) as [n Hn] end.
        exists (S n). rewrite Hn. cbn [created seq].
        rewrite length_app, <- app_assoc. cbn [length app].
        rewrite Nat.add_1_r. reflexivity.
Qed.

Lemma seq_0_app n k : seq 0 n ++ seq n k = seq 0 (n + k).
Proof. rewrite seq_app. reflexivity. Qed.

(** [SyncClose] closes the clients of the router, each one once. *)
Lemma close_all_closed closers : forall w : BuildWorld,
  close_all closers w =
    (Some tt, {| created := created w; closed := closed w ++ closers;
                 closing := closing w |}).
Proof.
  induction closers as [|c closers IH]; intros w.
  - simpl. rewrite app_nil_r. destruct w; reflexivity.
  - cbn [close_all]. unfold bind, Close, modify. rewrite IH.
    cbn [created closed closing]. rewrite <- app_assoc. reflexivity.
Qed.

(** The routers of the tasks an update starts, and the clients after it. *)
Lemma Update_accounted (p : ProxyCell) (c : Config.Gateway) (w : BuildWorld)
    (tasks : list (@muxRouter Condition)) :
  created w = seq 0 (length (created w)) ->
  created w ≡ₚ closed w ++ allCloser (router p) ++ concat (allCloser <$> tasks) ->
  exists res (p' : ProxyCell) (w' : BuildWorld),
    Update p c w = (Some (res, p'), w') /\
    created w' = seq 0 (length (created w')) /\
    created w' ≡ₚ
      closed w' ++ allCloser (router p') ++
      concat (allCloser <$> tasks ++ drop (length (closing w)) (closing w')).
Proof.
  intros Hseq Hperm.
  unfold Proxy.Update, bind at 1.
  destruct (update_loop_created (Config.gw_Middlewares c) (Config.gw_Endpoints c)
              (@NewRouter Condition) [] w) as [n Hn].
  destruct (ProxyFacts.update_loop_spec ParseConditon route_error clientFactory
              middlewareFactory (Config.gw_Middlewares c) (Config.gw_Endpoints c)
              (@NewRouter Condition) [] w)
    as (res & r' & defers' & w' & new & E & Hcr & Hcl & Hd & Hres).
  rewrite E in Hn |- *. cbn [snd] in Hn. rewrite app_nil_r in Hd.
  assert (Hseq' : created w' = seq 0 (length (created w'))).
  { remember (length (created w)) as L eqn:HL.
    rewrite Hn, length_app, length_seq, <- HL, Hseq. apply seq_0_app. }
  destruct res as [err|].
  - unfold bind. rewrite ProxyFacts.run_defers_error. unfold ret.
    eexists (Some err), p, _. split; [reflexivity|].
    cbn [created closed closing]. rewrite Hd, Hcl, drop_all, app_nil_r.
    split; [exact Hseq'|].
    rewrite Hcr, Hperm, <- (Permutation_rev new).
    rewrite <- !app_assoc. apply Permutation_app_head.
    rewrite (Permutation_app_comm new). rewrite <- !app_assoc. reflexivity.
  - destruct Hres as (_ & Hclosed & Hclosers & _ & _).
    cbn [allCloser NewRouter app] in Hclosers.
    unfold bind, tryCloseRouter, modify. rewrite ProxyFacts.run_defers_nil.
    unfold ret. eexists None, _, _. split; [reflexivity|].
    cbn [created closed closing router].
    rewrite Hclosed, Hcl, Hclosers, drop_app_length.
    split; [exact Hseq'|].
    rewrite Hcr, Hperm, fmap_app, concat_app. cbn [fmap list_fmap concat].
    rewrite app_nil_r, <- !app_assoc. apply Permutation_app_head.
    rewrite (Permutation_app_comm (allCloser (router p))), <- app_assoc.
    apply Permutation_app_swap_app.
Qed.

(** Every client is numbered by its creation, and is in one place. *)
#[local] Abbreviation accounted := (fun s : System =>
  created (sys_world s) = seq 0 (length (created (sys_world s))) /\
  created (sys_world s) ≡ₚ
    closed (sys_world s) ++ allCloser (router (sys_proxy s)) ++
    concat (allCloser <$> sys_tasks s)).

Lemma run_event_accounted (ev : Event) (s s' : System) :
  accounted s -> run_event ev s = Some s' -> accounted s'.
Proof.
  intros [Hseq Hperm]. destruct ev as [c|i]; cbn [ProxyMore.run_event].
  - destruct (Update_accounted (sys_proxy s) c (sys_world s) (sys_tasks s)
                Hseq Hperm) as (res & p' & w' & -> & Hseq' & Hperm').
    intros [= <-]. split; assumption.
  - destruct (sys_tasks s !! i) as [r|] eqn:Hi; [|discriminate].
    unfold SyncClose. rewrite close_all_closed. intros [= <-].
    cbn [sys_world sys_proxy sys_tasks created closed].
    split; [exact Hseq|]. rewrite Hperm.
    rewrite <- (take_drop_middle _ _ _ Hi) at 1.
    rewrite delete_take_drop, !fmap_app, fmap_cons, !concat_app, concat_cons.
    rewrite <- !app_assoc. apply Permutation_app_head.
    rewrite !(app_assoc (allCloser (router (sys_proxy s)))).
    apply Permutation_app_swap_app.
Qed.

Lemma run_events_accounted (evs : list Event) : forall s s' : System,
  accounted s -> run_events evs s = Some s' -> accounted s'.
Proof.
  induction evs as [|ev evs IH]; intros s s' Hs; cbn [ProxyMore.run_events].
  - intros [= <-]. exact Hs.
  - destruct (run_event ev s) as [s1|] eqn:E1; [|discriminate].
    apply IH. eapply run_event_accounted; eassumption.
Qed.


(** X15: the retry strategy of an endpoint always allows one attempt at
    least and has positive timeouts, whatever the configuration says: zero
    attempts count as one, and a time limit that is missing or not
    positive counts as one second.  It can only fail to be built when the
    retry conditions do not parse; an endpoint without a retry block gets a
    single attempt and no conditions. *)
Theorem prepareRetryStrategy_bounds (e : Config.Endpoint) :
  (forall r, Config.ep_Retry e = Some r -> (0 <= Config.Attempts r)%Z) ->
  match prepareRetryStrategy ParseConditon e with
  | Ok s =>
    (1 <= attempts s)%Z /\ (0 < timeout s)%Z /\ (0 < perTryTimeout s)%Z /\
    (Config.ep_Retry e = None -> attempts s = 1%Z /\ conditions s = [])
  | Err err =>
    exists r, Config.ep_Retry e = Some r /\
              ParseConditon (Config.Conditions r) = Err err
  end.
Proof.
  intros Hu. unfold prepareRetryStrategy, parseRetryConditon.
  assert (Ht : (0 < calcTimeout e)%Z).
  { unfold calcTimeout, second.
    destruct (Z.leb_spec (default 0%Z (Config.ep_Timeout e)) 0); lia. }
  assert (Hp : (0 < calcPerTryTimeout e)%Z).
  { unfold calcPerTryTimeout, second.
    destruct (Z.leb_spec
                match Config.ep_Retry e with
                | Some {| Config.PerTryTimeout := Some d |} => d
                | _ => default 0%Z (Config.ep_Timeout e)
                end 0); lia. }
  assert (Ha : (1 <= calcAttempts e)%Z).
  { unfold calcAttempts. destruct (Config.ep_Retry e) as [r|]; [|lia].
    specialize (Hu r eq_refl).
    destruct (Z.eqb_spec (Config.Attempts r) 0); lia. }
  destruct (Config.ep_Retry e) as [r|] eqn:Hr.
  - destruct (ParseConditon (Config.Conditions r)) as [cs|err] eqn:Hc.
    + cbn [attempts timeout perTryTimeout conditions].
      repeat split; try assumption; discriminate.
    + exists r. split; [reflexivity|exact Hc].
  - cbn [attempts timeout perTryTimeout conditions].
    repeat split; try assumption.
    unfold calcAttempts. rewrite Hr. reflexivity.
Qed.

End Build.

Lemma buildEndpoint_layers_witness :
  exists h closer w',
    buildEndpoint status_conditions any_client known_middlewares retry_endpoint
      (Config.gw_Middlewares one_endpoint) no_clients
      = (Some (Ok (h, closer)), w') /\
    eh_tripper h =
      Wrapped (named "logging") (Wrapped (named "cors") (ClientTripper closer)).
Proof.
  eexists _, _, _. split; [reflexivity|].
  refine (proj1 (proj2 (buildEndpoint_layers status_conditions any_client
                          known_middlewares retry_endpoint
                          (Config.gw_Middlewares one_endpoint) no_clients
                          _ _ _ _))).
  reflexivity.
Defined.


Lemma prepareRetryStrategy_bounds_witness :
  match prepareRetryStrategy status_conditions retry_endpoint with
  | Ok s =>
    (1 <= attempts s)%Z /\ (0 < timeout s)%Z /\ (0 < perTryTimeout s)%Z /\
    (Config.ep_Retry retry_endpoint = None -> attempts s = 1%Z /\ conditions s = [])
  | Err err =>
    exists r, Config.ep_Retry retry_endpoint = Some r /\
              status_conditions (Config.Conditions r) = Err err
  end.
Proof.
  apply (prepareRetryStrategy_bounds status_conditions retry_endpoint).
  intros r [= <-]. simpl. lia.
Defined.

End BuildExtra.

(* --------------------------------------------------------------------- *)
(** ** The transcoder: the reply of the backend                           *)
(* --------------------------------------------------------------------- *)

Module TranscoderExtra.
Import Go Http Transcoder TranscoderMore.

Section Reply.
Context {S : Type}.
Variable ParseInt : string -> result Z.
Variable StdDecode RawDecode : string -> result (list byte).
Variable status_json : Z -> string -> option (list byte) -> result (list byte).

#[local] Abbreviation Middleware :=
  (Middleware (S:=S) ParseInt StdDecode RawDecode status_json).
#[local] Abbreviation inbound :=
  (inbound (S:=S) ParseInt StdDecode RawDecode status_json).

(** The status that the transcoder reads is the one of the reply. *)
Lemma grpc_status_after_content_type (h : Header) ct :
  Header_Get (Header_Set h "Content-Type" ct) "grpc-status"
  = Header_Get h "grpc-status".
Proof.
  unfold Header_Get, Header_Set.
  change (canon "Content-Type") with "Content-Type".
  change (canon "grpc-status") with "Grpc-Status".
  rewrite lookup_insert_ne by discriminate. reflexivity.
Qed.

(** X16: a reply with gRPC status 0 is unframed: the client gets the
    reply without its five-byte prefix, under the content type it sent,
    with the trailers among the headers and no [Content-Length] header.
    The prefix that the transcoder put before the request body is five
    bytes long too, so a backend that echoes its message gives the client
    its own body back. *)
Theorem transcoder_reply_unframed (next : RoundTripper S) req b bb s s'
    resp body prefix message :
  Config.ep_Protocol (req_Endpoint req) = Config.GRPC ->
  HasPrefix (Header_Get (req_Header req) "Content-Type") "application/grpc" = false ->
  ReadAll (req_Body req) = Ok b ->
  frame b = Some bb ->
  next (outbound req (Header_Get (req_Header req) "Content-Type") bb) s
    = (Some (Ok resp), s') ->
  resp_Body resp = Some body ->
  ReadAll body = Ok (prefix ++ message) ->
  length prefix = 5 ->
  Header_Get (resp_Trailer resp ∪ resp_Header resp) "grpc-status" = "0" ->
  drop 5 bb = b /\
  Middleware next req s =
    (Some (Ok {| resp_StatusCode := resp_StatusCode resp;
                 resp_Header :=
                   delete "Content-Length"
                     (<["Content-Type" := [Header_Get (req_Header req) "Content-Type"]]>
                        (resp_Trailer resp ∪ resp_Header resp));
                 resp_Trailer := ∅;
                 resp_ContentLength := Z.of_nat (length message);
                 resp_Body := Some (NewReader message) |}), s').
Proof.
  intros Hp Hct Hb Hf Hnext Hbody Hdata Hlen Hst.
  destruct (TranscoderFacts.Middleware_transcoded ParseInt StdDecode RawDecode
              status_json next req b Hp Hct Hb) as (bb' & Hf' & ->).
  rewrite Hf in Hf'. injection Hf' as <-.
  split.
  { rewrite TranscoderFacts.frame_eq in Hf. cbv zeta in Hf.
    injection Hf as <-. reflexivity. }
  unfold bind. rewrite Hnext. cbn [Transcoder.inbound]. rewrite Hbody, Hdata.
  rewrite grpc_status_after_content_type, Hst, String.eqb_refl. cbn [negb].
  rewrite length_app, Hlen.
  replace (5 + length message <? 5) with false by (symmetry; apply Nat.ltb_ge; lia).
  unfold ret. rewrite drop_app_length' by (symmetry; exact Hlen).
  replace (Z.of_nat (5 + length message) - 5)%Z with (Z.of_nat (length message))
    by lia.
  reflexivity.
Qed.

(** X17: when the transcoder panics.  On a request that it transcodes,
    the middleware panics if the next transport does, if the reply has no
    body, and if the reply has gRPC status 0 and a body of fewer than five
    bytes; in no other case. *)
Theorem transcoder_panics_iff (next : RoundTripper S) req b s :
  Config.ep_Protocol (req_Endpoint req) = Config.GRPC ->
  HasPrefix (Header_Get (req_Header req) "Content-Type") "application/grpc" = false ->
  ReadAll (req_Body req) = Ok b ->
  exists bb, frame b = Some bb /\
    ((Middleware next req s).1 = None <->
     match (next (outbound req (Header_Get (req_Header req) "Content-Type") bb) s).1 with
     | None => True
     | Some (Err _) => False
     | Some (Ok resp) =>
       match resp_Body resp with
       | None => True
       | Some body =>
         match ReadAll body with
         | Err _ => False
         | Ok data =>
           Header_Get (resp_Trailer resp ∪ resp_Header resp) "grpc-status" = "0" /\
           length data < 5
         end
       end
     end).
Proof.
  intros Hp Hct Hb.
  destruct (TranscoderFacts.Middleware_transcoded ParseInt StdDecode RawDecode
              status_json next req b Hp Hct Hb) as (bb & Hf & ->).
  exists bb. split; [exact Hf|].
  unfold bind. destruct (next _ s) as [[[resp|err]|] s']; cbn [fst];
    [|split; [discriminate|tauto]|tauto].
  cbn [Transcoder.inbound].
  destruct (resp_Body resp) as [body|]; [|split; auto].
  destruct (ReadAll body) as [data|err]; [|split; [discriminate|tauto]].
  rewrite grpc_status_after_content_type.
  destruct (String.eqb_spec (Header_Get (resp_Trailer resp ∪ resp_Header resp)
                               "grpc-status") "0") as [->|Hne]; cbn [negb].
  - destruct (Nat.ltb_spec (length data) 5).
    + split; auto.
    + split; [discriminate|]. intros [_ ?]. lia.
  - assert (Hno : forall x : option (result Response), 
              x <> None -> (x = None <-> False)) by (intros; tauto).
    split; [|intros [? _]; contradiction].
    destruct (ParseInt _) as [code|err]; [|discriminate].
    destruct (negb _);
      [destruct (decodeBinHeader _ _ _) as [details|err]|];
      try destruct (status_json _ _ _) as [js|err]; discriminate.
Qed.

End Reply.

Lemma transcoder_reply_unframed_witness :
  drop 5 [x00; x00; x00; x00; x02; x7b; x7d] = [x7b; x7d] /\
  demo_Middleware echo (post "application/json" [x7b; x7d]) []
  = (Some (Ok {| resp_StatusCode := 200;
                 resp_Header :=
                   delete "Content-Length"
                     (<["Content-Type" := ["application/json"]]>
                        ({[ "Grpc-Status" := ["0"] ]} ∪
                         {[ "Content-Type" := ["application/grpc+json"] ]}));
                 resp_Trailer := ∅;
                 resp_ContentLength := 2;
                 resp_Body := Some (NewReader [x7b; x7d]) |}),
     [outbound (post "application/json" [x7b; x7d]) "application/json"
        [x00; x00; x00; x00; x02; x7b; x7d]]).
Proof.
  refine (transcoder_reply_unframed demo_ParseInt demo_Decode demo_Decode
           demo_status_json echo (post "application/json" [x7b; x7d])
           [x7b; x7d] [x00; x00; x00; x00; x02; x7b; x7d] []
           [outbound (post "application/json" [x7b; x7d]) "application/json"
              [x00; x00; x00; x00; x02; x7b; x7d]]
           {| resp_StatusCode := 200;
              resp_Header := {[ "Content-Type" := ["application/grpc+json"] ]};
              resp_Trailer := {[ "Grpc-Status" := ["0"] ]};
              resp_ContentLength := -1;
              resp_Body := Some (NewReader [x00; x00; x00; x00; x02; x7b; x7d]) |}
           (NewReader [x00; x00; x00; x00; x02; x7b; x7d])
           [x00; x00; x00; x00; x02] [x7b; x7d] _ _ _ _ _ _ _ _ _); reflexivity.
Defined.

Lemma transcoder_panics_iff_witness :
  exists bb, frame [x7b; x7d] = Some bb /\
    ((demo_Middleware no_message (post "application/json" [x7b; x7d]) []).1 = None <->
     match (no_message (outbound (post "application/json" [x7b; x7d])
                          (Header_Get (req_Header (post "application/json" [x7b; x7d]))
                             "Content-Type") bb) []).1 with
     | None => True
     | Some (Err _) => False
     | Some (Ok resp) =>
       match resp_Body resp with
       | None => True
       | Some body =>
         match ReadAll body with
         | Err _ => False
         | Ok data =>
           Header_Get (resp_Trailer resp ∪ resp_Header resp) "grpc-status" = "0" /\
           length data < 5
         end
       end
     end).
Proof.
  apply (transcoder_panics_iff demo_ParseInt demo_Decode demo_Decode
           demo_status_json no_message (post "application/json" [x7b; x7d])
           [x7b; x7d] []); reflexivity.
Defined.

(** A backend that answers "status 0, no message" makes the transcoder
    panic. *)
Example no_message_panics :
  (demo_Middleware no_message (post "application/json" [x7b; x7d]) []).1 = None.
Proof. vm_compute. reflexivity. Qed.

End TranscoderExtra.

(* --------------------------------------------------------------------- *)
(** ** The middleware registry                                            *)
(* --------------------------------------------------------------------- *)

Module RegistryExtra.
Import Go Proxy Registry.

Lemma lower_lower (c : ascii) : lower (lower c) = lower c.
Proof.
  destruct c as [[] [] [] [] [] [] [] []]; reflexivity.
Qed.

Lemma ToLower_ToLower (s : string) : ToLower (ToLower s) = ToLower s.
Proof.
  induction s as [|c s IH]; [reflexivity|].
  cbn [ToLower]. rewrite lower_lower, IH. reflexivity.
Qed.

Lemma ToLower_app (a b : string) :
  ToLower (a +:+ b) = ToLower a +:+ ToLower b.
Proof.
  induction a as [|c a IH]; [reflexivity|].
  change (String (lower c) (ToLower (a +:+ b))
          = String (lower c) (ToLower a +:+ ToLower b)).
  rewrite IH. reflexivity.
Qed.

Lemma createFullName_eq (n1 n2 : string) :
  createFullName n1 = createFullName n2 <-> ToLower n1 = ToLower n2.
Proof.
  unfold createFullName. rewrite !ToLower_app. split.
  - apply String.app_inj.
  - intros ->. reflexivity.
Qed.

Section Registry.
Context {MW : Type}.
Variable EmptyMiddleware : MW.

Lemma getMiddleware_full (p : @middlewareRegistry MW) (name : string) :
  getMiddleware p (createFullName name) = middleware p !! createFullName name.
Proof.
  unfold getMiddleware, createFullName. rewrite ToLower_ToLower. reflexivity.
Qed.

#[local] Abbreviation Create := (Create EmptyMiddleware).
#[local] Abbreviation Create_error := (Create_error EmptyMiddleware).

(** With ASCII names, every string that the registry lowers is ASCII. *)
Lemma createFullName_ascii (name : string) :
  is_ascii name = true ->
  is_ascii ("gateway.middleware." +:+ name) = true /\
  is_ascii (createFullName name) = true.
Proof.
  intros H. split.
  - exact H.
  - unfold createFullName. rewrite ToLower_app.
    change (is_ascii (ToLower name) = true).
    induction name as [|c s IH]; [reflexivity|].
    cbn [is_ascii ToLower] in H |- *.
    apply andb_true_iff in H as [Hc Hs]. rewrite (IH Hs), andb_true_r.
    clear - Hc. destruct c as [[] [] [] [] [] [] [] []];
      first [reflexivity | discriminate Hc].
Qed.

(** X18: ASCII names are registered and looked up without regard to
    case.  After a factory was registered under an ASCII name, creating a
    middleware whose ASCII name differs from it in case only runs that
    factory: its middleware is returned; when it fails, the error is
    returned for a required middleware and the empty middleware for an
    optional one.  ASCII names that differ in more than case are not
    affected by the registration. *)
Theorem Create_after_Register (p : middlewareRegistry) (name : string)
    (factory : FactoryV2) (cfg : Config.Middleware) :
  is_ascii name = true ->
  is_ascii (Config.mw_Name cfg) = true ->
  let created :=
    if bool_decide (ToLower (Config.mw_Name cfg) = ToLower name) then
      match factory cfg with
      | Ok instance => Ok instance
      | Err err => if Config.mw_Required cfg then Err err else Ok EmptyMiddleware
      end
    else Create p cfg in
  Create (Register name factory p) cfg = created /\
  Create (RegisterV2 name factory p) cfg = created.
Proof.
  intros _ _. cbv zeta.
  unfold Registry.Create. rewrite !getMiddleware_full.
  unfold Register, RegisterV2. cbn [middleware].
  destruct (bool_decide_reflect (ToLower (Config.mw_Name cfg) = ToLower name))
    as [Heq|Hne].
  - apply createFullName_eq in Heq. rewrite Heq, !lookup_insert_eq.
    unfold wrapFactory.
    destruct (Config.mw_Required cfg), (factory cfg); split; reflexivity.
  - rewrite !lookup_insert_ne; [split; reflexivity| |];
      intros Heq; apply Hne; symmetry; apply createFullName_eq; exact Heq.
Qed.

(** X19: with the registry as the middleware factory of the proxy, the
    only way for [buildMiddleware] to fail is a middleware that is
    required, registered, and whose factory fails: the error is then the
    one of that factory.  A name that is not registered is skipped, also
    when the middleware is marked as required, and an optional middleware
    that cannot be created is replaced by the empty one. *)
Theorem build_fails_only_on_required (p : middlewareRegistry)
    (ms : list Config.Middleware) (next : Tripper) :
  match buildMiddleware (Create_error p) ms next with
  | Ok _ => True
  | Err err =>
    exists m method,
      m ∈ ms /\ Config.mw_Required m = true /\
      getMiddleware p (createFullName (Config.mw_Name m)) = Some method /\
      method m = Err err
  end.
Proof.
  unfold buildMiddleware.
  assert (H : forall l next,
            (forall m, m ∈ l -> m ∈ ms) ->
            match buildMiddleware_from_last (Create_error p) l next with
            | Ok _ => True
            | Err err =>
              exists m method,
                m ∈ ms /\ Config.mw_Required m = true /\
                getMiddleware p (createFullName (Config.mw_Name m)) = Some method /\
                method m = Err err
            end).
  { induction l as [|m l IH]; intros nx Hsub; [exact I|].
    cbn [buildMiddleware_from_last].
    assert (Hl : forall m', m' ∈ l -> m' ∈ ms)
      by (intros m' Hm'; apply Hsub; right; exact Hm').
    unfold Registry.Create_error at 1, Registry.Create.
    destruct (getMiddleware p (createFullName (Config.mw_Name m)))
      as [method|] eqn:Hg.
    - destruct (Config.mw_Required m) eqn:Hreq.
      + destruct (method m) as [inst|err] eqn:Hm; [apply IH, Hl|].
        destruct (errors_Is err ErrNotFound); [apply IH, Hl|].
        exists m, method. split; [apply Hsub; left|]. auto.
      + destruct (method m) as [inst|err]; apply IH, Hl.
    - cbn [errors_Is]. apply IH, Hl. }
  apply H. intros m Hm. apply list_elem_of_In. apply in_rev.
  apply list_elem_of_In. exact Hm.
Qed.

End Registry.

Lemma Create_after_Register_witness :
  Create "" (Register "Cors" cors_factory NewRegistry) (ProxyMore.named "CORS")
  = Ok "cors"%string.
Proof.
  refine (proj1 (Create_after_Register "" NewRegistry "Cors" cors_factory
                   (ProxyMore.named "CORS") _ _)); reflexivity.
Defined.

(** A required middleware that is not registered does not stop the
    build, one that is registered and fails does. *)
Example required_unknown_skipped :
  buildMiddleware (Create_error "" demo_registry)
    [{| Config.mw_Name := "tracing"; Config.mw_Required := true;
        Config.mw_Options := "" |};
     {| Config.mw_Name := "CORS"; Config.mw_Required := true;
        Config.mw_Options := "" |}]
    (ClientTripper 0)
  = Ok (Wrapped {| Config.mw_Name := "CORS"; Config.mw_Required := true;
                   Config.mw_Options := "" |} (ClientTripper 0)).
Proof. vm_compute. reflexivity. Qed.

Example required_failing_stops :
  buildMiddleware (Create_error "" demo_registry)
    [{| Config.mw_Name := "jwt"; Config.mw_Required := true;
        Config.mw_Options := "" |}]
    (ClientTripper 0)
  = Err (New "jwt: no key").
Proof. vm_compute. reflexivity. Qed.

End RegistryExtra.

(* --------------------------------------------------------------------- *)
(** ** Backends, discovery notifications and the cleanup of subscribers  *)
(* --------------------------------------------------------------------- *)

Module ClientExtra.
Import Go Selector Client ClientMore.

Section Apply.
Variable url_Parse : string -> result URL.
Variable ParseInt : string -> Z * option error.
Context {W : Type}.
Variable AddWatch : string -> W -> option (list ServiceInstance) * W.

#[local] Abbreviation parseTarget := (parseTarget url_Parse).
#[local] Abbreviation apply_loop := (apply_loop url_Parse ParseInt AddWatch).
#[local] Abbreviation apply := (apply url_Parse ParseInt AddWatch).
#[local] Abbreviation Callback := (Callback url_Parse ParseInt).
#[local] Abbreviation instance_node := (instance_node url_Parse ParseInt).
#[local] Abbreviation doCallback := (doCallback url_Parse ParseInt).

(** The node that [apply] makes of a direct backend. *)
#[local] Abbreviation direct_node protocol := (fun b : Config.Backend =>
  newNode (Config.Target b) protocol (Config.Weight b) (Config.bk_Metadata b)
    "" "" [WithTLS (Config.Tls b); WithTLSConfigName (Config.TlsConfigName b)]).

Lemma apply_loop_direct (bs : list Config.Backend) : forall nodes na (w : W),
  Forall (fun b => exists t, parseTarget (Config.Target b) = Ok t /\
                             tg_Scheme t = "direct") bs ->
  exists na',
    apply_loop bs nodes na w = (None, na', w) /\
    canceled na' = canceled na /\ endpoint na' = endpoint na /\
    apply_calls (picker na') = apply_calls (picker na) + length bs /\
    applied (picker na') =
      match bs with
      | [] => applied (picker na)
      | _ => nodes ++ map (direct_node (Config.ep_Protocol (endpoint na))) bs
      end.
Proof.
  induction bs as [|b bs IH]; intros nodes na w Hall.
  - exists na. cbn. repeat split. lia.
  - apply Forall_cons in Hall as [(tg & Hp & Hs) Hall].
    cbn [ClientMore.apply_loop]. rewrite Hp, Hs. cbn [String.eqb].
    change (("direct" =? "direct")%string) with true. cbv iota.
    match goal with |- context [ClientMore.apply_loop _ _ _ bs ?n1 ?na1 w] =>
      destruct (IH n1 na1 w Hall) as (na' & -> & Hc & He & Hk & Ha) end.
    cbn [canceled endpoint picker picker_Apply apply_calls applied] in *.
    exists na'. split; [reflexivity|]. split; [exact Hc|]. split; [exact He|].
    split; [cbn [length]; lia|].
    rewrite Ha. destruct bs as [|b' bs]; [reflexivity|].
    rewrite <- app_assoc. reflexivity.
Qed.

(** X20: an endpoint whose backends are all direct gets one node for each
    backend, in the order of the configuration: the address of the node is
    the target as the configuration spells it, its weight and TLS flag are
    those of the backend.  The selector is given the nodes once for each
    backend, the watcher is not touched, and no error is returned. *)
Theorem apply_direct_backends (na : nodeApplier) (w : W) :
  Forall (fun b => exists t, parseTarget (Config.Target b) = Ok t /\
                             tg_Scheme t = "direct")
         (Config.ep_Backends (endpoint na)) ->
  Config.ep_Backends (endpoint na) <> [] ->
  exists na',
    apply na w = (None, na', w) /\
    canceled na' = canceled na /\ endpoint na' = endpoint na /\
    apply_calls (picker na') =
      apply_calls (picker na) + length (Config.ep_Backends (endpoint na)) /\
    address <$> applied (picker na') = Config.Target <$> Config.ep_Backends (endpoint na) /\
    weight <$> applied (picker na') = Config.Weight <$> Config.ep_Backends (endpoint na) /\
    tls <$> applied (picker na') = Config.Tls <$> Config.ep_Backends (endpoint na) /\
    Forall (fun n => protocol n = Config.ep_Protocol (endpoint na))
           (applied (picker na')).
Proof.
  intros Hall Hne. unfold ClientMore.apply.
  destruct (apply_loop_direct _ [] na w Hall) as (na' & -> & Hc & He & Hk & Ha).
  exists na'. split; [reflexivity|]. split; [exact Hc|]. split; [exact He|].
  split; [exact Hk|]. rewrite Ha.
  destruct (Config.ep_Backends (endpoint na)) as [|b bs] eqn:Hb; [congruence|].
  cbn [app]. rewrite <- !list_fmap_compose.
  split; [reflexivity|]. split; [reflexivity|]. split; [reflexivity|].
  apply Forall_fmap, Forall_true. intros b'. reflexivity.
Qed.

(** Calling an applier back several times with the same instances. *)
Lemma Callback_iter (services : list ServiceInstance) (k : nat) (na : nodeApplier) :
  Nat.iter k (fun na => (Callback na services).2) na =
    if canceled na then na
    else if length services =? 0 then na
    else match k with
         | 0 => na
         | S _ =>
           {| canceled := false; endpoint := endpoint na;
              picker := {| applied := omap (instance_node na (wanted_scheme na)) services;
                           apply_calls := apply_calls (picker na) + k |} |}
         end.
Proof.
  induction k as [|k IH].
  { cbn [Nat.iter]. destruct (canceled na), (length services =? 0); reflexivity. }
  rewrite Nat.iter_succ, IH.
  destruct (canceled na) eqn:Hc.
  { unfold Client.Callback. rewrite Hc. reflexivity. }
  destruct (length services =? 0) eqn:Hl.
  { unfold Client.Callback. rewrite Hc, Hl. reflexivity. }
  destruct k as [|k]; unfold Client.Callback; cbn [canceled]; rewrite ?Hc, Hl;
    rewrite ClientFacts.build_nodes_omap; cbn [app snd];
    unfold picker_Apply; cbn [picker apply_calls endpoint].
  - rewrite Nat.add_1_r. reflexivity.
  - rewrite <- Nat.add_succ_r. reflexivity.
Qed.

Lemma doCallback_lookup (order : list string) (ep : string)
    (services : list ServiceInstance) (aps : Watcher.Appliers) (l : nat) :
  forall h : Watcher.Store,
  Watcher.doCallback url_Parse ParseInt order ep services aps h !! l =
    Nat.iter (length (filter (fun id => default ∅ (aps !! ep) !! id = Some l) order))
      (fun na => (Callback na services).2) <$> h !! l.
Proof.
  unfold Watcher.doCallback.
  induction order as [|id order IH]; intros h.
  { cbn. destruct (h !! l); reflexivity. }
  cbn [fold_left]. rewrite IH, filter_cons.
  destruct (default ∅ (aps !! ep) !! id) as [l'|] eqn:Hid.
  - destruct (decide (l' = l)) as [->|Hne].
    + rewrite decide_True by reflexivity. unfold Watcher.Callback_at.
      rewrite lookup_alter_eq. cbn [length].
      destruct (h !! l) as [na|]; [|reflexivity].
      cbn [fmap option_fmap option_map]. rewrite Nat.iter_succ_r. reflexivity.
    + rewrite decide_False by congruence. unfold Watcher.Callback_at.
      rewrite lookup_alter_ne by exact Hne. reflexivity.
  - rewrite decide_False by discriminate. reflexivity.
Qed.


(** X22: the nodes that a discovery notification gives to the selector
    are, in the order of the notification, one for each instance that has
    a plain endpoint of the scheme of the endpoint's protocol.  The node
    has the host of the first such endpoint as its address, the name, the
    version and the metadata of the instance, the protocol of the endpoint
    and the client for plain connections of that protocol.  Its weight is
    the number under [weight] in the metadata of the instance when that
    number is positive, and 10 otherwise; so it is always positive. *)
Theorem discovery_nodes_weighted (na : nodeApplier)
    (services : list ServiceInstance) :
  canceled na = false -> services <> [] ->
  Forall2 (fun ser n =>
      Client.parseEndpoint url_Parse (si_Endpoints ser) (wanted_scheme na) false
        = Ok (address n) /\
      address n <> "" /\
      (exists w, weight n = Some w /\ (0 < w)%Z /\
         w = match si_Metadata ser !! "weight" with
             | Some v => if (0 <? (ParseInt v).1)%Z then (ParseInt v).1 else 10%Z
             | None => 10%Z
             end) /\
      name n = si_Name ser /\ version n = si_Version ser /\
      metadata n = si_Metadata ser /\
      protocol n = Config.ep_Protocol (endpoint na) /\
      client n = if bool_decide (Config.ep_Protocol (endpoint na) = Config.GRPC)
                 then h2c_client else plain_client)
    (List.filter
       (fun ser =>
          match Client.parseEndpoint url_Parse (si_Endpoints ser)
                  (wanted_scheme na) false with
          | Ok addr => negb (String.eqb addr "")
          | Err _ => false
          end) services)
    (applied (picker (Callback na services).2)).
Proof.
  intros Hc Hne. unfold Client.Callback. rewrite Hc.
  destruct (length services =? 0) eqn:Hl.
  { destruct services; [congruence|discriminate]. }
  cbn [snd picker picker_Apply applied].
  rewrite ClientFacts.build_nodes_omap. cbn [app].
  clear Hne Hl.
  induction services as [|ser rest IH]; [constructor|].
  cbn [omap list_omap List.filter]. unfold Client.instance_node at 1.
  destruct (Client.parseEndpoint url_Parse (si_Endpoints ser) (wanted_scheme na) false)
    as [addr|err] eqn:E; [|exact IH].
  destruct (String.eqb_spec addr "") as [->|Hne]; cbn [negb]; [exact IH|].
  constructor; [|exact IH].
  cbn [newNode address weight name version metadata protocol client tls
       fold_left WithTLS opt_TLS opt_TLSConfigName].
  split; [exact E|]. split; [exact Hne|]. split.
  { unfold nodeWeight, _defaultWeight.
    destruct (si_Metadata ser !! "weight") as [v|];
      [|exists 10%Z; repeat split; lia].
    destruct (Z.leb_spec (ParseInt v).1 0) as [Hle|Hlt].
    - exists 10%Z. split; [reflexivity|]. split; [lia|].
      destruct (Z.ltb_spec 0 (ParseInt v).1); [lia|reflexivity].
    - exists (ParseInt v).1. split; [reflexivity|]. split; [lia|].
      destruct (Z.ltb_spec 0 (ParseInt v).1); [reflexivity|lia]. }
  repeat split.
Qed.

End Apply.

(** What is left of a subscriber map after the cancelled ones are
    deleted. *)
Lemma lookup_foldr_delete {A} (m : gmap string A) (js : list string) (j : string) :
  foldr delete m js !! j = if bool_decide (j ∈ js) then None else m !! j.
Proof.
  induction js as [|i js IH]; [reflexivity|]. cbn [foldr].
  destruct (decide (i = j)) as [->|Hne].
  - rewrite lookup_delete_eq, bool_decide_true by left. reflexivity.
  - rewrite lookup_delete_ne by exact Hne. rewrite IH.
    destruct (bool_decide_reflect (j ∈ js)) as [Hin|Hnin].
    + rewrite bool_decide_true by (right; exact Hin). reflexivity.
    + rewrite bool_decide_false; [reflexivity|].
      intros Hin. apply elem_of_cons in Hin as [->|Hin]; [congruence|auto].
Qed.

Lemma elem_of_cleanup (aps : gmap string nodeApplier) (id : string) :
  id ∈ (List.filter (fun kv : string * nodeApplier => Canceled kv.2)
          (map_to_list aps)).*1
  <-> exists na, aps !! id = Some na /\ canceled na = true.
Proof.
  rewrite list_elem_of_fmap. split.
  - intros ([id' na] & -> & Hin). apply list_elem_of_In, filter_In in Hin as [Hin Hc].
    apply list_elem_of_In, elem_of_map_to_list in Hin. eauto.
  - intros (na & Hl & Hc). exists (id, na). split; [reflexivity|].
    apply list_elem_of_In, filter_In. split; [|exact Hc].
    apply list_elem_of_In, elem_of_map_to_list. exact Hl.
Qed.

Lemma cleanup_nil (aps : gmap string nodeApplier) :
  (length (List.filter (fun kv : string * nodeApplier => Canceled kv.2)
             (map_to_list aps)).*1 <=? 0) = true
  <-> forall id na, aps !! id = Some na -> canceled na = false.
Proof.
  rewrite Nat.leb_le. split.
  - intros Hlen id na Hl. destruct (canceled na) eqn:Hc; [|reflexivity].
    assert (Hin : id ∈ (List.filter (fun kv : string * nodeApplier => Canceled kv.2)
                          (map_to_list aps)).*1)
      by (apply elem_of_cleanup; eauto).
    destruct (_.*1) as [|x l]; [inversion Hin|cbn in Hlen; lia].
  - intros Hall.
    destruct (_.*1) as [|x l] eqn:E; [cbn; lia|].
    assert (Hin : x ∈ (List.filter (fun kv : string * nodeApplier => Canceled kv.2)
                         (map_to_list aps)).*1)
      by (rewrite E; left).
    apply elem_of_cleanup in Hin as (na & Hl & Hc).
    rewrite (Hall _ _ Hl) in Hc. discriminate.
Qed.

(** X23: a pass of the cleanup task never removes a subscriber that is
    not cancelled and never adds one; it does not touch the cache of the
    watcher, and it keeps an entry for every endpoint that had one. *)
Theorem doCleanup_keeps_live_subscribers (order : list string)
    (s : serviceWatcher) :
  let s' := doCleanup order s in
  ws_watcherStatus s' = ws_watcherStatus s /\
  forall ep,
    match appliers s !! ep, appliers s' !! ep with
    | Some aps, Some aps' =>
      forall id,
        match aps !! id with
        | Some na => aps' !! id = Some na \/
                     (canceled na = true /\ aps' !! id = None)
        | None => aps' !! id = None
        end
    | None, None => True
    | _, _ => False
    end.
Proof.
  cbv zeta. revert s. induction order as [|e order IH]; intros s.
  - cbn [doCleanup]. split; [reflexivity|]. intros ep.
    destruct (appliers s !! ep) as [aps|]; [|exact I].
    intros id. destruct (aps !! id); auto.
  - cbn [doCleanup].
    destruct (appliers s !! e) as [aps0|] eqn:He; [|apply IH].
    destruct (length _ <=? 0) eqn:Hlen.
    { split; [reflexivity|]. intros ep.
      destruct (appliers s !! ep) as [aps|]; [|exact I].
      intros id. destruct (aps !! id); auto. }
    match goal with |- context [doCleanup order ?s1] =>
      destruct (IH s1) as [Hws Hap] end.
    cbn [ws_watcherStatus appliers] in *.
    split; [exact Hws|]. intros ep. specialize (Hap ep).
    destruct (decide (ep = e)) as [->|Hne].
    + rewrite lookup_insert_eq in Hap. rewrite He.
      destruct (appliers (doCleanup order _) !! e) as [aps'|]; [|contradiction].
      intros id. specialize (Hap id). rewrite lookup_foldr_delete in Hap.
      destruct (aps0 !! id) as [na|] eqn:Hid.
      * destruct (bool_decide_reflect (id ∈ (List.filter
            (fun kv : string * nodeApplier => Canceled kv.2) (map_to_list aps0)).*1))
          as [Hin|Hnin].
        -- right. apply elem_of_cleanup in Hin as (na' & Hl & Hc).
           split; [congruence|exact Hap].
        -- exact Hap.
      * destruct (bool_decide _); exact Hap.
    + rewrite lookup_insert_ne in Hap by congruence. exact Hap.
Qed.

(** X24: the pass ends at the first endpoint, in the order of the pass,
    that has no cancelled subscriber: the subscribers of the endpoints that
    come after it are not looked at, and the cancelled ones among them stay
    registered. *)
Theorem doCleanup_stops_at_clean_endpoint (pre post : list string)
    (ep : string) (s : serviceWatcher) (aps : gmap string nodeApplier) :
  NoDup (pre ++ ep :: post) ->
  appliers s !! ep = Some aps ->
  (forall id na, aps !! id = Some na -> canceled na = false) ->
  forall ep', ep' ∈ post ->
    appliers (doCleanup (pre ++ ep :: post) s) !! ep' = appliers s !! ep'.
Proof.
  revert s. induction pre as [|e pre IH]; intros s Hnd Hep Hlive ep' Hin.
  - cbn [app doCleanup]. rewrite Hep.
    rewrite (proj2 (cleanup_nil aps) Hlive). reflexivity.
  - cbn [app] in Hnd. apply NoDup_cons in Hnd as [Hfresh Hnd].
    assert (He : e <> ep).
    { intros ->. apply Hfresh. apply elem_of_app. right. left. }
    assert (He' : e <> ep').
    { intros ->. apply Hfresh. apply elem_of_app. right. right. exact Hin. }
    cbn [app doCleanup].
    destruct (appliers s !! e) as [aps0|] eqn:Hl0; [|apply IH; assumption].
    destruct (length _ <=? 0); [reflexivity|].
    rewrite IH; try assumption.
    + cbn [appliers]. rewrite lookup_insert_ne by exact He'. reflexivity.
    + cbn [appliers]. rewrite lookup_insert_ne by exact He. exact Hep.
Qed.

Lemma apply_direct_backends_witness :
  exists na',
    ClientMore.apply direct_Parse demo_weight no_watch direct_applier tt
      = (None, na', tt) /\
    canceled na' = false /\ endpoint na' = direct_endpoint /\
    apply_calls (picker na') = 0 + 2 /\
    address <$> applied (picker na') = ["10.0.0.1:8000"; "10.0.0.2:8443"] /\
    weight <$> applied (picker na') = [Some 5%Z; Some 5%Z] /\
    tls <$> applied (picker na') = [false; true] /\
    Forall (fun n => protocol n = Config.HTTP) (applied (picker na')).
Proof.
  apply (apply_direct_backends direct_Parse demo_weight no_watch direct_applier tt).
  - repeat constructor; eexists; split; reflexivity.
  - discriminate.
Defined.


(** The applier that is subscribed twice under [users] is called back
    twice, and what it holds then is what [orders] sees as well; the other
    applier is left alone. *)
Example doCallback_shared :
  let h' := Watcher.doCallback demo_Parse demo_weight ["a"; "b"] "users"
              [plain_instance] Watcher.shared_appliers Watcher.two_appliers in
  apply_calls <$> (picker <$> h' !! 0) = Some 2 /\
  h' !! 1 = Some demo_applier.
Proof. vm_compute. split; reflexivity. Qed.

Lemma discovery_nodes_weighted_witness :
  Forall2 (fun ser n =>
      parseEndpoint demo_Parse (si_Endpoints ser) (wanted_scheme demo_applier) false
        = Ok (address n) /\
      address n <> "" /\
      (exists w, weight n = Some w /\ (0 < w)%Z /\
         w = match si_Metadata ser !! "weight" with
             | Some v => if (0 <? (demo_weight v).1)%Z then (demo_weight v).1 else 10%Z
             | None => 10%Z
             end) /\
      name n = si_Name ser /\ version n = si_Version ser /\
      metadata n = si_Metadata ser /\
      protocol n = Config.GRPC /\
      client n = h2c_client)
    [plain_instance]
    (applied (picker (Callback demo_Parse demo_weight demo_applier
                        [secure_instance; plain_instance]).2)).
Proof.
  refine (discovery_nodes_weighted demo_Parse demo_weight demo_applier
            [secure_instance; plain_instance] _ _).
  - reflexivity.
  - discriminate.
Defined.

(** The weights of that notification and of one without a weight. *)
Example discovery_weights :
  weight <$> applied (picker (Callback demo_Parse demo_weight demo_applier
                                [plain_instance;
                                 {| si_ID := "c"; si_Name := "svc"; si_Version := "v1";
                                    si_Metadata := {[ "weight" := "-3" ]};
                                    si_Endpoints := ["grpc://10.0.0.2:9000"] |}]).2)
  = [Some 20%Z; Some 10%Z].
Proof. vm_compute. reflexivity. Qed.

Lemma doCleanup_stops_at_clean_endpoint_witness :
  appliers (doCleanup (["users"] ++ "carts" :: ["orders"]) two_endpoints) !! "orders"
  = Some {[ "c" := Cancel demo_applier ]}.
Proof.
  refine (doCleanup_stops_at_clean_endpoint ["users"] ["orders"] "carts"
            two_endpoints {[ "d" := demo_applier ]} _ _ _ "orders" _).
  - repeat constructor; cbn; intros H; repeat (apply elem_of_cons in H as [H|H]; [discriminate|]); inversion H.
  - reflexivity.
  - intros id na H. apply lookup_singleton_Some in H as [_ <-]. reflexivity.
  - left.
Defined.

(** In that pass the cancelled subscriber of [users] is removed. *)
Example cleanup_users :
  appliers (doCleanup ["users"; "carts"; "orders"] two_endpoints) !! "users"
  = Some {[ "a" := demo_applier ]}.
Proof. vm_compute. reflexivity. Qed.

End ClientExtra.
